(** * worktree-container: a shallow embedding of the port allocator, the
      label store, the devcontainer rewriter and the create/start commands.

    Go values are modelled as follows.
    - [int] is a 64-bit two's complement integer: a [Z] with the wrap-around
      of the one addition that may overflow written out ([int_wrap]).
    - [string] is Rocq's [string] (a sequence of bytes).
    - [map[string]T] is stdpp's [gmap string T]; the iteration order of a Go
      map is unspecified, so every statement about a list produced by ranging
      over a map is stated up to permutation.
    - [(T, error)] is [result T]: [Ok v] or [Err e].
    - the operating system (socket binds) and the Docker daemon are inputs. *)

From stdpp Require Import gmap strings list fin_maps sorting.
From Stdlib Require Import ZArith Ascii String List Lia Permutation QArith.
From Stdlib Require Import DecimalString DecimalZ DecimalPos.

Local Open Scope string_scope.
Local Open Scope Z_scope.
Local Open Scope list_scope.

Local Set Warnings "-register-all".

(** ** Results and errors *)

Inductive result (E A : Type) : Type :=
| Ok (v : A)
| Err (e : E).
Arguments Ok {E A} v.
Arguments Err {E A} e.

Definition is_ok {E A} (r : result E A) : bool :=
  match r with Ok _ => true | Err _ => false end.

(** ** Machine integers *)

Definition int_min : Z := - 2 ^ 63.
Definition int_max : Z := 2 ^ 63 - 1.

Definition is_int (z : Z) : Prop := int_min <= z <= int_max.

(** Two's complement wrap-around of a 64-bit signed addition. *)
Definition int_wrap (z : Z) : Z := (z + 2 ^ 63) mod 2 ^ 64 - 2 ^ 63.

(** * Package strconv and package strings (the parts the program calls) *)

Module strconv.

(** [strconv.Itoa]: the decimal digits, with a leading minus sign for
    negative numbers. [fmt.Sprintf("%d", n)] prints the same text. *)
Definition Itoa (n : Z) : string :=
  DecimalString.NilZero.string_of_int (Z.to_int n).

(** The unsigned digits of [Atoi]: at least one character, all of them
    decimal digits. *)
Definition parseDigits (s : string) : option Z :=
  match s with
  | EmptyString => None
  | _ => option_map Z.of_uint (DecimalString.NilEmpty.uint_of_string s)
  end.

Definition inRange (z : Z) : option Z :=
  if (int_min <=? z) && (z <=? int_max) then Some z else None.

(** [strconv.Atoi]: an optional sign, then base-10 digits; [None] stands for
    the syntax and range errors. *)
Definition Atoi (s : string) : option Z :=
  match s with
  | String "+"%char rest => z ← parseDigits rest; inRange z
  | String "-"%char rest => z ← parseDigits rest; inRange (- z)
  | _ => z ← parseDigits s; inRange z
  end.

End strconv.

Module strings.

(** [strings.HasPrefix] and [strings.TrimPrefix] in one: the rest of [s]
    after [prefix], or [None] when [s] does not start with [prefix]. *)
Fixpoint CutPrefix (s prefix : string) : option string :=
  match prefix, s with
  | EmptyString, _ => Some s
  | String p prefix', String c s' =>
      if Ascii.eqb p c then CutPrefix s' prefix' else None
  | String _ _, EmptyString => None
  end.

Definition HasPrefix (s prefix : string) : bool :=
  match CutPrefix s prefix with Some _ => true | None => false end.

Definition isUpper (c : ascii) : bool :=
  (Ascii.leb "A" c && Ascii.leb c "Z")%char.

Definition lowerChar (c : ascii) : ascii :=
  if isUpper c then ascii_of_N (N_of_ascii c + 32) else c.

(** [strings.ToLower] on ASCII text (bytes outside A-Z are kept). *)
Fixpoint ToLower (s : string) : string :=
  match s with
  | EmptyString => EmptyString
  | String c s' => String (lowerChar c) (ToLower s')
  end.

(** [strings.ReplaceAll(s, old, new)] for one-byte [old] and [new]. *)
Definition ReplaceAll (s : list ascii) (old new : ascii) : list ascii :=
  List.map (fun c => if Ascii.eqb c old then new else c) s.

Fixpoint TrimLeft (s : list ascii) (cut : ascii) : list ascii :=
  match s with
  | c :: s' => if Ascii.eqb c cut then TrimLeft s' cut else s
  | [] => []
  end.

Definition TrimRight (s : list ascii) (cut : ascii) : list ascii :=
  rev (TrimLeft (rev s) cut).

(** [strings.Trim(s, cutset)] for a one-byte cutset. *)
Definition Trim (s : list ascii) (cut : ascii) : list ascii :=
  TrimRight (TrimLeft s cut) cut.

End strings.

(** * Package regexp: matching by derivatives *)

Module regexp.

(** Regular expressions over bytes; [Class p] is a bracket expression such
    as [[a-zA-Z0-9]]. *)
Inductive regex : Type :=
| Void
| Eps
| Class (p : ascii -> bool)
| Cat (r1 r2 : regex)
| Alt (r1 r2 : regex)
| Star (r : regex).

Fixpoint nullable (r : regex) : bool :=
  match r with
  | Void => false
  | Eps => true
  | Class _ => false
  | Cat r1 r2 => nullable r1 && nullable r2
  | Alt r1 r2 => nullable r1 || nullable r2
  | Star _ => true
  end.

Fixpoint deriv (c : ascii) (r : regex) : regex :=
  match r with
  | Void => Void
  | Eps => Void
  | Class p => if p c then Eps else Void
  | Cat r1 r2 =>
      if nullable r1 then Alt (Cat (deriv c r1) r2) (deriv c r2)
      else Cat (deriv c r1) r2
  | Alt r1 r2 => Alt (deriv c r1) (deriv c r2)
  | Star r1 => Cat (deriv c r1) (Star r1)
  end.

Fixpoint matchList (r : regex) (s : list ascii) : bool :=
  match s with
  | [] => nullable r
  | c :: s' => matchList (deriv c r) s'
  end.

(** [Regexp.MatchString] for an expression anchored at both ends ([^...$]):
    the whole text has to match. *)
Definition MatchString (r : regex) (s : string) : bool :=
  matchList r (list_ascii_of_string s).

(** The language of an expression, as a relation. *)
Inductive matches : regex -> list ascii -> Prop :=
| MEps : matches Eps []
| MClass p c : p c = true -> matches (Class p) [c]
| MCat r1 r2 s1 s2 : matches r1 s1 -> matches r2 s2 -> matches (Cat r1 r2) (s1 ++ s2)
| MAltL r1 r2 s : matches r1 s -> matches (Alt r1 r2) s
| MAltR r1 r2 s : matches r2 s -> matches (Alt r1 r2) s
| MStar0 r : matches (Star r) []
| MStarS r s1 s2 : matches r s1 -> matches (Star r) s2 -> matches (Star r) (s1 ++ s2).

End regexp.

(** * Package model *)

Module model.

(** [type ConfigPattern string] with its four constants. *)
Definition ConfigPattern := string.
Definition PatternImage : ConfigPattern := "image".
Definition PatternDockerfile : ConfigPattern := "dockerfile".
Definition PatternComposeSingle : ConfigPattern := "compose-single".
Definition PatternComposeMulti : ConfigPattern := "compose-multi".

(** Exit codes carried by [CLIError]. *)
Inductive ExitCode : Type :=
| ExitSuccess
| ExitGeneralError
| ExitDevContainerNotFound
| ExitDockerNotRunning
| ExitPortAllocationFailed
| ExitGitError
| ExitEnvNotFound
| ExitUserCancelled.

Record PortAllocation : Type := mkPortAllocation {
  ServiceName : string;
  ContainerPort : Z;
  HostPort : Z;
  Protocol : string;
  Label : string
}.

Record PortSpec : Type := mkPortSpec {
  ps_ServiceName : string;
  ps_ContainerPort : Z;
  ps_HostPort : Z;
  ps_Protocol : string;
  ps_Label : string
}.

Record ContainerInfo : Type := mkContainerInfo {
  ContainerID : string;
  ContainerName : string;
  ci_ServiceName : string;
  ci_Status : string;
  Labels : gmap string string
}.

(** [WorktreeEnv]; [Status] and [Containers] are runtime data the label store
    never writes. The type of time stamps is a parameter: [time.Time] belongs
    to the Go library. *)
Record WorktreeEnv (Time : Type) : Type := mkWorktreeEnv {
  Name : string;
  Branch : string;
  WorktreePath : string;
  SourceRepoPath : string;
  Status : string;
  ConfigPatternOf : ConfigPattern;
  Containers : list ContainerInfo;
  PortAllocations : list PortAllocation;
  CreatedAt : Time
}.
Arguments mkWorktreeEnv {Time}.
Arguments Name {Time}.
Arguments Branch {Time}.
Arguments WorktreePath {Time}.
Arguments SourceRepoPath {Time}.
Arguments Status {Time}.
Arguments ConfigPatternOf {Time}.
Arguments Containers {Time}.
Arguments PortAllocations {Time}.
Arguments CreatedAt {Time}.

(** [ConfigPattern.IsValid]. *)
Definition IsValid (p : ConfigPattern) : bool :=
  String.eqb p PatternImage || String.eqb p PatternDockerfile
  || String.eqb p PatternComposeSingle || String.eqb p PatternComposeMulti.

(** [ConfigPattern.IsCompose]. *)
Definition IsCompose (p : ConfigPattern) : bool :=
  String.eqb p PatternComposeSingle || String.eqb p PatternComposeMulti.

(** [ParseConfigPattern]: lower-case, then accept the four constants. *)
Definition ParseConfigPattern (s : string) : option ConfigPattern :=
  let pattern := strings.ToLower s in
  if negb (IsValid pattern) then None else Some pattern.

Definition isAlnum (c : ascii) : bool :=
  ((Ascii.leb "a" c && Ascii.leb c "z")
   || (Ascii.leb "A" c && Ascii.leb c "Z")
   || (Ascii.leb "0" c && Ascii.leb c "9"))%char.

Definition isAlnumHyphen (c : ascii) : bool :=
  isAlnum c || Ascii.eqb c "-".

(** [nameRegex]:
    [^[a-zA-Z0-9][a-zA-Z0-9-]*[a-zA-Z0-9]$|^[a-zA-Z0-9]$]. *)
Definition nameRegex : regexp.regex :=
  regexp.Alt
    (regexp.Cat (regexp.Class isAlnum)
       (regexp.Cat (regexp.Star (regexp.Class isAlnumHyphen)) (regexp.Class isAlnum)))
    (regexp.Class isAlnum).

Inductive NameError : Type :=
| EmptyName
| InvalidName (name : string).

(** [ValidateName]; [None] is the nil error. *)
Definition ValidateName (name : string) : option NameError :=
  if String.eqb name "" then Some EmptyName
  else if negb (regexp.MatchString nameRegex name) then Some (InvalidName name)
  else None.

(** [CLIError]: an exit code with a message. *)
Record CLIError (Msg : Type) : Type := mkCLIError {
  Code : ExitCode;
  Message : Msg
}.
Arguments mkCLIError {Msg}.
Arguments Code {Msg}.
Arguments Message {Msg}.

End model.


(** * Package port *)

Module port.
Import model.

Definition portShiftMultiplier : Z := 10000.
Definition maxPort : Z := 65535.
Definition dynamicRangeStart : Z := 49152.
Definition dynamicRangeEnd : Z := 65535.
Definition maxWorktreeIndex : Z := 9.

(** The host's answer to a bind attempt, per protocol: what [net.Listen] and
    [net.ListenPacket] report for [":port"]. *)
Record Host : Type := mkHost {
  listen_tcp : Z -> bool;
  listen_udp : Z -> bool
}.

Inductive AllocError : Type :=
| IndexOutOfRange (worktreeIndex : Z)
| OverflowFallbackFailed (originalPort worktreeIndex : Z)
| InUseNoAlternative (hostPort originalPort : Z)
| BatchFailed (serviceName : string) (containerPort : Z) (cause : AllocError).

Section Allocator.

Variable os : Host.

(** [Scanner.IsPortAvailable]: a switch on the protocol, any protocol other
    than tcp and udp is unavailable. *)
Definition IsPortAvailable (port : Z) (protocol : string) : bool :=
  if String.eqb protocol "tcp" then listen_tcp os port
  else if String.eqb protocol "udp" then listen_udp os port
  else false.

(** The clause [alloc.HostPort == port && alloc.Protocol == protocol]. *)
Definition samePort (port : Z) (protocol : string) (alloc : PortAllocation) : bool :=
  (HostPort alloc =? port) && String.eqb (Protocol alloc) protocol.

(** [Allocator.isPortAvailableForAllocation]; the receiver's
    [existingAllocations] field is the first argument. *)
Definition isPortAvailableForAllocation
    (existingAllocations : list PortAllocation) (port : Z) (protocol : string) : bool :=
  if existsb (samePort port protocol) existingAllocations then false
  else IsPortAvailable port protocol.

(** The loop [for p := startPort; p <= endPort; p++] that returns the first
    port passing the check. *)
Definition firstAvailable
    (existingAllocations : list PortAllocation) (startPort endPort : Z)
    (protocol : string) : option Z :=
  List.find (fun p => isPortAvailableForAllocation existingAllocations p protocol)
            (seqZ startPort (endPort - startPort + 1)).

(** [Allocator.findAvailablePortExcludingExisting]. *)
Definition findAvailablePortExcludingExisting
    (existingAllocations : list PortAllocation) (startPort endPort : Z)
    (protocol : string) : option Z :=
  firstAvailable existingAllocations startPort endPort protocol.

(** The end of the block scanned after a conflict at [hostPort]:
    [blockEnd := hostPort + portShiftMultiplier - 1], capped at [maxPort]. *)
Definition blockEnd (hostPort : Z) : Z :=
  if hostPort + portShiftMultiplier - 1 >? maxPort then maxPort
  else hostPort + portShiftMultiplier - 1.

(** The block scan of [AllocatePort]: candidates [blockStart + 1 .. blockEnd]
    in increasing order, stopping at the first available one. *)
Definition blockScan
    (existingAllocations : list PortAllocation) (hostPort : Z)
    (protocol : string) : option Z :=
  firstAvailable existingAllocations (hostPort + 1) (blockEnd hostPort) protocol.

(** The shifted candidate: the original port at index 0, otherwise
    [originalPort + worktreeIndex * portShiftMultiplier] in 64-bit arithmetic. *)
Definition shiftCandidate (originalPort worktreeIndex : Z) : Z :=
  if worktreeIndex =? 0 then originalPort
  else int_wrap (originalPort + worktreeIndex * portShiftMultiplier).

Definition defaultProtocol (protocol : string) : string :=
  if String.eqb protocol "" then "tcp" else protocol.

(** [Allocator.AllocatePort]. *)
Definition AllocatePort
    (existingAllocations : list PortAllocation)
    (originalPort worktreeIndex : Z) (serviceName protocol : string)
    : result AllocError PortAllocation :=
  if (worktreeIndex <? 0) || (worktreeIndex >? maxWorktreeIndex) then
    Err (IndexOutOfRange worktreeIndex)
  else
    let protocol := defaultProtocol protocol in
    let hostPort := shiftCandidate originalPort worktreeIndex in
    let chosen : result AllocError Z :=
      if hostPort >? maxPort then
        match findAvailablePortExcludingExisting existingAllocations
                dynamicRangeStart dynamicRangeEnd protocol with
        | Some fallbackPort => Ok fallbackPort
        | None => Err (OverflowFallbackFailed originalPort worktreeIndex)
        end
      else if negb (isPortAvailableForAllocation existingAllocations hostPort protocol) then
        match blockScan existingAllocations hostPort protocol with
        | Some candidate => Ok candidate
        | None =>
            match findAvailablePortExcludingExisting existingAllocations
                    dynamicRangeStart dynamicRangeEnd protocol with
            | Some fallbackPort => Ok fallbackPort
            | None => Err (InUseNoAlternative hostPort originalPort)
            end
        end
      else Ok hostPort in
    match chosen with
    | Ok hostPort =>
        Ok {| ServiceName := serviceName;
              ContainerPort := originalPort;
              HostPort := hostPort;
              Protocol := protocol;
              Label := "" |}
    | Err e => Err e
    end.

Definition withLabel (alloc : PortAllocation) (label : string) : PortAllocation :=
  {| ServiceName := ServiceName alloc;
     ContainerPort := ContainerPort alloc;
     HostPort := HostPort alloc;
     Protocol := Protocol alloc;
     Label := label |}.

(** The body of [Allocator.AllocatePorts]: the loop over the batch threads the
    receiver's [existingAllocations] (grown by every allocation made) and the
    [allocations] built so far. The result pairs the returned value with the
    final [existingAllocations] of the receiver. *)
Fixpoint allocateLoop
    (existingAllocations allocations : list PortAllocation)
    (ports : list PortSpec) (worktreeIndex : Z)
    : result AllocError (list PortAllocation) * list PortAllocation :=
  match ports with
  | [] => (Ok allocations, existingAllocations)
  | ps :: rest =>
      let proto := defaultProtocol (ps_Protocol ps) in
      match AllocatePort existingAllocations (ps_ContainerPort ps) worktreeIndex
                         (ps_ServiceName ps) proto with
      | Err e =>
          (Err (BatchFailed (ps_ServiceName ps) (ps_ContainerPort ps) e),
           existingAllocations)
      | Ok alloc =>
          let alloc := withLabel alloc (ps_Label ps) in
          allocateLoop (existingAllocations ++ [alloc]) (allocations ++ [alloc])
                       rest worktreeIndex
      end
  end.

(** [Allocator.AllocatePorts]. *)
Definition AllocatePorts
    (existingAllocations : list PortAllocation)
    (ports : list PortSpec) (worktreeIndex : Z)
    : result AllocError (list PortAllocation) :=
  fst (allocateLoop existingAllocations [] ports worktreeIndex).

End Allocator.

End port.

(** * Package docker: the label store *)

Module docker.
Import model.

Definition LabelPrefix : string := "worktree.".
Definition LabelManagedBy : string := LabelPrefix +:+ "managed-by".
Definition LabelName : string := LabelPrefix +:+ "name".
Definition LabelBranch : string := LabelPrefix +:+ "branch".
Definition LabelWorktreePath : string := LabelPrefix +:+ "worktree-path".
Definition LabelSourceRepo : string := LabelPrefix +:+ "source-repo".
Definition LabelOriginalPortPrefix : string := LabelPrefix +:+ "original-port.".
Definition LabelConfigPattern : string := LabelPrefix +:+ "config-pattern".
Definition LabelCreatedAt : string := LabelPrefix +:+ "created-at".

Definition ManagedByValue : string := "worktree-container".

(** [BuildPortLabel]: ["worktree.original-port.<containerPort>"]. *)
Definition BuildPortLabel (containerPort : Z) : string :=
  LabelOriginalPortPrefix +:+ strconv.Itoa containerPort.

(** [labels[key]] on a Go map: the empty string when the key is absent. *)
Definition at_key (labels : gmap string string) (key : string) : string :=
  default "" (labels !! key).

Inductive LabelError : Type :=
| MissingLabels (missing : list string)
| UnexpectedManagedBy (value : string)
| InvalidConfigPattern (value : string)
| InvalidCreatedAt (value : string)
| InvalidContainerPort (key : string)
| InvalidHostPort (key value : string)
| PortLabelsFailed (cause : LabelError).

(** The loop of [ParsePortLabels] over the entries of the map, in the order
    the iteration visits them. *)
Fixpoint parsePortEntries
    (entries : list (string * string)) (allocations : list PortAllocation)
    : result LabelError (list PortAllocation) :=
  match entries with
  | [] => Ok allocations
  | (key, value) :: rest =>
      match strings.CutPrefix key LabelOriginalPortPrefix with
      | None => parsePortEntries rest allocations
      | Some portStr =>
          match strconv.Atoi portStr with
          | None => Err (InvalidContainerPort key)
          | Some containerPort =>
              match strconv.Atoi value with
              | None => Err (InvalidHostPort key value)
              | Some hostPort =>
                  parsePortEntries rest
                    (allocations ++
                       [ {| ServiceName := "";
                            ContainerPort := containerPort;
                            HostPort := hostPort;
                            Protocol := "tcp";
                            Label := "" |} ])
              end
          end
      end
  end.

(** [ParsePortLabels]. *)
Definition ParsePortLabels (labels : gmap string string)
    : result LabelError (list PortAllocation) :=
  parsePortEntries (map_to_list labels) [].

(** [GroupContainersByEnv]: containers without a non-empty [worktree.name]
    label are skipped. *)
Definition GroupContainersByEnv (containers : list ContainerInfo)
    : gmap string (list ContainerInfo) :=
  foldl (fun (groups : gmap string (list ContainerInfo)) c =>
           match Labels c !! LabelName with
           | Some envName =>
               if String.eqb envName "" then groups
               else <[envName := default [] (groups !! envName) ++ [c]]> groups
           | None => groups
           end)
        ∅ containers.

Section Labels.

(** [time.Time], [t.UTC().Format(time.RFC3339)] and
    [time.Parse(time.RFC3339, s)] of the Go library. *)
Context {Time : Type}.
Variable formatRFC3339 : Time -> string.
Variable parseRFC3339 : string -> option Time.

(** [BuildLabels]: the seven base labels of the map literal, then one
    assignment [labels[key] = value] per port allocation. *)
Definition BuildLabels (env : WorktreeEnv Time) : gmap string string :=
  let labels : gmap string string :=
    <[LabelCreatedAt := formatRFC3339 (CreatedAt env)]>
    (<[LabelConfigPattern := ConfigPatternOf env]>
    (<[LabelSourceRepo := SourceRepoPath env]>
    (<[LabelWorktreePath := WorktreePath env]>
    (<[LabelBranch := Branch env]>
    (<[LabelName := Name env]>
    (<[LabelManagedBy := ManagedByValue]> ∅)))))) in
  foldl (fun (labels : gmap string string) pa =>
           <[BuildPortLabel (ContainerPort pa) := strconv.Itoa (HostPort pa)]> labels)
        labels (PortAllocations env).

Definition requiredKeys : list string :=
  [LabelManagedBy; LabelName; LabelBranch; LabelWorktreePath; LabelSourceRepo;
   LabelConfigPattern; LabelCreatedAt].

(** [ParseLabels]. [Status] and [Containers] keep their zero values. *)
Definition ParseLabels (labels : gmap string string)
    : result LabelError (WorktreeEnv Time) :=
  let missing :=
    List.filter (fun key => match labels !! key with Some _ => false | None => true end)
                requiredKeys in
  if (0 <? Z.of_nat (length missing)) then Err (MissingLabels missing)
  else if negb (String.eqb (at_key labels LabelManagedBy) ManagedByValue) then
    Err (UnexpectedManagedBy (at_key labels LabelManagedBy))
  else
    match ParseConfigPattern (at_key labels LabelConfigPattern) with
    | None => Err (InvalidConfigPattern (at_key labels LabelConfigPattern))
    | Some pattern =>
        match parseRFC3339 (at_key labels LabelCreatedAt) with
        | None => Err (InvalidCreatedAt (at_key labels LabelCreatedAt))
        | Some createdAt =>
            match ParsePortLabels labels with
            | Err e => Err (PortLabelsFailed e)
            | Ok ports =>
                Ok {| Name := at_key labels LabelName;
                      Branch := at_key labels LabelBranch;
                      WorktreePath := at_key labels LabelWorktreePath;
                      SourceRepoPath := at_key labels LabelSourceRepo;
                      Status := "";
                      ConfigPatternOf := pattern;
                      Containers := [];
                      PortAllocations := ports;
                      CreatedAt := createdAt |}
            end
        end
    end.

End Labels.

End docker.

(** * Package devcontainer: configuration analysis and rewriting *)

Module devcontainer.
Import model.

(** What [encoding/json] decodes into an [interface{}]: [nil], [bool],
    [float64] (a finite double, kept as the rational it denotes), [string],
    [[]interface{}] and [map[string]interface{}]. *)
Inductive JSON : Type :=
| JNull
| JBool (b : bool)
| JNumber (q : Q)
| JString (s : string)
| JArray (items : list JSON)
| JObject (fields : gmap string JSON).

Record BuildConfig : Type := mkBuildConfig {
  Dockerfile : string;
  Context : string;
  Args : gmap string string
}.

(** [RawDevContainer]: the fields that pattern detection reads.
    [DockerComposeFile] is an [interface{}]: [None] is the nil interface
    (key absent or JSON null). *)
Record RawDevContainer : Type := mkRawDevContainer {
  raw_Name : string;
  Image : string;
  Build : option BuildConfig;
  DockerComposeFile : option JSON;
  Service : string;
  RunServices : list string;
  WorkspaceFolder : string
}.

(** [DetectPattern]. *)
Definition DetectPattern (raw : RawDevContainer) (composeServiceCount : Z)
    : ConfigPattern :=
  match DockerComposeFile raw with
  | Some _ =>
      if composeServiceCount >=? 2 then PatternComposeMulti
      else PatternComposeSingle
  | None =>
      match Build raw with
      | Some _ => PatternDockerfile
      | None => PatternImage
      end
  end.

(** [GetComposeFiles]: a string gives one file, an array gives its string
    elements, anything else gives nil. *)
Definition GetComposeFiles (raw : RawDevContainer) : list string :=
  match DockerComposeFile raw with
  | None => []
  | Some (JString v) => [v]
  | Some (JArray v) =>
      omap (fun item => match item with JString s => Some s | _ => None end) v
  | Some _ => []
  end.

(** [sort.Strings]: increasing byte-wise order. *)
Definition sortStrings (l : list string) : list string :=
  merge_sort (fun a b => Is_true (String.leb a b)) l.

(** [applyRunArgsLabels]. [var runArgs []interface{}] is a nil slice
    ([None]) unless the configuration has an array under [runArgs]; every
    [append] makes it a slice with elements. A slice that is still nil when
    it is stored is what [json.MarshalIndent] writes as [null], so it is
    kept as [JNull] in the map that is serialized. *)
Definition applyRunArgsLabels
    (configMap : gmap string JSON) (labels : gmap string string)
    : gmap string JSON :=
  let runArgs : option (list JSON) :=
    match configMap !! "runArgs" with
    | Some (JArray arr) => Some arr
    | _ => None
    end in
  let keys := sortStrings (List.map fst (map_to_list labels)) in
  let runArgs :=
    foldl (fun (acc : option (list JSON)) key =>
             Some (default [] acc
                     ++ [JString "--label";
                         JString (key +:+ "=" +:+ default "" (labels !! key))]))
          runArgs keys in
  <["runArgs" := match runArgs with
                 | Some arr => JArray arr
                 | None => JNull
                 end]> configMap.

(** [fmt.Sprintf("%d:%d", pa.HostPort, pa.ContainerPort)]. *)
Definition portMappingString (pa : PortAllocation) : string :=
  strconv.Itoa (HostPort pa) +:+ ":" +:+ strconv.Itoa (ContainerPort pa).

(** [applyAppPortShift]. *)
Definition applyAppPortShift
    (configMap : gmap string JSON) (portAllocations : list PortAllocation)
    : gmap string JSON :=
  if (Z.of_nat (length portAllocations) =? 0) then delete "appPort" configMap
  else
    let appPorts :=
      foldl (fun acc pa => acc ++ [JString (portMappingString pa)])
            [] portAllocations in
    <["appPort" := JArray appPorts]> configMap.

(** [applyPortsAttributesShift]; the old attributes are visited in the
    order of [map_to_list]. *)
Definition applyPortsAttributesShift
    (configMap : gmap string JSON) (portAllocations : list PortAllocation)
    : gmap string JSON :=
  match configMap !! "portsAttributes" with
  | Some (JObject oldAttrs) =>
      let portMapping : gmap string Z :=
        foldl (fun (m : gmap string Z) pa =>
                 <[strconv.Itoa (ContainerPort pa) := HostPort pa]> m)
              ∅ portAllocations in
      let newAttrs : gmap string JSON :=
        foldl (fun (m : gmap string JSON) (kv : string * JSON) =>
                 match portMapping !! kv.1 with
                 | Some hostPort => <[strconv.Itoa hostPort := kv.2]> m
                 | None => <[kv.1 := kv.2]> m
                 end)
              ∅ (map_to_list oldAttrs) in
      <["portsAttributes" := JObject newAttrs]> configMap
  | _ => configMap
  end.

(** [applyContainerEnv]. *)
Definition applyContainerEnv
    (configMap : gmap string JSON) (envName : string) (worktreeIndex : Z)
    : gmap string JSON :=
  let envMap : gmap string JSON :=
    match configMap !! "containerEnv" with
    | Some (JObject m) => m
    | _ => ∅
    end in
  let envMap := <["WORKTREE_NAME" := JString envName]> envMap in
  let envMap := <["WORKTREE_INDEX" := JString (strconv.Itoa worktreeIndex)]> envMap in
  <["containerEnv" := JObject envMap]> configMap.

Inductive RewriteError : Type :=
| ParseFailed
| NilMapAssignment.

(** [RewriteConfig], from the decoded document to the map that is
    serialized. [json.Unmarshal] into a [map[string]interface{}] accepts an
    object, leaves the map nil on [null] (the first assignment then panics)
    and rejects every other value. *)
Definition RewriteConfig
    (document : JSON) (envName : string) (worktreeIndex : Z)
    (portAllocations : list PortAllocation) (labels : gmap string string)
    : result RewriteError (gmap string JSON) :=
  match document with
  | JObject configMap =>
      let configMap := <["name" := JString envName]> configMap in
      let configMap := applyRunArgsLabels configMap labels in
      let configMap := applyAppPortShift configMap portAllocations in
      let configMap := applyPortsAttributesShift configMap portAllocations in
      let configMap := applyContainerEnv configMap envName worktreeIndex in
      Ok configMap
  | JNull => Err NilMapAssignment
  | _ => Err ParseFailed
  end.

End devcontainer.

(** * Package cli: the create and start commands *)

Module cli.
Import model.

(** The test of the filtering loop of [sanitizeBranchName]. The loop ranges
    over runes; a byte below 0x80 is always a rune of its own and a byte
    from 0x80 on never decodes to an ASCII rune, so the loop keeps exactly
    the bytes that pass this test. *)
Definition keepRune (r : ascii) : bool :=
  ((Ascii.leb "a" r && Ascii.leb r "z")
   || (Ascii.leb "A" r && Ascii.leb r "Z")
   || (Ascii.leb "0" r && Ascii.leb r "9")
   || Ascii.eqb r "-")%char.

(** [sanitizeBranchName]. *)
Definition sanitizeBranchName (branch : string) : string :=
  let name := strings.ReplaceAll (list_ascii_of_string branch) "/" "-" in
  let name := strings.ReplaceAll name "_" "-" in
  let name := List.filter keepRune name in
  let name := strings.Trim name "-" in
  match name with
  | [] => "worktree"
  | _ => string_of_list_ascii name
  end.

Inductive CreateMsg : Type :=
| InvalidEnvironmentName (cause : NameError)
| PortAllocationFailed (cause : port.AllocError).

(** Step 2 of [runCreate]: the [--name] flag, or else the sanitized branch
    name, then [ValidateName]. *)
Definition resolveEnvName (flagName branchName : string)
    : result (CLIError CreateMsg) string :=
  let envName :=
    if String.eqb flagName "" then sanitizeBranchName branchName else flagName in
  match ValidateName envName with
  | Some validateErr =>
      Err (mkCLIError ExitGeneralError (InvalidEnvironmentName validateErr))
  | None => Ok envName
  end.

(** [countComposeServices]. *)
Definition countComposeServices (raw : devcontainer.RawDevContainer) : Z :=
  if 0 <? Z.of_nat (length (devcontainer.RunServices raw)) then
    Z.of_nat (length (devcontainer.RunServices raw))
  else if negb (String.eqb (devcontainer.Service raw) "") then 1
  else 0.

(** Step 6 of [runCreate]: the service count is taken only when
    [GetComposeFiles] is not empty, then the pattern is detected. *)
Definition createDetectPattern (raw : devcontainer.RawDevContainer) : ConfigPattern :=
  let composeServiceCount :=
    if 0 <? Z.of_nat (length (devcontainer.GetComposeFiles raw)) then
      countComposeServices raw
    else 0 in
  devcontainer.DetectPattern raw composeServiceCount.

(** What [docker.NewClient] followed by [docker.ListManagedContainers]
    gives: the managed containers, or an error. *)
Inductive DockerError : Type :=
| ClientFailed
| ListFailed.

Inductive IndexError : Type :=
| DockerFailed (cause : DockerError)
| MaximumReached (currently : Z).

(** [determineWorktreeIndex]: both results of the Go function. *)
Definition determineWorktreeIndex
    (listing : result DockerError (list ContainerInfo)) : Z * option IndexError :=
  match listing with
  | Err e => (1, Some (DockerFailed e))
  | Ok containers =>
      let groups := docker.GroupContainersByEnv containers in
      let index := Z.of_nat (size groups) + 1 in
      if index >? 9 then (0, Some (MaximumReached (Z.of_nat (size groups))))
      else (index, None)
  end.

(** [loadExistingAllocations]: containers whose port labels do not parse are
    skipped. *)
Definition loadExistingAllocations
    (listing : result DockerError (list ContainerInfo))
    : result DockerError (list PortAllocation) :=
  match listing with
  | Err e => Err e
  | Ok containers =>
      Ok (foldl (fun allocs c =>
                   match docker.ParsePortLabels (Labels c) with
                   | Err _ => allocs
                   | Ok portAllocs => allocs ++ portAllocs
                   end)
                [] containers)
  end.

(** Steps 7 to 9 of [runCreate], from the worktree index to the batch
    allocation: an error of [determineWorktreeIndex] is logged and replaced
    by index 1; an error of [loadExistingAllocations] leaves the allocator
    without known allocations. The result is the index used and the
    allocations made. *)
Definition createAllocate
    (os : port.Host) (listing : result DockerError (list ContainerInfo))
    (originalPorts : list PortSpec)
    : result (CLIError CreateMsg) (Z * list PortAllocation) :=
  let '(index, err) := determineWorktreeIndex listing in
  let worktreeIndex := match err with Some _ => 1 | None => index end in
  let existingAllocations :=
    match loadExistingAllocations listing with
    | Err _ => []
    | Ok existingAllocs => existingAllocs
    end in
  match port.AllocatePorts os existingAllocations originalPorts worktreeIndex with
  | Err e => Err (mkCLIError ExitPortAllocationFailed (PortAllocationFailed e))
  | Ok portAllocations => Ok (worktreeIndex, portAllocations)
  end.

(** The container-launching actions of [runStart], in the order performed. *)
Inductive Action : Type :=
| ActComposeUp (projectDir projectName : string)
| ActStartContainer (containerID : string).

(** The daemon's answers: whether [docker.ComposeUp] and
    [docker.StartContainer] succeed. *)
Record Daemon : Type := mkDaemon {
  composeUpOk : string -> string -> bool;
  startContainerOk : string -> bool
}.

Inductive StartMsg : Type :=
| LookupFailed
| PortConflict (conflictingPorts : list Z)
| StartEnvironmentFailed (envName : string)
| StartContainerFailed (containerName : string).

Section Start.

Context {Time : Type}.
Variable os : port.Host.
Variable daemon : Daemon.

(** Step 3 of [runStart]: the host ports that fail the bind test. *)
Definition conflictingPortsOf (env : WorktreeEnv Time) : list Z :=
  foldl (fun conflictingPorts pa =>
           if negb (port.IsPortAvailable os (HostPort pa) (Protocol pa))
           then conflictingPorts ++ [HostPort pa]
           else conflictingPorts)
        [] (PortAllocations env).

(** The loop of step 4 for patterns A and B: stop at the first failure. *)
Fixpoint startEach (containers : list ContainerInfo)
    : list Action * option (CLIError StartMsg) :=
  match containers with
  | [] => ([], None)
  | c :: rest =>
      if startContainerOk daemon (ContainerID c) then
        let '(actions, err) := startEach rest in
        (ActStartContainer (ContainerID c) :: actions, err)
      else
        ([ActStartContainer (ContainerID c)],
         Some (mkCLIError ExitGeneralError (StartContainerFailed (ContainerName c))))
  end.

(** [runStart] after the Docker client is connected; [found] is the result
    of [findEnvironment]. The result is the launching actions performed and
    the error returned ([None] for nil). *)
Definition runStart
    (found : result (CLIError StartMsg) (WorktreeEnv Time * list ContainerInfo))
    (envName : string)
    : list Action * option (CLIError StartMsg) :=
  match found with
  | Err e => ([], Some e)
  | Ok (env, containers) =>
      let conflictingPorts := conflictingPortsOf env in
      if 0 <? Z.of_nat (length conflictingPorts) then
        ([], Some (mkCLIError ExitPortAllocationFailed (PortConflict conflictingPorts)))
      else if IsCompose (ConfigPatternOf env) then
        let devcontainerDir := WorktreePath env +:+ "/.devcontainer" in
        if composeUpOk daemon devcontainerDir envName then
          ([ActComposeUp devcontainerDir envName], None)
        else
          ([ActComposeUp devcontainerDir envName],
           Some (mkCLIError ExitGeneralError (StartEnvironmentFailed envName)))
      else startEach containers
  end.

End Start.

End cli.

(** * Verification of the port allocator *)

Lemma int_wrap_id z : is_int z -> int_wrap z = z.
Proof.
  unfold is_int, int_wrap, int_min, int_max. intros H.
  rewrite Z.mod_small by lia. lia.
Qed.

Module port_facts.
Import model port.

Section Facts.
Variable os : Host.

Lemma find_seqZ_nat (f : Z -> bool) (k : nat) : forall a p,
  List.find f (seqZ a (Z.of_nat k)) = Some p ->
  a <= p < a + Z.of_nat k /\ f p = true /\ forall q, a <= q < p -> f q = false.
Proof.
  induction k as [|k IH]; intros a p.
  - simpl. discriminate.
  - rewrite seqZ_cons by lia. simpl.
    replace (Z.pred (Z.of_nat (S k))) with (Z.of_nat k) by lia.
    destruct (f a) eqn:Hfa.
    + intros [= <-]. split; [lia|]. split; [exact Hfa|]. intros q Hq. lia.
    + intros Hfind. apply IH in Hfind as (Hr & Hp & Hfirst).
      repeat split; try lia; auto.
      intros q Hq. destruct (Z.eq_dec q a) as [->|Hne]; auto.
      apply Hfirst. lia.
Qed.

Lemma find_seqZ_none_nat (f : Z -> bool) (k : nat) : forall a,
  List.find f (seqZ a (Z.of_nat k)) = None ->
  forall q, a <= q < a + Z.of_nat k -> f q = false.
Proof.
  induction k as [|k IH]; intros a.
  - intros _ q Hq. lia.
  - rewrite seqZ_cons by lia. simpl.
    replace (Z.pred (Z.of_nat (S k))) with (Z.of_nat k) by lia.
    destruct (f a) eqn:Hfa; [discriminate|].
    intros Hfind q Hq. destruct (Z.eq_dec q a) as [->|Hne]; auto.
    apply (IH _ Hfind). lia.
Qed.

Lemma firstAvailable_Some ex a b proto p :
  firstAvailable os ex a b proto = Some p ->
  a <= p <= b
  /\ isPortAvailableForAllocation os ex p proto = true
  /\ forall q, a <= q < p -> isPortAvailableForAllocation os ex q proto = false.
Proof.
  unfold firstAvailable. intros H.
  destruct (Z_le_gt_dec (b - a + 1) 0) as [Hle|Hgt].
  - rewrite seqZ_nil in H by lia. discriminate.
  - rewrite <- (Z2Nat.id (b - a + 1)) in H by lia.
    apply find_seqZ_nat in H as (Hr & Hp & Hfirst).
    rewrite Z2Nat.id in Hr by lia. repeat split; auto; lia.
Qed.

Lemma firstAvailable_None ex a b proto :
  firstAvailable os ex a b proto = None ->
  forall q, a <= q <= b -> isPortAvailableForAllocation os ex q proto = false.
Proof.
  unfold firstAvailable. intros H q Hq.
  rewrite <- (Z2Nat.id (b - a + 1)) in H by lia.
  apply (find_seqZ_none_nat _ _ _ H). rewrite Z2Nat.id by lia. lia.
Qed.

Lemma blockEnd_spec hostPort :
  blockEnd hostPort = Z.min (hostPort + 9999) 65535.
Proof.
  unfold blockEnd, portShiftMultiplier, maxPort.
  destruct (Z.gtb_spec (hostPort + 10000 - 1) 65535); lia.
Qed.

(** An available port is a tcp or udp port outside the known allocations. *)
Lemma available_inv ex p proto :
  isPortAvailableForAllocation os ex p proto = true ->
  existsb (samePort p proto) ex = false /\ (proto = "tcp" \/ proto = "udp").
Proof.
  unfold isPortAvailableForAllocation, IsPortAvailable.
  destruct (existsb _ ex); [discriminate|].
  destruct (String.eqb_spec proto "tcp"); [auto|].
  destruct (String.eqb_spec proto "udp"); [auto|discriminate].
Qed.

(** Every successful [AllocatePort] returns the request's names with a port
    that passed the availability check. *)
Lemma AllocatePort_Ok ex orig idx svc proto a :
  AllocatePort os ex orig idx svc proto = Ok a ->
  0 <= idx <= 9
  /\ ServiceName a = svc /\ ContainerPort a = orig
  /\ Protocol a = defaultProtocol proto /\ Label a = ""
  /\ isPortAvailableForAllocation os ex (HostPort a) (Protocol a) = true
  /\ HostPort a <= 65535
  /\ (Z.min (shiftCandidate orig idx) 49152 <= HostPort a).
Proof.
  unfold AllocatePort, maxWorktreeIndex, findAvailablePortExcludingExisting, blockScan.
  destruct (Z.ltb_spec idx 0); simpl; [discriminate|].
  destruct (Z.gtb_spec idx 9); simpl; [discriminate|].
  set (pr := defaultProtocol proto). set (cand := shiftCandidate orig idx).
  unfold maxPort, dynamicRangeStart, dynamicRangeEnd.
  destruct (Z.gtb_spec cand 65535).
  - destruct (firstAvailable os ex 49152 65535 pr) as [p|] eqn:Hf; [|discriminate].
    intros [= <-]; simpl. apply firstAvailable_Some in Hf as (? & ? & _).
    repeat split; auto; lia.
  - destruct (isPortAvailableForAllocation os ex cand pr) eqn:Hav; simpl.
    + intros [= <-]; simpl. repeat split; auto; lia.
    + destruct (firstAvailable os ex (cand + 1) (blockEnd cand) pr) as [p|] eqn:Hb.
      * intros [= <-]; simpl. apply firstAvailable_Some in Hb as (? & ? & _).
        rewrite blockEnd_spec in *. repeat split; auto; lia.
      * destruct (firstAvailable os ex 49152 65535 pr) as [p|] eqn:Hf; [|discriminate].
        intros [= <-]; simpl. apply firstAvailable_Some in Hf as (? & ? & _).
        repeat split; auto; lia.
Qed.

End Facts.
End port_facts.

Module port_examples.
Import model port.

(** The key under which two allocations collide. *)
Definition portKey (a : PortAllocation) : Z * string := (HostPort a, Protocol a).

(** A bind can only succeed on a port number of 16 bits. *)
Definition validPort (p : Z) : bool := (0 <=? p) && (p <=? 65535).

(** An idle machine and a privileged user: every bind on a valid port
    succeeds, the ports below 1024 included. *)
Definition idleHost : Host := mkHost validPort validPort.

(** A host on which tcp port 13000 is taken and every other bind on a valid
    port succeeds. *)
Definition busy13000 : Host :=
  mkHost (fun p => validPort p && negb (p =? 13000)) validPort.

(** A host on which the tcp ports 13000..19999, from the shifted port of
    3000 at index 1 to the end of the band of index 1, are taken. *)
Definition busyTo19999 : Host :=
  mkHost (fun p => validPort p && negb ((13000 <=? p) && (p <=? 19999))) validPort.

Definition twoServices : list PortSpec :=
  [mkPortSpec "web" 3000 0 "" "Application"; mkPortSpec "api" 3000 0 "tcp" "API"].

End port_examples.

Module port_proofs.
Import model port port_facts port_examples.

Lemma defaultProtocol_idem p : defaultProtocol (defaultProtocol p) = defaultProtocol p.
Proof.
  unfold defaultProtocol. destruct (String.eqb_spec p ""); [reflexivity|].
  destruct (String.eqb_spec p ""); congruence.
Qed.

Lemma shiftCandidate_exact orig idx :
  is_int orig -> 0 <= idx ->
  (if idx =? 0 then orig else orig + idx * portShiftMultiplier) <= maxPort ->
  shiftCandidate orig idx = (if idx =? 0 then orig else orig + idx * portShiftMultiplier).
Proof.
  unfold shiftCandidate, portShiftMultiplier, maxPort, is_int, int_min, int_max.
  intros Hint Hidx. destruct (Z.eqb_spec idx 0); [reflexivity|].
  intros Hle. apply int_wrap_id. unfold is_int, int_min, int_max. lia.
Qed.

Lemma not_known_iff ex p proto :
  existsb (samePort p proto) ex = false <-> ~ In (p, proto) (List.map portKey ex).
Proof.
  induction ex as [|e ex IH]; simpl.
  - tauto.
  - rewrite orb_false_iff, IH. unfold samePort at 1, portKey at 1.
    destruct (Z.eqb_spec (HostPort e) p) as [Hp|Hp];
      destruct (String.eqb_spec (Protocol e) proto) as [Hq|Hq]; simpl.
    + split; [intros [? _]; discriminate|]. intros Hn. exfalso. apply Hn.
      left. unfold portKey. congruence.
    + split; [|tauto]. intros [_ Hr] [Hk|Hk]; [unfold portKey in Hk; congruence|tauto].
    + split; [|tauto]. intros [_ Hr] [Hk|Hk]; [unfold portKey in Hk; congruence|tauto].
    + split; [|tauto]. intros [_ Hr] [Hk|Hk]; [unfold portKey in Hk; congruence|tauto].
Qed.

(** What one successful element of a batch satisfies. *)
Definition allocatedFor (idx : Z) (s : PortSpec) (r : PortAllocation) : Prop :=
  ServiceName r = ps_ServiceName s
  /\ ContainerPort r = ps_ContainerPort s
  /\ Label r = ps_Label s
  /\ Protocol r = defaultProtocol (ps_Protocol s)
  /\ (Protocol r = "tcp" \/ Protocol r = "udp")
  /\ HostPort r <= maxPort
  /\ Z.min (shiftCandidate (ps_ContainerPort s) idx) dynamicRangeStart <= HostPort r.

Lemma allocateLoop_Ok os idx ports : forall ex allocs res ex',
  allocateLoop os ex allocs ports idx = (Ok res, ex') ->
  exists new,
    res = allocs ++ new /\ ex' = ex ++ new
    /\ NoDup (List.map portKey new)
    /\ (forall a, In a new -> ~ In (portKey a) (List.map portKey ex))
    /\ Forall2 (allocatedFor idx) ports new
    /\ (ports <> [] -> 0 <= idx <= maxWorktreeIndex).
Proof.
  induction ports as [|ps rest IH]; intros ex allocs res ex'; simpl.
  - intros [= <- <-]. exists []. rewrite !app_nil_r.
    repeat split; auto using List.NoDup_nil; try constructor; congruence.
  - destruct (AllocatePort os ex (ps_ContainerPort ps) idx (ps_ServiceName ps)
                (defaultProtocol (ps_Protocol ps))) as [alloc|e] eqn:Halloc;
      [|discriminate].
    apply AllocatePort_Ok in Halloc
      as (Hidx & Hsvc & Hcp & Hproto & Hlabel & Hav & Hmax & Hmin).
    rewrite defaultProtocol_idem in Hproto.
    apply available_inv in Hav as [Hfresh Htu].
    apply not_known_iff in Hfresh.
    intros Hloop. apply IH in Hloop as (new & -> & -> & Hnd & Hnotin & Hall & _).
    set (alloc' := withLabel alloc (ps_Label ps)) in *.
    assert (Hkey : portKey alloc' = (HostPort alloc, Protocol alloc)) by reflexivity.
    exists (alloc' :: new). rewrite <- !app_assoc. simpl.
    repeat split; auto.
    + apply List.NoDup_cons; auto. intros Hin.
      apply in_map_iff in Hin as (a & Hka & Ha).
      apply (Hnotin a Ha). rewrite map_app, in_app_iff. right. simpl. left.
      congruence.
    + intros a [<-|Ha].
      * rewrite Hkey. exact Hfresh.
      * intros Hin. apply (Hnotin a Ha). rewrite map_app, in_app_iff. auto.
    + constructor; auto. unfold allocatedFor. simpl.
      unfold maxPort, dynamicRangeStart. repeat split; auto.
    + unfold maxWorktreeIndex; lia.
    + unfold maxWorktreeIndex; lia.
Qed.

End port_proofs.

Module port_claims.
Import model port port_facts port_examples port_proofs.

(** The scan as the code runs it: when the shift candidate is in range but
    not available, the ports from candidate+1 up to [blockEnd]
    (candidate+9999, capped at 65535) are tried in order and [AllocatePort]
    takes the first available one; when none of them is available the
    result comes from the dynamic range. *)
Theorem block_scan_first_in_block os ex orig idx svc proto :
  0 <= idx <= maxWorktreeIndex ->
  shiftCandidate orig idx <= maxPort ->
  isPortAvailableForAllocation os ex (shiftCandidate orig idx)
    (defaultProtocol proto) = false ->
  match blockScan os ex (shiftCandidate orig idx) (defaultProtocol proto) with
  | Some p =>
      AllocatePort os ex orig idx svc proto
        = Ok (mkPortAllocation svc orig p (defaultProtocol proto) "")
      /\ shiftCandidate orig idx + 1 <= p
      /\ p <= shiftCandidate orig idx + portShiftMultiplier - 1
      /\ p <= maxPort
      /\ isPortAvailableForAllocation os ex p (defaultProtocol proto) = true
      /\ (forall q, shiftCandidate orig idx + 1 <= q < p ->
            isPortAvailableForAllocation os ex q (defaultProtocol proto) = false)
  | None =>
      (forall q, shiftCandidate orig idx + 1 <= q ->
         q <= shiftCandidate orig idx + portShiftMultiplier - 1 -> q <= maxPort ->
         isPortAvailableForAllocation os ex q (defaultProtocol proto) = false)
      /\ (forall a, AllocatePort os ex orig idx svc proto = Ok a ->
            dynamicRangeStart <= HostPort a <= dynamicRangeEnd)
  end.
Proof.
  intros Hidx Hmax Hbusy.
  unfold AllocatePort. fold (blockScan os ex (shiftCandidate orig idx) (defaultProtocol proto)).
  set (cand := shiftCandidate orig idx) in *. set (pr := defaultProtocol proto) in *.
  unfold maxWorktreeIndex in *.
  destruct (Z.ltb_spec idx 0); [lia|]. destruct (Z.gtb_spec idx 9); [lia|]. simpl.
  destruct (Z.gtb_spec cand maxPort); [lia|]. rewrite Hbusy. simpl.
  destruct (blockScan os ex cand pr) as [p|] eqn:Hscan.
  - unfold blockScan in Hscan. apply firstAvailable_Some in Hscan as (Hr & Hav & Hfirst).
    rewrite blockEnd_spec in Hr. unfold portShiftMultiplier, maxPort.
    repeat split; auto; lia.
  - split.
    + intros q Hq1 Hq2 Hq3. unfold blockScan in Hscan.
      apply (firstAvailable_None _ _ _ _ _ Hscan). rewrite blockEnd_spec.
      unfold portShiftMultiplier, maxPort in *. lia.
    + intros a. unfold findAvailablePortExcludingExisting.
      destruct (firstAvailable os ex dynamicRangeStart dynamicRangeEnd pr) as [p|] eqn:Hf;
        [|discriminate].
      intros [= <-]. simpl. apply firstAvailable_Some in Hf as (? & _). lia.
Qed.

Lemma block_scan_first_in_block_witness :
  AllocatePort busy13000 [] 3000 1 "app" "tcp"
    = Ok (mkPortAllocation "app" 3000 13001 "tcp" "").
Proof.
  pose proof (block_scan_first_in_block busy13000 [] 3000 1 "app" "tcp") as H.
  replace (blockScan busy13000 [] (shiftCandidate 3000 1) (defaultProtocol "tcp"))
    with (Some 13001) in H by (vm_compute; reflexivity).
  apply H; [unfold maxWorktreeIndex; lia | vm_compute; discriminate | vm_compute; reflexivity].
Defined.

(** C2: the block that the scan covers is not the 10000-wide block of the
    candidate. For port 3000 at index 1 the candidate is 13000 and its
    block, the band of index 1, ends at 19999; the scan runs to
    [blockEnd] = 22999, and on a host where 13000..19999 are taken it
    returns 20000, a port past the end of the block and inside the band of
    index 2, as the host port of the allocation. *)
Theorem block_scan_leaves_index_band :
  shiftCandidate 3000 1 = 13000
  /\ blockEnd (shiftCandidate 3000 1) = 22999
  /\ blockScan busyTo19999 [] (shiftCandidate 3000 1) "tcp" = Some 20000
  /\ AllocatePort busyTo19999 [] 3000 1 "app" "tcp"
     = Ok (mkPortAllocation "app" 3000 20000 "tcp" "").
Proof. repeat split; vm_compute; reflexivity. Qed.

(** C3: with an index above 0, a shifted port original + index*10000 of at
    most 65535 and no conflict (the candidate passes the availability check,
    which includes not being a known allocation), every allocation made has
    that shifted port as host port; at index 0 with no conflict the host port
    is the original port. For an index of at most 9 the allocation is made. *)
Theorem shifted_port_when_free os ex orig idx svc proto :
  is_int orig ->
  0 <= idx ->
  (if idx =? 0 then orig else orig + idx * 10000) <= 65535 ->
  isPortAvailableForAllocation os ex
    (if idx =? 0 then orig else orig + idx * 10000) (defaultProtocol proto) = true ->
  (forall a, AllocatePort os ex orig idx svc proto = Ok a ->
     HostPort a = (if idx =? 0 then orig else orig + idx * 10000))
  /\ (idx <= 9 ->
      AllocatePort os ex orig idx svc proto
        = Ok (mkPortAllocation svc orig
                (if idx =? 0 then orig else orig + idx * 10000)
                (defaultProtocol proto) "")).
Proof.
  intros Hint Hidx Hle Hav.
  pose proof (shiftCandidate_exact orig idx Hint Hidx Hle) as Hcand.
  unfold portShiftMultiplier in Hcand.
  assert (Hrun : idx <= 9 ->
      AllocatePort os ex orig idx svc proto
        = Ok (mkPortAllocation svc orig
                (if idx =? 0 then orig else orig + idx * 10000)
                (defaultProtocol proto) "")).
  { intros H9. unfold AllocatePort, maxWorktreeIndex, maxPort.
    destruct (Z.ltb_spec idx 0); [lia|]. destruct (Z.gtb_spec idx 9); [lia|]. simpl.
    rewrite Hcand.
    destruct (Z.gtb_spec (if idx =? 0 then orig else orig + idx * 10000) 65535); [lia|].
    rewrite Hav. reflexivity. }
  split; [|exact Hrun].
  intros a Ha. destruct (Z_le_gt_dec idx 9) as [H9|H9].
  - rewrite (Hrun H9) in Ha. injection Ha as <-. reflexivity.
  - unfold AllocatePort, maxWorktreeIndex in Ha.
    destruct (Z.ltb_spec idx 0); [lia|]. destruct (Z.gtb_spec idx 9); [|lia].
    discriminate.
Qed.

Lemma shifted_port_when_free_witness :
  AllocatePort idleHost [] 3000 2 "app" ""
    = Ok (mkPortAllocation "app" 3000 23000 "tcp" "")
  /\ AllocatePort idleHost [] 3000 0 "app" ""
    = Ok (mkPortAllocation "app" 3000 3000 "tcp" "").
Proof.
  split.
  - apply (shifted_port_when_free idleHost [] 3000 2 "app" "");
      [unfold is_int, int_min, int_max; lia | lia | simpl; lia | reflexivity | lia].
  - apply (shifted_port_when_free idleHost [] 3000 0 "app" "");
      [unfold is_int, int_min, int_max; lia | lia | simpl; lia | reflexivity | lia].
Defined.

(** C4: in the result of a batch allocation no two allocations share the
    pair (hostPort, protocol), and no allocation of the result shares that
    pair with an allocation that was known before the batch. *)
Theorem batch_host_ports_unique os ex ports idx res :
  AllocatePorts os ex ports idx = Ok res ->
  NoDup (List.map portKey res)
  /\ (forall a e, In a res -> In e ex -> portKey a <> portKey e).
Proof.
  unfold AllocatePorts. intros H.
  destruct (allocateLoop os ex [] ports idx) as [r ex'] eqn:Hloop. simpl in H. subst r.
  apply allocateLoop_Ok in Hloop as (new & -> & _ & Hnd & Hfresh & _).
  simpl. split; [exact Hnd|].
  intros a e Ha He Hk. apply (Hfresh a Ha). rewrite Hk. apply in_map. exact He.
Qed.

Lemma batch_host_ports_unique_witness :
  NoDup (List.map portKey
           [mkPortAllocation "web" 3000 13000 "tcp" "Application";
            mkPortAllocation "api" 3000 13002 "tcp" "API"])
  /\ (forall a e,
        In a [mkPortAllocation "web" 3000 13000 "tcp" "Application";
              mkPortAllocation "api" 3000 13002 "tcp" "API"] ->
        In e [mkPortAllocation "db" 3001 13001 "tcp" ""] ->
        portKey a <> portKey e).
Proof.
  apply (batch_host_ports_unique idleHost
           [mkPortAllocation "db" 3001 13001 "tcp" ""] twoServices 1).
  vm_compute. reflexivity.
Defined.

(** C5 (amended): every element of a successful batch keeps the service name
    and the container port of its PortSpec, has protocol tcp or udp and a
    host port of at most 65535; the host port is at least 1024 whenever the
    shift candidate is, in particular for every index from 1 on with a
    container port in 1..65535. *)
Theorem batch_result_fields os ex ports idx res :
  AllocatePorts os ex ports idx = Ok res ->
  Forall2 (fun s r =>
             ServiceName r = ps_ServiceName s
             /\ ContainerPort r = ps_ContainerPort s
             /\ (Protocol r = "tcp" \/ Protocol r = "udp")
             /\ HostPort r <= 65535
             /\ (1024 <= shiftCandidate (ps_ContainerPort s) idx -> 1024 <= HostPort r)
             /\ (1 <= idx -> 1 <= ps_ContainerPort s <= 65535 -> 1024 <= HostPort r))
          ports res.
Proof.
  unfold AllocatePorts. intros H.
  destruct (allocateLoop os ex [] ports idx) as [r ex'] eqn:Hloop. simpl in H. subst r.
  apply allocateLoop_Ok in Hloop as (new & -> & _ & _ & _ & Hall & Hidx).
  simpl. assert (Hne : new <> [] -> ports <> []).
  { intros Hn ->. inversion Hall. congruence. }
  clear ex'. induction Hall as [|s r ports new (Hs & Hc & _ & _ & Htu & Hmax & Hmin) Hall IH].
  - constructor.
  - constructor.
    + unfold maxPort, dynamicRangeStart in *. repeat split; auto; try lia.
      intros H1 Hcp. assert (Hi : 0 <= idx <= maxWorktreeIndex) by (apply Hidx; congruence).
      unfold maxWorktreeIndex in Hi.
      assert (shiftCandidate (ps_ContainerPort s) idx = ps_ContainerPort s + idx * 10000).
      { unfold shiftCandidate, portShiftMultiplier.
        destruct (Z.eqb_spec idx 0); [lia|]. apply int_wrap_id.
        unfold is_int, int_min, int_max. lia. }
      lia.
    + destruct ports as [|s' ports'].
      * inversion Hall. constructor.
      * apply IH; [intros _; apply Hidx; congruence | congruence].
Qed.

Lemma batch_result_fields_witness :
  Forall2 (fun s r =>
             ServiceName r = ps_ServiceName s
             /\ ContainerPort r = ps_ContainerPort s
             /\ (Protocol r = "tcp" \/ Protocol r = "udp")
             /\ HostPort r <= 65535
             /\ (1024 <= shiftCandidate (ps_ContainerPort s) 1 -> 1024 <= HostPort r)
             /\ (1 <= 1 -> 1 <= ps_ContainerPort s <= 65535 -> 1024 <= HostPort r))
          twoServices
          [mkPortAllocation "web" 3000 13000 "tcp" "Application";
           mkPortAllocation "api" 3000 13001 "tcp" "API"].
Proof.
  apply (batch_result_fields idleHost [] twoServices 1).
  vm_compute. reflexivity.
Defined.

(** C5 as stated fails at index 0: a container port below 1024 that the host
    lets the process bind is allocated unchanged. *)
Lemma batch_host_port_below_1024 :
  ~ (forall res,
       AllocatePorts idleHost [] [mkPortSpec "web" 80 0 "tcp" ""] 0 = Ok res ->
       Forall (fun r => 1024 <= HostPort r <= 65535) res).
Proof.
  intros H.
  specialize (H [mkPortAllocation "web" 80 80 "tcp" ""] eq_refl).
  inversion H as [|? ? Hr _]. simpl in Hr. lia.
Qed.

End port_claims.

(** * Verification of the label store *)

Module strconv_facts.
Import strconv.

Lemma string_of_uint_digit d :
  d <> Decimal.Nil ->
  exists c s, NilEmpty.string_of_uint d = String c s
              /\ c <> "+"%char /\ c <> "-"%char.
Proof.
  destruct d; [congruence| ..]; intros _; simpl; eexists _, _;
    (split; [reflexivity|split; discriminate]).
Qed.

Lemma parseDigits_to_uint p :
  parseDigits (NilEmpty.string_of_uint (Pos.to_uint p)) = Some (Z.pos p).
Proof.
  unfold parseDigits.
  destruct (string_of_uint_digit (Pos.to_uint p) (Unsigned.to_uint_nonnil p))
    as (c & s & Hs & _).
  rewrite Hs, <- Hs, NilEmpty.usu. simpl. unfold Z.of_uint.
  rewrite DecimalPos.Unsigned.of_to. reflexivity.
Qed.

Lemma inRange_int z : is_int z -> inRange z = Some z.
Proof.
  unfold is_int, inRange. intros H.
  destruct (Z.leb_spec int_min z); [|lia]. destruct (Z.leb_spec z int_max); [|lia].
  reflexivity.
Qed.

(** [Atoi] reads back what [Itoa] prints. *)
Lemma Atoi_Itoa n : is_int n -> Atoi (Itoa n) = Some n.
Proof.
  intros Hn. unfold Itoa. destruct n as [|p|p]; simpl.
  - reflexivity.
  - unfold NilZero.string_of_uint.
    destruct (string_of_uint_digit (Pos.to_uint p) (Unsigned.to_uint_nonnil p))
      as (c & s & Hs & Hplus & Hminus).
    destruct (Pos.to_uint p) eqn:Hd; [exfalso; eapply Unsigned.to_uint_nonnil; eauto| ..];
      rewrite <- Hd in *; clear Hd.
    all: unfold Atoi; rewrite Hs;
      destruct c as [[] [] [] [] [] [] [] []]; try congruence;
      rewrite <- Hs, parseDigits_to_uint; simpl; apply inRange_int; exact Hn.
  - unfold NilZero.string_of_uint.
    assert (Hnn := Unsigned.to_uint_nonnil p).
    destruct (Pos.to_uint p) eqn:Hd; [congruence| ..]; rewrite <- Hd; clear Hd.
    all: unfold Atoi; rewrite parseDigits_to_uint; simpl; apply inRange_int; exact Hn.
Qed.

Lemma Itoa_inj n m : is_int n -> is_int m -> Itoa n = Itoa m -> n = m.
Proof.
  intros Hn Hm H. apply (f_equal Atoi) in H. rewrite !Atoi_Itoa in H by assumption.
  congruence.
Qed.

End strconv_facts.

Module strings_facts.
Import strings.

Lemma CutPrefix_app prefix s : CutPrefix (prefix +:+ s) prefix = Some s.
Proof.
  induction prefix as [|c prefix IH]; simpl.
  - destruct s; reflexivity.
  - rewrite Ascii.eqb_refl. exact IH.
Qed.

End strings_facts.

Module docker_examples.
Import model docker.

(** Two services that publish the same container port on different host
    ports, as the batch allocator produces them. *)
Definition sharedContainerPort : WorktreeEnv Z :=
  mkWorktreeEnv "feature-auth" "feature/auth" "/src/app-feature-auth" "/src/app"
    "running" PatternComposeMulti []
    [mkPortAllocation "web" 3000 13000 "tcp" "";
     mkPortAllocation "api" 3000 13001 "tcp" ""]
    1772272800.

Definition singlePort : WorktreeEnv Z :=
  mkWorktreeEnv "feature-auth" "feature/auth" "/src/app-feature-auth" "/src/app"
    "running" PatternImage []
    [mkPortAllocation "app" 3000 13000 "tcp" "";
     mkPortAllocation "app" 8080 18080 "tcp" ""]
    1772272800.

(** A stand-in for the time library, to run the label store on concrete
    environments: a time stamp is a number of whole seconds, printed in
    decimal. *)
Definition unixFormat (t : Z) : string := strconv.Itoa t.
Definition unixParse (s : string) : option Z :=
  option_map Z.of_int (DecimalString.NilZero.int_of_string s).

(** The (containerPort, hostPort) pair of an allocation. *)
Definition portPair (pa : PortAllocation) : Z * Z := (ContainerPort pa, HostPort pa).

End docker_examples.

Module docker_facts.
Import model docker docker_examples strconv_facts strings_facts.

(** What [parsePortEntries] makes of one entry. *)
Definition decodeEntry (kv : string * string) : option PortAllocation :=
  match strings.CutPrefix kv.1 LabelOriginalPortPrefix with
  | None => None
  | Some portStr =>
      match strconv.Atoi portStr, strconv.Atoi kv.2 with
      | Some containerPort, Some hostPort =>
          Some (mkPortAllocation "" containerPort hostPort "tcp" "")
      | _, _ => None
      end
  end.

Definition wellFormedEntry (kv : string * string) : Prop :=
  strings.CutPrefix kv.1 LabelOriginalPortPrefix = None \/ is_Some (decodeEntry kv).

Lemma parsePortEntries_wf entries : forall allocations,
  Forall wellFormedEntry entries ->
  parsePortEntries entries allocations = Ok (allocations ++ omap decodeEntry entries).
Proof.
  induction entries as [|[key value] rest IH]; intros allocations Hwf; simpl.
  - rewrite app_nil_r. reflexivity.
  - inversion Hwf as [|? ? Hkv Hrest]; subst.
    unfold decodeEntry at 1. simpl.
    destruct Hkv as [Hcut|[a Ha]]; unfold decodeEntry in *; simpl in *.
    + rewrite Hcut. apply IH; assumption.
    + destruct (strings.CutPrefix key LabelOriginalPortPrefix) as [portStr|]; [|discriminate].
      destruct (strconv.Atoi portStr) as [cp|]; [|discriminate].
      destruct (strconv.Atoi value) as [hp|]; [|discriminate].
      rewrite IH by assumption. rewrite <- app_assoc. reflexivity.
Qed.

Definition portEntry (pa : PortAllocation) : string * string :=
  (BuildPortLabel (ContainerPort pa), strconv.Itoa (HostPort pa)).

Definition intPorts (pa : PortAllocation) : Prop :=
  is_int (ContainerPort pa) /\ is_int (HostPort pa).

Lemma decode_portEntry pa :
  intPorts pa ->
  decodeEntry (portEntry pa)
    = Some (mkPortAllocation "" (ContainerPort pa) (HostPort pa) "tcp" "").
Proof.
  intros [Hc Hh]. unfold decodeEntry, portEntry, BuildPortLabel. simpl.
  rewrite CutPrefix_app, !Atoi_Itoa by assumption. reflexivity.
Qed.

Lemma BuildPortLabel_inj c1 c2 :
  is_int c1 -> is_int c2 -> BuildPortLabel c1 = BuildPortLabel c2 -> c1 = c2.
Proof.
  unfold BuildPortLabel. intros H1 H2 H. apply String.app_inj in H.
  apply Itoa_inj; assumption.
Qed.

Definition putPort (labels : gmap string string) (pa : PortAllocation) : gmap string string :=
  <[BuildPortLabel (ContainerPort pa) := strconv.Itoa (HostPort pa)]> labels.

Lemma putPorts_lookup_other allocs : forall (base : gmap string string) k,
  strings.CutPrefix k LabelOriginalPortPrefix = None ->
  foldl putPort base allocs !! k = base !! k.
Proof.
  induction allocs as [|pa allocs IH]; intros base k Hk; simpl; [reflexivity|].
  rewrite IH by assumption. unfold putPort. apply lookup_insert_ne.
  intros <-. unfold BuildPortLabel in Hk. rewrite CutPrefix_app in Hk. discriminate.
Qed.

Lemma putPorts_to_list allocs : forall (base : gmap string string),
  Forall intPorts allocs ->
  NoDup (List.map ContainerPort allocs) ->
  (forall pa, In pa allocs -> base !! BuildPortLabel (ContainerPort pa) = None) ->
  map_to_list (foldl putPort base allocs)
    ≡ₚ List.map portEntry allocs ++ map_to_list base.
Proof.
  induction allocs as [|pa allocs IH]; intros base Hint Hnd Hfree; simpl; [reflexivity|].
  inversion Hint as [|? ? Hpa Hint']; subst.
  inversion Hnd as [|? ? Hnotin Hnd']; subst.
  rewrite IH; auto.
  - unfold putPort at 1. rewrite map_to_list_insert by (apply Hfree; left; reflexivity).
    fold (portEntry pa). symmetry. apply Permutation_middle.
  - intros pa' Hin. unfold putPort. rewrite lookup_insert_ne; [apply Hfree; right; exact Hin|].
    intros Heq. apply BuildPortLabel_inj in Heq.
    + apply Hnotin. rewrite Heq. apply in_map. exact Hin.
    + apply Hpa.
    + rewrite Forall_forall in Hint'. apply Hint'. exact Hin.
Qed.

End docker_facts.

Module docker_claims.
Import model docker docker_examples docker_facts strconv_facts strings_facts.

Ltac distinct_keys := vm_compute; discriminate.

Ltac lookup_base :=
  repeat first [ rewrite lookup_insert_eq
               | rewrite lookup_insert_ne by distinct_keys ];
  try rewrite lookup_empty.

Lemma ToLower_valid p : IsValid p = true -> ParseConfigPattern p = Some p.
Proof.
  unfold IsValid. rewrite !orb_true_iff. rewrite !String.eqb_eq.
  intros [[[->| ->]| ->]| ->]; reflexivity.
Qed.

Section RoundTrip.

Context {Time : Type}.
Variable formatRFC3339 : Time -> string.
Variable parseRFC3339 : string -> option Time.
Variable truncateToSecond : Time -> Time.

(** [time.Parse] reads back what [Format] prints, to the second. *)
Hypothesis parse_format :
  forall t, parseRFC3339 (formatRFC3339 t) = Some (truncateToSecond t).

Definition baseLabels (env : WorktreeEnv Time) : gmap string string :=
  <[LabelCreatedAt := formatRFC3339 (CreatedAt env)]>
  (<[LabelConfigPattern := ConfigPatternOf env]>
  (<[LabelSourceRepo := SourceRepoPath env]>
  (<[LabelWorktreePath := WorktreePath env]>
  (<[LabelBranch := Branch env]>
  (<[LabelName := Name env]>
  (<[LabelManagedBy := ManagedByValue]> ∅)))))).

Lemma BuildLabels_fold env :
  BuildLabels formatRFC3339 env = foldl putPort (baseLabels env) (PortAllocations env).
Proof. reflexivity. Qed.

Lemma baseLabels_no_port env k v :
  baseLabels env !! k = Some v ->
  strings.CutPrefix k LabelOriginalPortPrefix = None.
Proof.
  unfold baseLabels. rewrite !lookup_insert_Some, lookup_empty.
  intros H. repeat (destruct H as [[<- _]|[_ H]]; [reflexivity|]). discriminate.
Qed.

Lemma baseLabels_port_free env c :
  baseLabels env !! BuildPortLabel c = None.
Proof.
  destruct (baseLabels env !! BuildPortLabel c) as [v|] eqn:H; [|reflexivity].
  apply baseLabels_no_port in H. unfold BuildPortLabel in H.
  rewrite CutPrefix_app in H. discriminate.
Qed.

Lemma BuildLabels_base env k :
  strings.CutPrefix k LabelOriginalPortPrefix = None ->
  BuildLabels formatRFC3339 env !! k = baseLabels env !! k.
Proof. intros H. rewrite BuildLabels_fold. apply putPorts_lookup_other. exact H. Qed.

Lemma ParsePortLabels_BuildLabels env :
  Forall intPorts (PortAllocations env) ->
  NoDup (List.map ContainerPort (PortAllocations env)) ->
  exists ports,
    ParsePortLabels (BuildLabels formatRFC3339 env) = Ok ports
    /\ List.map portPair ports ≡ₚ List.map portPair (PortAllocations env).
Proof.
  intros Hint Hnd.
  assert (Hperm := putPorts_to_list (PortAllocations env) (baseLabels env) Hint Hnd
                     (fun pa _ => baseLabels_port_free env (ContainerPort pa))).
  rewrite <- BuildLabels_fold in Hperm.
  assert (Hbase : omap decodeEntry (map_to_list (baseLabels env)) = []).
  { assert (H : forall l, (forall kv, In kv l -> baseLabels env !! kv.1 = Some kv.2) ->
                          omap decodeEntry l = []).
    { induction l as [|kv l IH]; intros Hl; [reflexivity|]. simpl.
      unfold decodeEntry at 1.
      rewrite (baseLabels_no_port env kv.1 kv.2) by (apply Hl; left; reflexivity).
      apply IH. intros kv' Hin. apply Hl. right. exact Hin. }
    apply H. intros [k v] Hin. apply elem_of_map_to_list. apply list_elem_of_In. exact Hin. }
  assert (Hports : omap decodeEntry (List.map portEntry (PortAllocations env))
                   = List.map (fun pa => mkPortAllocation "" (ContainerPort pa) (HostPort pa) "tcp" "")
                       (PortAllocations env)).
  { clear Hperm Hnd. induction Hint as [|pa l Hpa Hl IH]; [reflexivity|].
    simpl. rewrite decode_portEntry by exact Hpa. simpl. f_equal. exact IH. }
  exists (omap decodeEntry (map_to_list (BuildLabels formatRFC3339 env))). split.
  - unfold ParsePortLabels. rewrite parsePortEntries_wf; [reflexivity|].
    rewrite Forall_forall. intros [k v] Hin.
    apply list_elem_of_In in Hin. rewrite Hperm in Hin.
    apply list_elem_of_In, in_app_iff in Hin. destruct Hin as [Hin|Hin].
    + right. apply in_map_iff in Hin as (pa & <- & Hpa).
      rewrite decode_portEntry; [eexists; reflexivity|].
      rewrite Forall_forall in Hint. apply Hint. exact Hpa.
    + left. apply list_elem_of_In, elem_of_map_to_list in Hin.
      eapply baseLabels_no_port. exact Hin.
  - rewrite Hperm, omap_app, Hbase, app_nil_r, Hports.
    rewrite List.map_map. reflexivity.
Qed.

(** Where the round trip holds: for an Environment with a valid
    configuration pattern and pairwise distinct container ports, parsing
    the labels built from it gives
    an Environment with the same name, branch, worktree path, source
    repository path and configuration pattern, the creation time truncated
    to the second, and the same multiset of (containerPort, hostPort) pairs. *)
Theorem labels_round_trip (env : WorktreeEnv Time) :
  IsValid (ConfigPatternOf env) = true ->
  Forall intPorts (PortAllocations env) ->
  NoDup (List.map ContainerPort (PortAllocations env)) ->
  exists env',
    ParseLabels parseRFC3339 (BuildLabels formatRFC3339 env) = Ok env'
    /\ Name env' = Name env
    /\ Branch env' = Branch env
    /\ WorktreePath env' = WorktreePath env
    /\ SourceRepoPath env' = SourceRepoPath env
    /\ ConfigPatternOf env' = ConfigPatternOf env
    /\ CreatedAt env' = truncateToSecond (CreatedAt env)
    /\ List.map portPair (PortAllocations env')
         ≡ₚ List.map portPair (PortAllocations env).
Proof.
  intros Hvalid Hint Hnd.
  destruct (ParsePortLabels_BuildLabels env Hint Hnd) as (ports & Hports & Hperm).
  unfold ParseLabels, requiredKeys, at_key. simpl List.filter.
  rewrite !BuildLabels_base by reflexivity.
  unfold baseLabels. lookup_base. simpl.
  rewrite ToLower_valid by exact Hvalid. rewrite parse_format, Hports.
  eexists. split; [reflexivity|]. simpl. repeat split; auto.
Qed.

End RoundTrip.

Lemma unixParse_format t : unixParse (unixFormat t) = Some t.
Proof.
  unfold unixParse, unixFormat, strconv.Itoa.
  rewrite NilZero.isi.
  - simpl. rewrite DecimalZ.of_to. reflexivity.
  - destruct t; simpl; try discriminate.
    intros [= H]. exact (Unsigned.to_uint_nonnil _ H).
  - destruct t; simpl; try discriminate.
    intros [= H]. exact (Unsigned.to_uint_nonnil _ H).
Qed.

Lemma labels_round_trip_witness :
  exists env',
    ParseLabels unixParse (BuildLabels unixFormat singlePort) = Ok env'
    /\ Name env' = "feature-auth"
    /\ Branch env' = "feature/auth"
    /\ WorktreePath env' = "/src/app-feature-auth"
    /\ SourceRepoPath env' = "/src/app"
    /\ ConfigPatternOf env' = PatternImage
    /\ CreatedAt env' = 1772272800
    /\ List.map portPair (PortAllocations env') ≡ₚ [(3000, 13000); (8080, 18080)].
Proof.
  apply (labels_round_trip unixFormat unixParse (fun t => t) unixParse_format singlePort).
  - reflexivity.
  - repeat constructor; unfold is_int, int_min, int_max; simpl; lia.
  - repeat constructor; simpl; intuition lia.
Defined.

(** With two allocations of one container port the multiset of pairs is
    not the one that was stored. *)
Lemma labels_shared_container_port :
  ~ exists env',
      ParseLabels unixParse (BuildLabels unixFormat sharedContainerPort) = Ok env'
      /\ List.map portPair (PortAllocations env')
           ≡ₚ List.map portPair (PortAllocations sharedContainerPort).
Proof.
  intros (env' & H & Hperm). vm_compute in H. injection H as <-.
  apply Permutation_length in Hperm. discriminate.
Qed.

(** C6: the round trip loses a port mapping when two services publish the
    same container port. The batch allocator gives web and api, both on
    container port 3000, the host ports 13000 and 13001; [BuildLabels]
    writes both under the one label of container port 3000, the second
    over the first, and [ParseLabels] returns a single allocation,
    3000 to 13001: the pair (3000, 13000) is gone. *)
Theorem labels_lose_shared_container_port :
  option_map (List.map portPair)
    (match port.AllocatePorts port_examples.idleHost [] port_examples.twoServices 1 with
     | Ok allocations => Some allocations
     | Err _ => None
     end)
  = Some (List.map portPair (PortAllocations sharedContainerPort))
  /\ List.map portPair (PortAllocations sharedContainerPort)
     = [(3000, 13000); (3000, 13001)]
  /\ BuildLabels unixFormat sharedContainerPort !! BuildPortLabel 3000 = Some "13001"
  /\ exists env',
       ParseLabels unixParse (BuildLabels unixFormat sharedContainerPort) = Ok env'
       /\ List.map portPair (PortAllocations env') = [(3000, 13001)].
Proof.
  split; [vm_compute; reflexivity|]. split; [reflexivity|].
  split; [vm_compute; reflexivity|].
  eexists. split; [vm_compute; reflexivity|]. reflexivity.
Qed.

End docker_claims.

(** * Verification of environment names *)

Module regexp_facts.
Import regexp.

Ltac invert H := inversion H; subst; clear H.

Lemma nullable_matches r : nullable r = true <-> matches r [].
Proof.
  induction r as [| |p|r1 IH1 r2 IH2|r1 IH1 r2 IH2|r IH]; simpl.
  - split; [discriminate|]. intros H. invert H.
  - split; [constructor|reflexivity].
  - split; [discriminate|]. intros H. invert H.
  - rewrite andb_true_iff, IH1, IH2. split.
    + intros [H1 H2]. exact (MCat r1 r2 [] [] H1 H2).
    + intros H. invert H.
      match goal with Heq : _ ++ _ = [] |- _ => apply app_eq_nil in Heq as [-> ->] end.
      split; assumption.
  - rewrite orb_true_iff, IH1, IH2. split.
    + intros [H|H]; [apply MAltL|apply MAltR]; exact H.
    + intros H. invert H; [left|right]; assumption.
  - split; [constructor|reflexivity].
Qed.

(** A non-empty word of [Star r] starts with a non-empty word of [r]. *)
Lemma star_cons_inv r c s :
  matches (Star r) (c :: s) ->
  exists s1 s2, s = s1 ++ s2 /\ matches r (c :: s1) /\ matches (Star r) s2.
Proof.
  remember (Star r) as r' eqn:Hr. remember (c :: s) as w eqn:Hw.
  intros H. revert c s Hw.
  induction H as [| | | | | |r0 s1 s2 H1 _ H2 IH2]; try discriminate.
  injection Hr as ->. intros c s Hw. destruct s1 as [|c' s1'].
  - simpl in Hw. apply IH2; [reflexivity|exact Hw].
  - simpl in Hw. injection Hw as ? ?; subst. exists s1', s2. auto.
Qed.

Lemma cat_cons_inv r1 r2 c s :
  matches (Cat r1 r2) (c :: s) ->
  (exists s1 s2, s = s1 ++ s2 /\ matches r1 (c :: s1) /\ matches r2 s2)
  \/ (matches r1 [] /\ matches r2 (c :: s)).
Proof.
  remember (Cat r1 r2) as r eqn:Hr. remember (c :: s) as w eqn:Hw.
  intros H. destruct H as [| |r1' r2' s1 s2 H1 H2| | | |]; try discriminate.
  injection Hr as -> ->. destruct s1 as [|c' s1'].
  - simpl in Hw. subst s2. right. split; assumption.
  - simpl in Hw. injection Hw as ? ?; subst. left. eauto.
Qed.

Lemma cat_inv r1 r2 s :
  matches (Cat r1 r2) s ->
  exists s1 s2, s = s1 ++ s2 /\ matches r1 s1 /\ matches r2 s2.
Proof. intros H. invert H. eauto. Qed.

Lemma deriv_matches r : forall c s, matches (deriv c r) s <-> matches r (c :: s).
Proof.
  induction r as [| |p|r1 IH1 r2 IH2|r1 IH1 r2 IH2|r IH]; intros c s; simpl.
  - split; intros H; invert H.
  - split; intros H; invert H.
  - destruct (p c) eqn:Hp; split; intros H; invert H.
    + constructor. exact Hp.
    + constructor.
    + congruence.
  - assert (Hcat : matches (Cat (deriv c r1) r2) s ->
                   matches (Cat r1 r2) (c :: s)).
    { intros H. apply cat_inv in H as (s1 & s2 & -> & H1 & H2).
      apply IH1 in H1. exact (MCat r1 r2 (c :: s1) s2 H1 H2). }
    assert (Hinv : matches (Cat r1 r2) (c :: s) ->
                   matches (Cat (deriv c r1) r2) s
                   \/ (matches r1 [] /\ matches r2 (c :: s))).
    { intros H. apply cat_cons_inv in H as [(s1 & s2 & -> & H1 & H2)|H]; [left|right; exact H].
      apply MCat; [apply IH1; exact H1|exact H2]. }
    destruct (nullable r1) eqn:Hn.
    + split.
      * intros H. invert H; [auto|].
        apply nullable_matches in Hn.
        match goal with H2 : matches (deriv c r2) s |- _ => apply IH2 in H2;
          exact (MCat r1 r2 [] (c :: s) Hn H2) end.
      * intros H. apply Hinv in H as [H|[_ H]];
          [apply MAltL; exact H|apply MAltR; apply IH2; exact H].
    + split; [exact Hcat|].
      intros H. apply Hinv in H as [H|[H _]]; [exact H|].
      apply nullable_matches in H. congruence.
  - split.
    + intros H. invert H;
        [apply MAltL; apply IH1|apply MAltR; apply IH2]; assumption.
    + intros H. invert H;
        [apply MAltL; apply IH1|apply MAltR; apply IH2]; assumption.
  - split.
    + intros H. apply cat_inv in H as (s1 & s2 & -> & H1 & H2).
      apply IH in H1. exact (MStarS r (c :: s1) s2 H1 H2).
    + intros H. apply star_cons_inv in H as (s1 & s2 & -> & H1 & H2).
      apply MCat; [apply IH; exact H1|exact H2].
Qed.

(** The derivative matcher decides the language of the expression. *)
Theorem matchList_matches s : forall r, matchList r s = true <-> matches r s.
Proof.
  induction s as [|c s IH]; intros r; simpl.
  - apply nullable_matches.
  - rewrite IH. apply deriv_matches.
Qed.

Lemma star_class_all p s : Forall (fun c => p c = true) s -> matches (Star (Class p)) s.
Proof.
  induction 1 as [|c s Hc _ IH]; [constructor|].
  exact (MStarS (Class p) [c] s (MClass p c Hc) IH).
Qed.

End regexp_facts.

Module strings_trim.
Import strings.

(** [TrimLeft] removes a run of the cut byte and stops at another byte. *)
Lemma TrimLeft_spec s cut :
  exists k, s = repeat cut k ++ TrimLeft s cut
            /\ (TrimLeft s cut = []
                \/ exists c t, TrimLeft s cut = c :: t /\ c <> cut).
Proof.
  induction s as [|c s (k & Hs & Hhead)]; simpl.
  - exists 0%nat. auto.
  - destruct (Ascii.eqb_spec c cut) as [->|Hne].
    + exists (S k). simpl. split; [congruence|exact Hhead].
    + exists 0%nat. split; [reflexivity|]. right. eauto.
Qed.

Lemma TrimRight_spec s cut :
  exists k, s = TrimRight s cut ++ repeat cut k
            /\ (TrimRight s cut = []
                \/ exists t c, TrimRight s cut = t ++ [c] /\ c <> cut).
Proof.
  unfold TrimRight. destruct (TrimLeft_spec (rev s) cut) as (k & Hs & Hhead).
  exists k. split.
  - apply (f_equal (@rev ascii)) in Hs.
    rewrite rev_involutive, rev_app_distr, rev_repeat in Hs. exact Hs.
  - destruct Hhead as [->|(c & t & -> & Hc)]; [left; reflexivity|].
    right. exists (rev t), c. simpl. auto.
Qed.

(** The shape of a trimmed text: empty, or with first and last byte other
    than the cut byte; it is a segment of the text it came from. *)
Lemma Trim_spec s cut :
  (exists pre post, s = pre ++ Trim s cut ++ post)
  /\ (Trim s cut = []
      \/ (exists a, Trim s cut = [a] /\ a <> cut)
      \/ (exists a mid c, Trim s cut = a :: mid ++ [c] /\ a <> cut /\ c <> cut)).
Proof.
  unfold Trim.
  destruct (TrimLeft_spec s cut) as (k1 & Hs & Hhead).
  destruct (TrimRight_spec (TrimLeft s cut) cut) as (k2 & Hl & Hlast).
  split.
  - exists (repeat cut k1), (repeat cut k2). rewrite <- Hl. exact Hs.
  - destruct Hlast as [Hnil|(t & c & Ht & Hc)]; [left; exact Hnil|].
    right. rewrite Ht in *. destruct Hhead as [Hnil|(a & l & Ha & Hne)].
    + rewrite Hnil in Hl. destruct t; discriminate.
    + rewrite Ha in Hl. destruct t as [|a' u].
      * left. exists c. auto.
      * simpl in Hl. injection Hl as Hhd _. subst a'. right. exists a, u, c. auto.
Qed.

End strings_trim.

Module cli_names.
Import model cli regexp regexp_facts strings_trim.

Lemma keepRune_class c : keepRune c = isAlnumHyphen c.
Proof. reflexivity. Qed.

Lemma alnum_of_kept c : isAlnumHyphen c = true -> c <> "-"%char -> isAlnum c = true.
Proof.
  unfold isAlnumHyphen. rewrite orb_true_iff. intros [H|H] Hne; [exact H|].
  apply Ascii.eqb_eq in H. contradiction.
Qed.

(** The texts that [nameRegex] accepts include every non-empty text of
    letters, digits and hyphens that neither starts nor ends with a hyphen. *)
Lemma nameRegex_matches_one a :
  isAlnum a = true -> matches nameRegex [a].
Proof. intros H. apply MAltR. constructor. exact H. Qed.

Lemma nameRegex_matches_many a mid c :
  isAlnum a = true -> Forall (fun x => isAlnumHyphen x = true) mid ->
  isAlnum c = true -> matches nameRegex (a :: mid ++ [c]).
Proof.
  intros Ha Hmid Hc. apply MAltL.
  apply (MCat _ _ [a] (mid ++ [c])); [constructor; exact Ha|].
  apply MCat; [apply star_class_all; exact Hmid|constructor; exact Hc].
Qed.

Lemma ValidateName_of_match t :
  t <> [] -> matches nameRegex t -> ValidateName (string_of_list_ascii t) = None.
Proof.
  intros Hne Hm. unfold ValidateName, MatchString.
  rewrite list_ascii_of_string_of_list_ascii.
  apply matchList_matches in Hm. rewrite Hm. simpl.
  destruct t as [|c t]; [congruence|]. reflexivity.
Qed.

Lemma ValidateName_default : ValidateName "worktree" = None.
Proof. reflexivity. Qed.

(** C10: for every branch name the sanitized environment name is non-empty
    and passes [ValidateName], so without a [--name] flag the validation
    step of create never fails. *)
Theorem sanitized_name_is_valid (branch : string) :
  sanitizeBranchName branch <> ""
  /\ ValidateName (sanitizeBranchName branch) = None
  /\ resolveEnvName "" branch = Ok (sanitizeBranchName branch).
Proof.
  assert (Hcore : sanitizeBranchName branch <> ""
                  /\ ValidateName (sanitizeBranchName branch) = None).
  { unfold sanitizeBranchName.
    set (kept := List.filter keepRune
                   (strings.ReplaceAll
                      (strings.ReplaceAll (list_ascii_of_string branch) "/" "-") "_" "-")).
    assert (Hkept : Forall (fun c => isAlnumHyphen c = true) kept).
    { apply Forall_forall. intros c Hc. apply filter_In in Hc as [_ Hc].
      rewrite <- keepRune_class. exact Hc. }
    destruct (Trim_spec kept "-") as [(pre & post & Hseg) Hshape].
    rewrite Hseg in Hkept. apply Forall_app in Hkept as [_ Hkept].
    apply Forall_app in Hkept as [Hkept _].
    destruct Hshape as [Hnil|[(a & Ht & Ha)|(a & mid & c & Ht & Ha & Hc)]].
    - rewrite Hnil. split; [discriminate|reflexivity].
    - rewrite Ht in *. inversion Hkept as [|? ? Hka _]; subst.
      split; [discriminate|].
      apply (ValidateName_of_match [a]); [discriminate|].
      apply nameRegex_matches_one. apply alnum_of_kept; assumption.
    - rewrite Ht in *. inversion Hkept as [|? ? Hka Hrest]; subst.
      apply Forall_app in Hrest as [Hmid Hlast].
      inversion Hlast as [|? ? Hkc _]; subst.
      split; [discriminate|].
      apply (ValidateName_of_match (a :: mid ++ [c])); [discriminate|].
      apply nameRegex_matches_many; auto using alnum_of_kept. }
  destruct Hcore as [Hne Hvalid]. repeat split; auto.
  unfold resolveEnvName. simpl. rewrite Hvalid. reflexivity.
Qed.

End cli_names.

(** * Verification of the non-compose rewrite *)

Module devcontainer_examples.
Import model devcontainer.

(** The keys that [RewriteConfig] writes. *)
Definition rewrittenKeys : list string :=
  ["name"; "runArgs"; "appPort"; "portsAttributes"; "containerEnv"].

(** The value [RewriteConfig] leaves under [appPort]: absent for an empty
    allocation set, otherwise the mappings in the order of the allocations. *)
Definition shiftedAppPort (portAllocations : list PortAllocation) : option JSON :=
  match portAllocations with
  | [] => None
  | _ => Some (JArray (List.map (fun pa => JString (portMappingString pa)) portAllocations))
  end.

Definition nodeConfig : gmap string JSON :=
  <["name" := JString "original-name"]>
  (<["image" := JString "node:20"]>
  (<["workspaceFolder" := JString "/workspace"]>
  (<["appPort" := JArray [JString "3000:3000"; JString "8080:8080"]]> ∅))).

Definition nodeAllocations : list PortAllocation :=
  [mkPortAllocation "app" 3000 13000 "tcp" "";
   mkPortAllocation "app" 8080 18080 "tcp" ""].

End devcontainer_examples.

Module devcontainer_facts.
Import model devcontainer devcontainer_examples.

Lemma foldl_snoc_map {A B} (f : A -> B) (l : list A) : forall acc,
  foldl (fun acc x => acc ++ [f x]) acc l = acc ++ List.map f l.
Proof.
  induction l as [|x l IH]; intros acc; simpl.
  - rewrite app_nil_r. reflexivity.
  - rewrite IH, <- app_assoc. reflexivity.
Qed.

Lemma applyRunArgsLabels_other configMap labels key :
  key <> "runArgs" -> applyRunArgsLabels configMap labels !! key = configMap !! key.
Proof. intros H. unfold applyRunArgsLabels. apply lookup_insert_ne. congruence. Qed.

Lemma applyAppPortShift_appPort configMap allocs :
  applyAppPortShift configMap allocs !! "appPort" = shiftedAppPort allocs.
Proof.
  unfold applyAppPortShift, shiftedAppPort. destruct allocs as [|pa allocs].
  - simpl. apply lookup_delete_eq.
  - replace (Z.of_nat (length (pa :: allocs)) =? 0) with false
      by (symmetry; apply Z.eqb_neq; simpl; lia).
    rewrite lookup_insert_eq, foldl_snoc_map. reflexivity.
Qed.

Lemma applyAppPortShift_other configMap allocs key :
  key <> "appPort" -> applyAppPortShift configMap allocs !! key = configMap !! key.
Proof.
  intros H. unfold applyAppPortShift.
  destruct (Z.of_nat (length allocs) =? 0).
  - apply lookup_delete_ne. congruence.
  - apply lookup_insert_ne. congruence.
Qed.

Lemma applyPortsAttributesShift_other configMap allocs key :
  key <> "portsAttributes" ->
  applyPortsAttributesShift configMap allocs !! key = configMap !! key.
Proof.
  intros H. unfold applyPortsAttributesShift.
  destruct (configMap !! "portsAttributes") as [[]|]; try reflexivity.
  apply lookup_insert_ne. congruence.
Qed.

Lemma applyContainerEnv_other configMap envName idx key :
  key <> "containerEnv" ->
  applyContainerEnv configMap envName idx !! key = configMap !! key.
Proof. intros H. unfold applyContainerEnv. apply lookup_insert_ne. congruence. Qed.

End devcontainer_facts.

Module devcontainer_claims.
Import model devcontainer devcontainer_examples devcontainer_facts.

(** C7: for every devcontainer.json that parses to an object and every
    allocation set, the rewrite succeeds; [appPort] becomes the list of
    ["<hostPort>:<containerPort>"] strings in the order of the allocations,
    or is absent when the allocation set is empty; every key other than
    name, runArgs, appPort, portsAttributes and containerEnv keeps its value. *)
Theorem rewrite_app_port_and_unknown_keys
    (configMap : gmap string JSON) (envName : string) (worktreeIndex : Z)
    (portAllocations : list PortAllocation) (labels : gmap string string) :
  exists out,
    RewriteConfig (JObject configMap) envName worktreeIndex portAllocations labels
      = Ok out
    /\ out !! "appPort" = shiftedAppPort portAllocations
    /\ (portAllocations = [] -> out !! "appPort" = None)
    /\ (forall key, ~ In key rewrittenKeys -> out !! key = configMap !! key).
Proof.
  eexists. split; [reflexivity|].
  assert (Happ : applyContainerEnv
            (applyPortsAttributesShift
               (applyAppPortShift
                  (applyRunArgsLabels (<["name" := JString envName]> configMap) labels)
                  portAllocations) portAllocations) envName worktreeIndex !! "appPort"
          = shiftedAppPort portAllocations).
  { rewrite applyContainerEnv_other, applyPortsAttributesShift_other by discriminate.
    apply applyAppPortShift_appPort. }
  split; [exact Happ|]. split.
  - intros ->. exact Happ.
  - intros key Hkey. unfold rewrittenKeys in Hkey. simpl in Hkey.
    rewrite applyContainerEnv_other, applyPortsAttributesShift_other,
      applyAppPortShift_other, applyRunArgsLabels_other
      by (intros ->; intuition auto).
    apply lookup_insert_ne. intros <-. intuition auto.
Qed.

Lemma rewrite_app_port_and_unknown_keys_witness :
  exists out,
    RewriteConfig (JObject nodeConfig) "feature-auth" 1 nodeAllocations ∅ = Ok out
    /\ out !! "appPort" = Some (JArray [JString "13000:3000"; JString "18080:8080"])
    /\ out !! "image" = Some (JString "node:20")
    /\ out !! "workspaceFolder" = Some (JString "/workspace").
Proof.
  destruct (rewrite_app_port_and_unknown_keys nodeConfig "feature-auth" 1
              nodeAllocations ∅) as (out & Hout & Happ & _ & Hkeep).
  exists out. split; [exact Hout|]. split; [exact Happ|]. split.
  - rewrite (Hkeep "image"); [reflexivity|]. simpl. intuition discriminate.
  - rewrite (Hkeep "workspaceFolder"); [reflexivity|]. simpl. intuition discriminate.
Defined.

End devcontainer_claims.

(** * Verification of the create and start commands *)

Module cli_examples.
Import model devcontainer cli.

(** The service count as the specification words it: the length of
    [runServices] where the source config lists it, otherwise the number of
    services read from the referenced Compose file(s). *)
Definition specServiceCount
    (raw : RawDevContainer) (composeFileServices : list string) : Z :=
  if 0 <? Z.of_nat (length (RunServices raw)) then Z.of_nat (length (RunServices raw))
  else Z.of_nat (length composeFileServices).

(** A Compose configuration that names its primary service and omits
    [runServices]; its Compose file defines the services app and db. *)
Definition composeApp : RawDevContainer :=
  mkRawDevContainer "app" "" None (Some (JString "docker-compose.yml")) "app" [] "/workspace".

Definition composeAppDb : RawDevContainer :=
  mkRawDevContainer "app" "" None (Some (JArray [JString "docker-compose.yml"]))
    "app" ["app"; "db"] "/workspace".

(** A Compose configuration that lists two services to run and names no
    Compose file. *)
Definition composeNoFiles : RawDevContainer :=
  mkRawDevContainer "app" "" None (Some (JArray [])) "app" ["app"; "db"] "/workspace".

Definition managedContainer (envName : string) : ContainerInfo :=
  mkContainerInfo ("id-" +:+ envName) (envName +:+ "-app-1") "app" "running"
    (<[docker.LabelName := envName]>
     (<[docker.LabelManagedBy := docker.ManagedByValue]> ∅)).

(** Nine known environments. *)
Definition nineEnvironments : list ContainerInfo :=
  List.map managedContainer
    ["env1"; "env2"; "env3"; "env4"; "env5"; "env6"; "env7"; "env8"; "env9"].

Definition stoppedEnv : WorktreeEnv Z :=
  mkWorktreeEnv "feature-auth" "feature/auth" "/src/app-feature-auth" "/src/app"
    "stopped" PatternImage []
    [mkPortAllocation "" 3000 13000 "tcp" ""; mkPortAllocation "" 8080 18080 "tcp" ""]
    1772272800.

Definition willingDaemon : Daemon := mkDaemon (fun _ _ => true) (fun _ => true).

End cli_examples.

Module cli_claims.
Import model devcontainer cli cli_examples.

(** C1: with nine known environments [determineWorktreeIndex] reports that
    the maximum is reached, but create replaces the error by index 1 and
    goes on to allocate ports: on an idle host it returns the allocation of
    port 3000 at index 1 instead of a port-allocation failure. *)
Theorem create_at_nine_environments :
  determineWorktreeIndex (Ok nineEnvironments) = (0, Some (MaximumReached 9))
  /\ createAllocate port_examples.idleHost (Ok nineEnvironments)
       [mkPortSpec "app" 3000 0 "tcp" ""]
     = Ok (1, [mkPortAllocation "app" 3000 13000 "tcp" ""]).
Proof. split; vm_compute; reflexivity. Qed.

(** What create does count: with dockerComposeFile present, the service
    count used by create is the length of runServices when the config lists it, otherwise
    1 for a named primary service and 0 for none, whatever the Compose files
    define; the pattern is compose-multi exactly when Compose files are
    named and runServices has at least two entries, otherwise
    compose-single; in [DetectPattern] a count of at least 2 gives
    compose-multi and a count of 1 gives compose-single. *)
Theorem compose_pattern_from_config (raw : RawDevContainer) :
  DockerComposeFile raw <> None ->
  (RunServices raw <> [] ->
     countComposeServices raw = Z.of_nat (length (RunServices raw)))
  /\ (RunServices raw = [] ->
        countComposeServices raw = (if String.eqb (Service raw) "" then 0 else 1))
  /\ createDetectPattern raw
       = (if (0 <? Z.of_nat (length (GetComposeFiles raw)))
             && (2 <=? Z.of_nat (length (RunServices raw)))
          then PatternComposeMulti else PatternComposeSingle)
  /\ (forall count, 2 <= count -> DetectPattern raw count = PatternComposeMulti)
  /\ DetectPattern raw 1 = PatternComposeSingle.
Proof.
  intros Hcompose.
  assert (Hdetect : forall count,
            DetectPattern raw count
              = if count >=? 2 then PatternComposeMulti else PatternComposeSingle).
  { intros count. unfold DetectPattern.
    destruct (DockerComposeFile raw); [reflexivity|congruence]. }
  split; [|split; [|split; [|split]]].
  - intros Hrun. unfold countComposeServices.
    destruct (RunServices raw); [congruence|reflexivity].
  - intros Hrun. unfold countComposeServices. rewrite Hrun. simpl.
    destruct (String.eqb (Service raw) ""); reflexivity.
  - unfold createDetectPattern. rewrite Hdetect.
    destruct (0 <? Z.of_nat (length (GetComposeFiles raw))); simpl; [|reflexivity].
    unfold countComposeServices.
    destruct (RunServices raw) as [|s1 [|s2 rest]] eqn:Hrun; simpl.
    + destruct (String.eqb (Service raw) ""); reflexivity.
    + reflexivity.
    + destruct (Z.geb_spec (Z.of_nat (S (S (length rest)))) 2);
        destruct (Z.leb_spec 2 (Z.of_nat (S (S (length rest))))); try reflexivity; lia.
  - intros count Hcount. rewrite Hdetect.
    destruct (Z.geb_spec count 2); [reflexivity|lia].
  - rewrite Hdetect. reflexivity.
Qed.

Lemma compose_pattern_from_config_witness :
  createDetectPattern composeAppDb = PatternComposeMulti
  /\ createDetectPattern composeApp = PatternComposeSingle.
Proof.
  split.
  - destruct (compose_pattern_from_config composeAppDb) as (_ & _ & H & _);
      [discriminate|exact H].
  - destruct (compose_pattern_from_config composeApp) as (_ & _ & H & _);
      [discriminate|exact H].
Defined.

(** C8: the service count that create uses never comes from a Compose
    file. For a configuration that names docker-compose.yml and the primary
    service app and omits runServices, the count is 1 and the pattern
    compose-single, although the Compose file defines the two services app
    and db, for which the count read from the file gives compose-multi.
    And the length of runServices is not authoritative either: with an
    empty dockerComposeFile array and two runServices the count used is 0
    and the pattern compose-single. *)
Theorem compose_services_never_read :
  countComposeServices composeApp = 1
  /\ createDetectPattern composeApp = PatternComposeSingle
  /\ DetectPattern composeApp (specServiceCount composeApp ["app"; "db"])
     = PatternComposeMulti
  /\ DockerComposeFile composeNoFiles <> None
  /\ Z.of_nat (length (RunServices composeNoFiles)) = 2
  /\ createDetectPattern composeNoFiles = PatternComposeSingle
  /\ DetectPattern composeNoFiles (specServiceCount composeNoFiles [])
     = PatternComposeMulti.
Proof. repeat split; try discriminate; vm_compute; reflexivity. Qed.

Section StartChecks.

Context {Time : Type}.
Variable os : port.Host.
Variable daemon : Daemon.

Definition portBusy (pa : PortAllocation) : bool :=
  negb (port.IsPortAvailable os (HostPort pa) (Protocol pa)).

Lemma conflictingPortsOf_filter (env : WorktreeEnv Time) :
  conflictingPortsOf os env
    = List.map HostPort (List.filter portBusy (PortAllocations env)).
Proof.
  unfold conflictingPortsOf.
  assert (H : forall l acc,
            foldl (fun conflictingPorts pa =>
                     if negb (port.IsPortAvailable os (HostPort pa) (Protocol pa))
                     then conflictingPorts ++ [HostPort pa] else conflictingPorts)
                  acc l
            = acc ++ List.map HostPort (List.filter portBusy l)).
  { induction l as [|pa l IH]; intros acc; simpl.
    - rewrite app_nil_r. reflexivity.
    - rewrite IH. unfold portBusy at 2.
      destruct (negb (port.IsPortAvailable os (HostPort pa) (Protocol pa))); simpl;
        [rewrite <- app_assoc|]; reflexivity. }
  apply (H _ []).
Qed.

(** C9: start tests every allocated host port first. If some port is not
    free it returns the port-allocation failure that lists exactly the host
    ports that failed the test, and performs no compose-up or
    container-start action; an action is performed only when every port is
    free. *)
Theorem start_checks_ports_first
    (env : WorktreeEnv Time) (containers : list ContainerInfo) (envName : string) :
  (forall pa, In pa (PortAllocations env) ->
     port.IsPortAvailable os (HostPort pa) (Protocol pa) = false ->
     runStart os daemon (Ok (env, containers)) envName
       = ([], Some (mkCLIError ExitPortAllocationFailed
                      (PortConflict (conflictingPortsOf os env))))
     /\ In (HostPort pa) (conflictingPortsOf os env))
  /\ (forall p, In p (conflictingPortsOf os env) <->
        exists pa, In pa (PortAllocations env) /\ HostPort pa = p
                   /\ port.IsPortAvailable os (HostPort pa) (Protocol pa) = false)
  /\ (fst (runStart os daemon (Ok (env, containers)) envName) <> [] ->
      forall pa, In pa (PortAllocations env) ->
        port.IsPortAvailable os (HostPort pa) (Protocol pa) = true).
Proof.
  assert (Hlist : forall p, In p (conflictingPortsOf os env) <->
        exists pa, In pa (PortAllocations env) /\ HostPort pa = p
                   /\ port.IsPortAvailable os (HostPort pa) (Protocol pa) = false).
  { intros p. rewrite conflictingPortsOf_filter, in_map_iff. split.
    - intros (pa & Hp & Hin). apply filter_In in Hin as [Hin Hbusy].
      exists pa. unfold portBusy in Hbusy. apply negb_true_iff in Hbusy. auto.
    - intros (pa & Hin & Hp & Hbusy). exists pa. split; [exact Hp|].
      apply filter_In. split; [exact Hin|]. unfold portBusy. rewrite Hbusy. reflexivity. }
  assert (Hfail : forall pa, In pa (PortAllocations env) ->
     port.IsPortAvailable os (HostPort pa) (Protocol pa) = false ->
     runStart os daemon (Ok (env, containers)) envName
       = ([], Some (mkCLIError ExitPortAllocationFailed
                      (PortConflict (conflictingPortsOf os env))))
     /\ In (HostPort pa) (conflictingPortsOf os env)).
  { intros pa Hin Hbusy.
    assert (Hp : In (HostPort pa) (conflictingPortsOf os env)) by (apply Hlist; eauto).
    split; [|exact Hp]. unfold runStart.
    destruct (conflictingPortsOf os env) as [|p ps]; [contradiction|]. reflexivity. }
  split; [exact Hfail|]. split; [exact Hlist|].
  intros Hacts pa Hin.
  destruct (port.IsPortAvailable os (HostPort pa) (Protocol pa)) eqn:Hav; [reflexivity|].
  destruct (Hfail pa Hin Hav) as [Hrun _]. rewrite Hrun in Hacts. simpl in Hacts.
  congruence.
Qed.

End StartChecks.

Lemma start_checks_ports_first_witness :
  runStart port_examples.busy13000 willingDaemon (Ok (stoppedEnv, [])) "feature-auth"
    = ([], Some (mkCLIError ExitPortAllocationFailed (PortConflict [13000]))).
Proof.
  apply (start_checks_ports_first port_examples.busy13000 willingDaemon stoppedEnv []
           "feature-auth")
    with (pa := mkPortAllocation "" 3000 13000 "tcp" "").
  - simpl. auto.
  - reflexivity.
Defined.

End cli_claims.

(** * More of the port package: the scanner's searches and the failure
      behaviour of the allocator *)

Module scanner.
Import model port.

Section Scanner.

Variable os : Host.

(** [Scanner.FindAvailablePort]: the first port of [startPort..endPort] that
    passes [IsPortAvailable], or an error ([None]). The loop
    [for port := startPort; port <= endPort; port++] visits the ports of
    the range in increasing order ([endPort] is below the largest [int],
    as every port range is, so the counter does not wrap). *)
Definition FindAvailablePort (startPort endPort : Z) (protocol : string) : option Z :=
  List.find (fun p => IsPortAvailable os p protocol)
            (seqZ startPort (endPort - startPort + 1)).

(** [Scanner.GetUsedPorts]: the ports of the range that fail the tcp test. *)
Definition GetUsedPorts (startPort endPort : Z) : list Z :=
  foldl (fun used p =>
           if negb (IsPortAvailable os p "tcp") then used ++ [p] else used)
        [] (seqZ startPort (endPort - startPort + 1)).

End Scanner.

End scanner.

Module port_more.
Import model port port_facts port_examples port_proofs scanner.

Section More.

Variable os : Host.

Lemma usedPorts_filter l : forall acc,
  foldl (fun used p =>
           if negb (IsPortAvailable os p "tcp") then used ++ [p] else used) acc l
  = acc ++ List.filter (fun p => negb (IsPortAvailable os p "tcp")) l.
Proof.
  induction l as [|p l IH]; intros acc; simpl.
  - rewrite app_nil_r. reflexivity.
  - rewrite IH. destruct (negb (IsPortAvailable os p "tcp")); simpl;
      [rewrite <- app_assoc|]; reflexivity.
Qed.

Lemma In_seqZ_range a b q : In q (seqZ a (b - a + 1)) <-> a <= q <= b.
Proof.
  rewrite <- list_elem_of_In, elem_of_seqZ. lia.
Qed.

Lemma seqZ_sorted a n : StronglySorted Z.lt (seqZ a n).
Proof.
  destruct (Z_le_gt_dec n 0) as [Hn|Hn].
  - rewrite seqZ_nil by lia. constructor.
  - rewrite <- (Z2Nat.id n) by lia. generalize (Z.to_nat n) as k. clear Hn.
    intros k. revert a. induction k as [|k IH]; intros a.
    + constructor.
    + rewrite seqZ_cons by lia.
      replace (Z.pred (Z.of_nat (S k))) with (Z.of_nat k) by lia.
      constructor; [apply IH|].
      apply Forall_forall. intros q Hq. apply list_elem_of_In, elem_of_seqZ in Hq. lia.
Qed.

Lemma filter_sorted (f : Z -> bool) l :
  StronglySorted Z.lt l -> StronglySorted Z.lt (List.filter f l).
Proof.
  induction 1 as [|x l Hs IH Hall]; simpl; [constructor|].
  destruct (f x); [|exact IH]. constructor; [exact IH|].
  apply Forall_forall. intros y Hy. apply filter_In in Hy as [Hy _].
  rewrite Forall_forall in Hall. apply Hall. exact Hy.
Qed.

(** X1: [GetUsedPorts] lists exactly the ports of the range that fail the
    tcp bind test, each once and in increasing order. *)
Theorem used_ports_exact (startPort endPort : Z) :
  (forall q, In q (GetUsedPorts os startPort endPort) <->
             startPort <= q <= endPort /\ IsPortAvailable os q "tcp" = false)
  /\ StronglySorted Z.lt (GetUsedPorts os startPort endPort).
Proof.
  unfold GetUsedPorts. rewrite usedPorts_filter. simpl. split.
  - intros q. rewrite filter_In, In_seqZ_range, negb_true_iff. tauto.
  - apply filter_sorted, seqZ_sorted.
Qed.

(** X2: [FindAvailablePort] for tcp returns the least port of the range
    that [GetUsedPorts] does not list, and fails exactly when
    [GetUsedPorts] lists the whole range. *)
Theorem find_available_skips_used (startPort endPort : Z) :
  (forall p, FindAvailablePort os startPort endPort "tcp" = Some p ->
     startPort <= p <= endPort
     /\ ~ In p (GetUsedPorts os startPort endPort)
     /\ forall q, startPort <= q < p -> In q (GetUsedPorts os startPort endPort))
  /\ (FindAvailablePort os startPort endPort "tcp" = None <->
      GetUsedPorts os startPort endPort = seqZ startPort (endPort - startPort + 1)).
Proof.
  assert (Hused : forall q, In q (GetUsedPorts os startPort endPort) <->
             startPort <= q <= endPort /\ IsPortAvailable os q "tcp" = false).
  { unfold GetUsedPorts. rewrite usedPorts_filter. simpl.
    intros q. rewrite filter_In, In_seqZ_range, negb_true_iff. tauto. }
  assert (Hfind : FindAvailablePort os startPort endPort "tcp"
                  = firstAvailable os [] startPort endPort "tcp") by reflexivity.
  split.
  - intros p Hp. rewrite Hfind in Hp.
    apply firstAvailable_Some in Hp as (Hr & Hav & Hfirst). simpl in Hav.
    split; [exact Hr|]. split.
    + rewrite Hused. intros [_ Hbusy]. unfold isPortAvailableForAllocation in Hav.
      simpl in Hav. congruence.
    + intros q Hq. apply Hused. split; [lia|]. exact (Hfirst q Hq).
  - unfold GetUsedPorts. rewrite usedPorts_filter. simpl. unfold FindAvailablePort.
    generalize (seqZ startPort (endPort - startPort + 1)) as l.
    induction l as [|x l IH]; simpl; [tauto|].
    destruct (IsPortAvailable os x "tcp") eqn:Hx; simpl.
    + split; [discriminate|]. intros Heq.
      assert (Hlen := f_equal (@length Z) Heq). simpl in Hlen.
      pose proof (filter_length_le (fun p => negb (IsPortAvailable os p "tcp")) l).
      lia.
    + rewrite IH. split; [intros ->; reflexivity|intros [= H]; exact H].
Qed.

End More.

End port_more.

Module allocator_more.
Import model port port_facts port_examples port_proofs.

Local Arguments seqZ : simpl never.
Local Arguments firstAvailable : simpl never.

(** A host with nothing to give: every bind fails. *)
Definition fullHost : Host := mkHost (fun _ => false) (fun _ => false).

Section AllocatorMore.

Variable os : Host.

Lemma findAvailable_first ex a b pr :
  findAvailablePortExcludingExisting os ex a b pr = firstAvailable os ex a b pr.
Proof. reflexivity. Qed.

(** X3: when the shifted port exceeds 65535 the block scan is skipped: the
    host port is the first available port of 49152..65535, and without one
    [AllocatePort] fails with the overflow error. *)
Theorem overflow_uses_dynamic_range ex orig idx svc proto :
  0 <= idx <= maxWorktreeIndex ->
  maxPort < shiftCandidate orig idx ->
  match findAvailablePortExcludingExisting os ex dynamicRangeStart dynamicRangeEnd
          (defaultProtocol proto) with
  | Some p =>
      AllocatePort os ex orig idx svc proto
        = Ok (mkPortAllocation svc orig p (defaultProtocol proto) "")
      /\ dynamicRangeStart <= p <= dynamicRangeEnd
      /\ isPortAvailableForAllocation os ex p (defaultProtocol proto) = true
      /\ (forall q, dynamicRangeStart <= q < p ->
            isPortAvailableForAllocation os ex q (defaultProtocol proto) = false)
  | None =>
      AllocatePort os ex orig idx svc proto = Err (OverflowFallbackFailed orig idx)
  end.
Proof.
  intros Hidx Hover. unfold AllocatePort, maxWorktreeIndex in *.
  destruct (Z.ltb_spec idx 0); [lia|]. destruct (Z.gtb_spec idx 9); [lia|].
  cbn [orb].
  destruct (Z.gtb_spec (shiftCandidate orig idx) maxPort); [|lia].
  rewrite findAvailable_first.
  destruct (firstAvailable os ex dynamicRangeStart dynamicRangeEnd
              (defaultProtocol proto)) as [p|] eqn:Hf; [|reflexivity].
  apply firstAvailable_Some in Hf as (Hr & Hav & Hfirst). auto.
Qed.

(** X4: for an index in 0..9, [AllocatePort] fails exactly when the shifted
    port is out of range or unavailable, no port of the block after it is
    available and no port of 49152..65535 is available. *)
Theorem allocate_fails_iff_exhausted ex orig idx svc proto :
  0 <= idx <= maxWorktreeIndex ->
  is_ok (AllocatePort os ex orig idx svc proto) = false
  <-> (maxPort < shiftCandidate orig idx
       \/ isPortAvailableForAllocation os ex (shiftCandidate orig idx)
            (defaultProtocol proto) = false)
      /\ (forall q, shiftCandidate orig idx < q ->
            q <= shiftCandidate orig idx + portShiftMultiplier - 1 -> q <= maxPort ->
            isPortAvailableForAllocation os ex q (defaultProtocol proto) = false)
      /\ (forall q, dynamicRangeStart <= q <= dynamicRangeEnd ->
            isPortAvailableForAllocation os ex q (defaultProtocol proto) = false).
Proof.
  intros Hidx. unfold AllocatePort, maxWorktreeIndex in *.
  destruct (Z.ltb_spec idx 0); [lia|]. destruct (Z.gtb_spec idx 9); [lia|].
  cbn [orb].
  set (cand := shiftCandidate orig idx). set (pr := defaultProtocol proto).
  rewrite !findAvailable_first. unfold blockScan.
  assert (Hblock : forall p, firstAvailable os ex (cand + 1) (blockEnd cand) pr = Some p ->
            cand < p /\ p <= cand + portShiftMultiplier - 1 /\ p <= maxPort
            /\ isPortAvailableForAllocation os ex p pr = true).
  { intros p Hp. apply firstAvailable_Some in Hp as (Hr & Hav & _).
    rewrite blockEnd_spec in Hr. unfold portShiftMultiplier, maxPort. repeat split; auto; lia. }
  assert (Hnoblock : firstAvailable os ex (cand + 1) (blockEnd cand) pr = None ->
            forall q, cand < q -> q <= cand + portShiftMultiplier - 1 -> q <= maxPort ->
                      isPortAvailableForAllocation os ex q pr = false).
  { intros Hn q H1 H2 H3. apply (firstAvailable_None _ _ _ _ _ Hn).
    rewrite blockEnd_spec. unfold portShiftMultiplier, maxPort in *. lia. }
  destruct (Z.gtb_spec cand maxPort) as [Hover|Hin].
  - destruct (firstAvailable os ex dynamicRangeStart dynamicRangeEnd pr) as [p|] eqn:Hf; simpl.
    + split; [discriminate|]. intros (_ & _ & Hdyn).
      apply firstAvailable_Some in Hf as (Hr & Hav & _). rewrite (Hdyn p Hr) in Hav.
      discriminate.
    + split; [|reflexivity]. intros _. split; [left; lia|]. split.
      * intros q H1 _ H3. lia.
      * exact (firstAvailable_None _ _ _ _ _ Hf).
  - destruct (isPortAvailableForAllocation os ex cand pr) eqn:Hav; simpl.
    + split; [discriminate|]. intros ([Hc|Hc] & _); [lia|discriminate].
    + destruct (firstAvailable os ex (cand + 1) (blockEnd cand) pr) as [p|] eqn:Hb; simpl.
      * split; [discriminate|]. intros (_ & Hblk & _).
        destruct (Hblock p eq_refl) as (H1 & H2 & H3 & H4).
        rewrite (Hblk p H1 H2 H3) in H4. discriminate.
      * destruct (firstAvailable os ex dynamicRangeStart dynamicRangeEnd pr) as [p|] eqn:Hf; simpl.
        -- split; [discriminate|]. intros (_ & _ & Hdyn).
           apply firstAvailable_Some in Hf as (Hr & Hav' & _). rewrite (Hdyn p Hr) in Hav'.
           discriminate.
        -- split; [|reflexivity]. intros _. split; [right; reflexivity|]. split.
           ++ exact (Hnoblock eq_refl).
           ++ exact (firstAvailable_None _ _ _ _ _ Hf).
Qed.

(** Every port a batch allocates passed the availability check against the
    allocations known when it was chosen. *)
Lemma allocateLoop_bindable idx ports : forall ex allocs res ex',
  allocateLoop os ex allocs ports idx = (Ok res, ex') ->
  Forall (fun r => IsPortAvailable os (HostPort r) (Protocol r) = true) allocs ->
  Forall (fun r => IsPortAvailable os (HostPort r) (Protocol r) = true) res.
Proof.
  induction ports as [|ps rest IH]; intros ex allocs res ex'; simpl.
  - intros [= <- <-] H. exact H.
  - destruct (AllocatePort os ex (ps_ContainerPort ps) idx (ps_ServiceName ps)
                (defaultProtocol (ps_Protocol ps))) as [alloc|e] eqn:Halloc;
      [|discriminate].
    apply AllocatePort_Ok in Halloc as (_ & _ & _ & _ & _ & Hav & _).
    intros Hloop Hacc. apply (IH _ _ _ _ Hloop).
    apply Forall_app. split; [exact Hacc|]. constructor; [|constructor]. simpl.
    unfold isPortAvailableForAllocation in Hav.
    destruct (existsb _ ex); [discriminate|exact Hav].
Qed.

(** X5: every host port of a successful batch passed the bind test of the
    operating system for its protocol. *)
Theorem batch_ports_passed_bind_test ex ports idx res :
  AllocatePorts os ex ports idx = Ok res ->
  Forall (fun r => IsPortAvailable os (HostPort r) (Protocol r) = true) res.
Proof.
  unfold AllocatePorts. intros H.
  destruct (allocateLoop os ex [] ports idx) as [r ex'] eqn:Hloop. simpl in H. subst r.
  apply (allocateLoop_bindable _ _ _ _ _ _ Hloop). constructor.
Qed.

(** X6: a batch that contains a PortSpec whose protocol is neither empty,
    tcp nor udp fails on every host and for every index. *)
Theorem unknown_protocol_fails_batch ex ports idx s :
  In s ports ->
  ps_Protocol s <> "" -> ps_Protocol s <> "tcp" -> ps_Protocol s <> "udp" ->
  is_ok (AllocatePorts os ex ports idx) = false.
Proof.
  intros Hin Hne Htcp Hudp. unfold AllocatePorts.
  destruct (allocateLoop os ex [] ports idx) as [[res|e] ex'] eqn:Hloop; [|reflexivity].
  exfalso. apply allocateLoop_Ok in Hloop as (new & _ & _ & _ & _ & Hall & _).
  clear ex'. induction Hall as [|s' r ports new Hsr Hall IH]; [destruct Hin|].
  destruct Hin as [->|Hin]; [|exact (IH Hin)].
  destruct Hsr as (_ & _ & _ & Hp & Htu & _).
  unfold defaultProtocol in Hp. destruct (String.eqb_spec (ps_Protocol s) ""); [contradiction|].
  rewrite Hp in Htu. destruct Htu; contradiction.
Qed.

(** How far a batch got: the allocations registered in the allocator after
    the call. *)
Lemma allocateLoop_prefix idx ports : forall ex allocs r ex',
  allocateLoop os ex allocs ports idx = (r, ex') ->
  exists n made,
    (n <= length ports)%nat
    /\ allocateLoop os ex allocs (firstn n ports) idx = (Ok (allocs ++ made), ex ++ made)
    /\ ex' = ex ++ made
    /\ length made = n
    /\ (is_ok r = true -> n = length ports /\ r = Ok (allocs ++ made))
    /\ (is_ok r = false -> (n < length ports)%nat).
Proof.
  induction ports as [|ps rest IH]; intros ex allocs r ex'; simpl.
  - intros [= <- <-]. exists 0%nat, []. simpl. rewrite !app_nil_r.
    repeat split; auto. discriminate.
  - destruct (AllocatePort os ex (ps_ContainerPort ps) idx (ps_ServiceName ps)
                (defaultProtocol (ps_Protocol ps))) as [alloc|e] eqn:Halloc.
    + intros Hloop. apply IH in Hloop as (n & made & Hn & Hrun & -> & Hlen & Hok & Herr).
      exists (S n), (withLabel alloc (ps_Label ps) :: made).
      rewrite <- !app_assoc in *. simpl app in *.
      split; [simpl; lia|]. split.
      { simpl. rewrite Halloc. exact Hrun. }
      split; [reflexivity|]. split; [simpl; lia|]. split.
      * intros H. destruct (Hok H) as [-> ->]. split; reflexivity.
      * intros H. specialize (Herr H). simpl. lia.
    + intros [= <- <-]. exists 0%nat, []. simpl. rewrite !app_nil_r.
      repeat split; auto; try lia; discriminate.
Qed.

(** X7: [AllocatePorts] appends to the allocator's known allocations while
    it runs: after a success they are the old ones followed by the result;
    after a failure they are the old ones followed by the allocations made
    for the ports before the failing one, which stay registered. *)
Theorem batch_registers_allocations ex ports idx :
  let final := snd (allocateLoop os ex [] ports idx) in
  (forall res, AllocatePorts os ex ports idx = Ok res -> final = ex ++ res)
  /\ (is_ok (AllocatePorts os ex ports idx) = false ->
      exists n made,
        (n < length ports)%nat
        /\ AllocatePorts os ex (firstn n ports) idx = Ok made
        /\ length made = n
        /\ final = ex ++ made).
Proof.
  simpl. unfold AllocatePorts.
  destruct (allocateLoop os ex [] ports idx) as [r ex'] eqn:Hloop. simpl.
  apply allocateLoop_prefix in Hloop as (n & made & Hn & Hrun & -> & Hlen & Hok & Herr).
  split.
  - intros res ->. destruct (Hok eq_refl) as [_ [= ->]]. reflexivity.
  - intros Hr. exists n, made. rewrite Hrun. simpl. auto.
Qed.

End AllocatorMore.

Lemma overflow_uses_dynamic_range_witness :
  AllocatePort idleHost [] 8000 7 "app" "tcp"
    = Ok (mkPortAllocation "app" 8000 49152 "tcp" "").
Proof.
  pose proof (overflow_uses_dynamic_range idleHost [] 8000 7 "app" "tcp") as H.
  replace (findAvailablePortExcludingExisting idleHost [] dynamicRangeStart
             dynamicRangeEnd (defaultProtocol "tcp"))
    with (Some 49152) in H by (vm_compute; reflexivity).
  apply H; [unfold maxWorktreeIndex; lia | vm_compute; reflexivity].
Defined.

Lemma allocate_fails_iff_exhausted_witness :
  is_ok (AllocatePort fullHost [] 3000 1 "app" "tcp") = false.
Proof.
  apply (allocate_fails_iff_exhausted fullHost [] 3000 1 "app" "tcp");
    [unfold maxWorktreeIndex; lia|].
  split; [right; reflexivity|]. split; intros; reflexivity.
Defined.

Lemma batch_ports_passed_bind_test_witness :
  Forall (fun r => IsPortAvailable busy13000 (HostPort r) (Protocol r) = true)
    [mkPortAllocation "web" 3000 13001 "tcp" "Application";
     mkPortAllocation "api" 3000 13002 "tcp" "API"].
Proof.
  apply (batch_ports_passed_bind_test busy13000 [] twoServices 1).
  vm_compute. reflexivity.
Defined.

Lemma unknown_protocol_fails_batch_witness :
  is_ok (AllocatePorts idleHost [] [mkPortSpec "app" 3000 0 "sctp" ""] 1) = false.
Proof.
  apply (unknown_protocol_fails_batch idleHost [] _ 1 (mkPortSpec "app" 3000 0 "sctp" ""));
    [left; reflexivity | discriminate | discriminate | discriminate].
Defined.

Definition webThenSctp : list PortSpec :=
  [mkPortSpec "web" 3000 0 "tcp" ""; mkPortSpec "dns" 53 0 "sctp" ""].

Lemma batch_registers_allocations_witness :
  exists n made,
    (n < length webThenSctp)%nat
    /\ AllocatePorts busy13000 [] (firstn n webThenSctp) 1 = Ok made
    /\ length made = n
    /\ snd (allocateLoop busy13000 [] [] webThenSctp 1) = [] ++ made.
Proof.
  assert (Hfail : is_ok (AllocatePorts busy13000 [] webThenSctp 1) = false)
    by (vm_compute; reflexivity).
  exact (proj2 (batch_registers_allocations busy13000 [] webThenSctp 1) Hfail).
Defined.

End allocator_more.

(** * More of the model package: statuses, validation of port allocations
      and the shape of valid names *)

Module validation.
Import model.

(** [type WorktreeStatus string] with its three constants. *)
Definition WorktreeStatus := string.
Definition StatusRunning : WorktreeStatus := "running".
Definition StatusStopped : WorktreeStatus := "stopped".
Definition StatusOrphaned : WorktreeStatus := "orphaned".

(** [WorktreeStatus.IsValid]. *)
Definition StatusIsValid (s : WorktreeStatus) : bool :=
  String.eqb s StatusRunning || String.eqb s StatusStopped || String.eqb s StatusOrphaned.

Inductive ValidateError : Type :=
| EmptyServiceName
| ContainerPortOutOfRange (containerPort : Z)
| HostPortOutOfRange (hostPort : Z)
| InvalidProtocol (protocol : string)
| HostPortUsedTwice (key existingService service : string).

Definition setProtocol (p : PortAllocation) (protocol : string) : PortAllocation :=
  {| ServiceName := ServiceName p;
     ContainerPort := ContainerPort p;
     HostPort := HostPort p;
     Protocol := protocol;
     Label := Label p |}.

(** [PortAllocation.Validate]. The receiver is a pointer and an empty
    protocol is overwritten with tcp, so the allocation after the call is
    returned with the error ([None] for nil). *)
Definition Validate (p : PortAllocation) : PortAllocation * option ValidateError :=
  if String.eqb (ServiceName p) "" then (p, Some EmptyServiceName)
  else if (ContainerPort p <? 1) || (ContainerPort p >? 65535) then
    (p, Some (ContainerPortOutOfRange (ContainerPort p)))
  else if (HostPort p <? 1024) || (HostPort p >? 65535) then
    (p, Some (HostPortOutOfRange (HostPort p)))
  else
    let p := if String.eqb (Protocol p) "" then setProtocol p "tcp" else p in
    if negb (String.eqb (Protocol p) "tcp") && negb (String.eqb (Protocol p) "udp") then
      (p, Some (InvalidProtocol (Protocol p)))
    else (p, None).

(** The key of the [seen] map: [fmt.Sprintf("%d/%s", HostPort, Protocol)]. *)
Definition seenKey (p : PortAllocation) : string :=
  strconv.Itoa (HostPort p) +:+ "/" +:+ Protocol p.

(** The loop of [ValidatePortAllocations] from index [len(done)] on: [done]
    are the elements already visited, as the calls of [Validate] left them. *)
Fixpoint validateLoop
    (allocations : list PortAllocation) (seen : gmap string string)
    (done : list PortAllocation)
    : list PortAllocation * option ValidateError :=
  match allocations with
  | [] => (done, None)
  | a :: rest =>
      match Validate a with
      | (a', Some err) => (done ++ a' :: rest, Some err)
      | (a', None) =>
          let key := seenKey a' in
          match seen !! key with
          | Some existingService =>
              (done ++ a' :: rest,
               Some (HostPortUsedTwice key existingService (ServiceName a')))
          | None => validateLoop rest (<[key := ServiceName a']> seen) (done ++ [a'])
          end
      end
  end.

(** [ValidatePortAllocations]: the slice after the call and the error. *)
Definition ValidatePortAllocations (allocations : list PortAllocation)
    : list PortAllocation * option ValidateError :=
  validateLoop allocations ∅ [].

End validation.

Module validation_facts.
Import model port port_facts port_examples port_proofs validation strconv_facts.

(** What [Validate] accepts. *)
Definition validAllocation (p : PortAllocation) : Prop :=
  ServiceName p <> ""
  /\ 1 <= ContainerPort p <= 65535
  /\ 1024 <= HostPort p <= 65535
  /\ (Protocol p = "" \/ Protocol p = "tcp" \/ Protocol p = "udp").

(** An allocation as [Validate] leaves it. *)
Definition normalized (p : PortAllocation) : PortAllocation :=
  setProtocol p (defaultProtocol (Protocol p)).

Lemma setProtocol_same p : setProtocol p (Protocol p) = p.
Proof. destruct p; reflexivity. Qed.

Lemma Validate_None p :
  snd (Validate p) = None <-> validAllocation p.
Proof.
  unfold Validate, validAllocation.
  destruct (String.eqb_spec (ServiceName p) ""); simpl.
  { split; [discriminate|]. intros [Hx _]. contradiction. }
  destruct (Z.ltb_spec (ContainerPort p) 1); simpl.
  { split; [discriminate|]. lia. }
  destruct (Z.gtb_spec (ContainerPort p) 65535); simpl.
  { split; [discriminate|]. lia. }
  destruct (Z.ltb_spec (HostPort p) 1024); simpl.
  { split; [discriminate|]. lia. }
  destruct (Z.gtb_spec (HostPort p) 65535); simpl.
  { split; [discriminate|]. lia. }
  destruct (String.eqb_spec (Protocol p) "") as [He|He]; simpl.
  { split; [intros _|reflexivity]. repeat split; auto; lia. }
  destruct (String.eqb_spec (Protocol p) "tcp"); simpl.
  { split; [intros _|reflexivity]. repeat split; auto; lia. }
  destruct (String.eqb_spec (Protocol p) "udp"); simpl.
  { split; [intros _|reflexivity]. repeat split; auto; lia. }
  split; [discriminate|]. intros (_ & _ & _ & [Hx|[Hx|Hx]]); contradiction.
Qed.

Lemma Validate_fst p :
  snd (Validate p) = None -> fst (Validate p) = normalized p.
Proof.
  unfold Validate, normalized, defaultProtocol.
  destruct (String.eqb (ServiceName p) ""); [discriminate|].
  destruct ((ContainerPort p <? 1) || (ContainerPort p >? 65535)); [discriminate|].
  destruct ((HostPort p <? 1024) || (HostPort p >? 65535)); [discriminate|].
  destruct (String.eqb_spec (Protocol p) "") as [He|He]; simpl.
  - reflexivity.
  - destruct (negb (Protocol p =? "tcp")%string && negb (Protocol p =? "udp")%string);
      [discriminate|]. intros _. simpl. symmetry. apply setProtocol_same.
Qed.

Lemma string_length_app (x y : string) :
  String.length (x +:+ y) = (String.length x + String.length y)%nat.
Proof.
  induction x as [|c x IH]; [reflexivity|].
  change (S (String.length (x +:+ y)) = S (String.length x + String.length y)).
  rewrite IH. reflexivity.
Qed.

(** Two texts with suffixes of one length are equal only part by part. *)
Lemma append_inj_suffix (x : string) : forall y s t,
  x +:+ s = y +:+ t -> String.length s = String.length t -> x = y /\ s = t.
Proof.
  induction x as [|c x IH]; intros [|d y] s t H Hlen.
  - change (s = t) in H. auto.
  - exfalso. change (s = String d (y +:+ t)) in H. subst s.
    simpl in Hlen. rewrite string_length_app in Hlen. lia.
  - exfalso. change (String c (x +:+ s) = t) in H. subst t.
    simpl in Hlen. rewrite string_length_app in Hlen. lia.
  - change (String c (x +:+ s) = String d (y +:+ t)) in H.
    injection H as -> H. destruct (IH _ _ _ H Hlen) as [-> ->]. auto.
Qed.

(** The key of the [seen] map identifies the host port and the protocol of
    a validated allocation. *)
Lemma seenKey_inj p q :
  validAllocation p -> validAllocation q ->
  seenKey (normalized p) = seenKey (normalized q) ->
  portKey (normalized p) = portKey (normalized q).
Proof.
  intros (_ & _ & Hp & Hpp) (_ & _ & Hq & Hqp). unfold seenKey, portKey, normalized. simpl.
  intros H. apply append_inj_suffix in H as [Hport Hproto].
  - apply Itoa_inj in Hport; unfold is_int, int_min, int_max; try lia.
    change (String "/" (defaultProtocol (Protocol p))
            = String "/" (defaultProtocol (Protocol q))) in Hproto.
    injection Hproto as Hproto. congruence.
  - unfold defaultProtocol.
    destruct Hpp as [-> | [-> | ->]]; destruct Hqp as [-> | [-> | ->]]; reflexivity.
Qed.

Lemma validateLoop_spec allocations : forall seen done,
  (forall key, is_Some (seen !! key) <-> In key (List.map seenKey done)) ->
  (snd (validateLoop allocations seen done) = None
   <-> Forall validAllocation allocations
       /\ (forall a, In a allocations ->
             ~ In (seenKey (normalized a)) (List.map seenKey done))
       /\ NoDup (List.map seenKey (List.map normalized allocations)))
  /\ (snd (validateLoop allocations seen done) = None ->
      fst (validateLoop allocations seen done)
      = done ++ List.map normalized allocations).
Proof.
  induction allocations as [|a rest IH]; intros seen done Hseen; simpl.
  { rewrite app_nil_r. split; [|reflexivity]. split; [intros _|reflexivity].
    split; [constructor|]. split; [intros a []|constructor]. }
  pose proof (Validate_None a) as Hval. pose proof (Validate_fst a) as Hfst.
  destruct (Validate a) as [a' [err|]]; simpl in Hval, Hfst.
  { simpl. split; [|discriminate]. split; [discriminate|].
    intros (Hall & _). inversion Hall as [|? ? Ha _]; subst.
    apply Hval in Ha. discriminate. }
  specialize (Hfst eq_refl). subst a'.
  assert (Ha : validAllocation a) by (apply Hval; reflexivity).
  destruct (seen !! seenKey (normalized a)) as [existingService|] eqn:Hk; simpl.
  { split; [|discriminate]. split; [discriminate|].
    intros (_ & Hfresh & _). exfalso. apply (Hfresh a); [left; reflexivity|].
    apply Hseen. rewrite Hk. eauto. }
  assert (Hnew : ~ In (seenKey (normalized a)) (List.map seenKey done)).
  { intros Hin. apply Hseen in Hin. rewrite Hk in Hin. destruct Hin; discriminate. }
  destruct (IH (<[seenKey (normalized a) := ServiceName (normalized a)]> seen)
               (done ++ [normalized a])) as [IHiff IHfst].
  { intros key. rewrite map_app, in_app_iff. simpl.
    destruct (String.eqb_spec (seenKey (normalized a)) key) as [->|Hne].
    - rewrite lookup_insert_eq. split; [auto|eauto].
    - rewrite lookup_insert_ne by exact Hne. rewrite Hseen. tauto. }
  split.
  - rewrite IHiff. split.
    + intros (Hall & Hfresh & Hnd). split; [constructor; assumption|]. split.
      * intros b [<-|Hb]; [exact Hnew|].
        intros Hin. apply (Hfresh b Hb). rewrite map_app, in_app_iff. auto.
      * apply List.NoDup_cons; [|exact Hnd].
        intros Hin. apply in_map_iff in Hin as (b' & Hb' & Hin).
        apply in_map_iff in Hin as (b & <- & Hb).
        apply (Hfresh b Hb). rewrite map_app, in_app_iff. right. simpl. auto.
    + intros (Hall & Hfresh & Hnd). inversion Hall as [|? ? _ Hrest]; subst.
      inversion Hnd as [|? ? Hnotin Hnd']; subst.
      split; [exact Hrest|]. split; [|exact Hnd'].
      intros b Hb. rewrite map_app, in_app_iff. simpl. intros [Hin|[Heq|[]]].
      * exact (Hfresh b (or_intror Hb) Hin).
      * apply Hnotin. rewrite Heq. apply in_map, in_map. exact Hb.
  - intros H. etransitivity; [exact (IHfst H)|]. rewrite <- app_assoc. reflexivity.
Qed.

Lemma NoDup_map_equiv {A B C : Type} (f : A -> B) (g : A -> C) (l : list A) :
  (forall x y, In x l -> In y l -> f x = f y <-> g x = g y) ->
  NoDup (List.map f l) <-> NoDup (List.map g l).
Proof.
  induction l as [|x l IH]; intros H; simpl.
  - split; intros _; constructor.
  - assert (IH' : NoDup (List.map f l) <-> NoDup (List.map g l)).
    { apply IH. intros a b Ha Hb. apply H; right; assumption. }
    split; intros Hnd; inversion Hnd as [|? ? Hnotin Hnd']; subst;
      (apply List.NoDup_cons; [|apply IH'; exact Hnd']);
      intros Hin; apply Hnotin; apply in_map_iff in Hin as (y & Hy & Hin);
      apply in_map_iff; exists y; (split; [|exact Hin]);
      apply (H y x (or_intror Hin) (or_introl eq_refl)); exact Hy.
Qed.

Lemma seenKeys_NoDup allocations :
  Forall validAllocation allocations ->
  NoDup (List.map seenKey (List.map normalized allocations))
  <-> NoDup (List.map (fun p => (HostPort p, defaultProtocol (Protocol p))) allocations).
Proof.
  intros Hall. rewrite List.map_map. rewrite Forall_forall in Hall.
  apply (NoDup_map_equiv (fun p => seenKey (normalized p))
           (fun p => (HostPort p, defaultProtocol (Protocol p)))).
  intros x y Hx Hy. split.
  - exact (seenKey_inj x y (Hall x Hx) (Hall y Hy)).
  - intros [= H1 H2]. unfold seenKey, normalized. simpl. rewrite H1, H2. reflexivity.
Qed.

Lemma empty_seen (key : string) :
  is_Some ((∅ : gmap string string) !! key) <-> In key (List.map seenKey []).
Proof. rewrite lookup_empty. simpl. split; [intros [? ?]; discriminate|tauto]. Qed.

(** X8: [ValidatePortAllocations] returns nil exactly when every allocation
    has a non-empty service name, a container port in 1..65535, a host port
    in 1024..65535 and a protocol that is empty, tcp or udp, and no two
    allocations share the host port and the protocol once the empty
    protocol is read as tcp; the slice is then left with every empty
    protocol overwritten by tcp. *)
Theorem validate_allocations_iff (allocations : list PortAllocation) :
  (snd (ValidatePortAllocations allocations) = None
   <-> Forall validAllocation allocations
       /\ NoDup (List.map (fun p => (HostPort p, defaultProtocol (Protocol p)))
                   allocations))
  /\ (snd (ValidatePortAllocations allocations) = None ->
      fst (ValidatePortAllocations allocations) = List.map normalized allocations).
Proof.
  unfold ValidatePortAllocations.
  destruct (validateLoop_spec allocations ∅ [] empty_seen) as [Hiff Hfst].
  split; [|exact Hfst]. rewrite Hiff. simpl. split.
  - intros (Hall & _ & Hnd). split; [exact Hall|]. apply seenKeys_NoDup; assumption.
  - intros (Hall & Hnd). split; [exact Hall|]. split; [tauto|].
    apply seenKeys_NoDup; assumption.
Qed.

Section AllocatorOutput.

Variable os : Host.

(** X9: what [AllocatePorts] returns for an index in 1..9 and specs with a
    service name and a container port in 1..65535 passes
    [ValidatePortAllocations], which leaves it as it is. *)
Theorem allocated_batch_validates ex ports idx res :
  1 <= idx ->
  Forall (fun s => ps_ServiceName s <> "" /\ 1 <= ps_ContainerPort s <= 65535) ports ->
  AllocatePorts os ex ports idx = Ok res ->
  ValidatePortAllocations res = (res, None).
Proof.
  intros Hidx Hports Hres. unfold AllocatePorts in Hres.
  destruct (allocateLoop os ex [] ports idx) as [r ex'] eqn:Hloop. simpl in Hres. subst r.
  apply allocateLoop_Ok in Hloop as (new & -> & _ & Hnd & _ & Hall & Hrange).
  simpl.
  assert (Hvalid : Forall (fun r => validAllocation r /\ normalized r = r) new).
  { clear Hnd. induction Hall as [|s r ports new Hsr Hall IH]; [constructor|].
    inversion Hports as [|? ? [Hsvc Hcp] Hrest]; subst.
    assert (Hi : 0 <= idx <= maxWorktreeIndex) by (apply Hrange; discriminate).
    constructor; [|apply IH; [exact Hrest|intros _; exact Hi]].
    destruct Hsr as (Hs & Hc & _ & _ & Htu & Hmax & Hmin).
    assert (Hcand : shiftCandidate (ps_ContainerPort s) idx
                    = ps_ContainerPort s + idx * portShiftMultiplier).
    { unfold shiftCandidate. destruct (Z.eqb_spec idx 0); [lia|].
      apply int_wrap_id.
      unfold is_int, int_min, int_max, portShiftMultiplier, maxWorktreeIndex in *. lia. }
    rewrite Hcand in Hmin.
    unfold portShiftMultiplier, maxWorktreeIndex, maxPort, dynamicRangeStart in *.
    split.
    - unfold validAllocation. rewrite Hs, Hc.
      split; [exact Hsvc|]. split; [exact Hcp|]. split; [lia|]. tauto.
    - unfold normalized, defaultProtocol.
      destruct Htu as [Ht|Ht]; rewrite Ht; simpl; rewrite <- Ht; apply setProtocol_same. }
  assert (Hall' : Forall validAllocation new).
  { apply Forall_forall. intros r Hr. rewrite Forall_forall in Hvalid.
    exact (proj1 (Hvalid r Hr)). }
  assert (Hnorm : List.map normalized new = new).
  { rewrite <- (map_id new) at 2. apply map_ext_in. intros r Hr.
    rewrite Forall_forall in Hvalid. exact (proj2 (Hvalid r Hr)). }
  unfold ValidatePortAllocations.
  destruct (validateLoop_spec new ∅ [] empty_seen) as [Hiff Hfst].
  assert (Hnone : snd (validateLoop new ∅ []) = None).
  { apply Hiff. split; [exact Hall'|]. split; [simpl; tauto|].
    apply seenKeys_NoDup; [exact Hall'|].
    replace (List.map (fun p => (HostPort p, defaultProtocol (Protocol p))) new)
      with (List.map portKey new); [exact Hnd|].
    apply map_ext_in. intros r Hr. rewrite Forall_forall in Hvalid.
    pose proof (f_equal Protocol (proj2 (Hvalid r Hr))) as Hp. simpl in Hp.
    unfold portKey. rewrite Hp. reflexivity. }
  specialize (Hfst Hnone). simpl in Hfst. rewrite Hnorm in Hfst.
  destruct (validateLoop new ∅ []) as [l e]. simpl in *. congruence.
Qed.

End AllocatorOutput.

Lemma allocated_batch_validates_witness :
  AllocatePorts idleHost [] twoServices 1
    = Ok [mkPortAllocation "web" 3000 13000 "tcp" "Application";
          mkPortAllocation "api" 3000 13001 "tcp" "API"]
  /\ ValidatePortAllocations
       [mkPortAllocation "web" 3000 13000 "tcp" "Application";
        mkPortAllocation "api" 3000 13001 "tcp" "API"]
     = ([mkPortAllocation "web" 3000 13000 "tcp" "Application";
         mkPortAllocation "api" 3000 13001 "tcp" "API"], None).
Proof.
  assert (H : AllocatePorts idleHost [] twoServices 1
              = Ok [mkPortAllocation "web" 3000 13000 "tcp" "Application";
                    mkPortAllocation "api" 3000 13001 "tcp" "API"])
    by (vm_compute; reflexivity).
  split; [exact H|].
  apply (allocated_batch_validates idleHost [] twoServices 1).
  - lia.
  - repeat constructor; simpl; try discriminate; lia.
  - exact H.
Defined.

End validation_facts.

Module names_more.
Import model regexp regexp_facts cli cli_names.

Lemma star_class_inv p s :
  matches (Star (Class p)) s -> Forall (fun c => p c = true) s.
Proof.
  remember (Star (Class p)) as r eqn:Hr. intros H.
  induction H as [| | | | | |r0 s1 s2 H1 _ H2 IH2]; try discriminate.
  - constructor.
  - injection Hr as ->. inversion H1; subst. constructor; [assumption|].
    apply IH2. reflexivity.
Qed.

Lemma class_inv p s : matches (Class p) s -> exists c, s = [c] /\ p c = true.
Proof. intros H. inversion H; subst. eauto. Qed.

Lemma isAlnum_hyphen c : isAlnum c = true -> isAlnumHyphen c = true /\ c <> "-"%char.
Proof.
  intros H. split.
  - unfold isAlnumHyphen. rewrite H. reflexivity.
  - intros ->. discriminate.
Qed.

(** The texts of [nameRegex], by shape. *)
Lemma nameRegex_shape l :
  matches nameRegex l <->
  l <> [] /\ Forall (fun c => isAlnumHyphen c = true) l
  /\ hd "-"%char l <> "-"%char /\ last l "-"%char <> "-"%char.
Proof.
  split.
  - intros H. unfold nameRegex in H. inversion H as [| | |r1 r2 s Hl|r1 r2 s Hr| |]; subst.
    + apply cat_inv in Hl as (s1 & s2 & -> & H1 & H2).
      apply class_inv in H1 as (a & -> & Ha).
      apply cat_inv in H2 as (mid & s3 & -> & Hmid & H3).
      apply class_inv in H3 as (c & -> & Hc).
      apply star_class_inv in Hmid.
      destruct (isAlnum_hyphen a Ha) as [Ha1 Ha2].
      destruct (isAlnum_hyphen c Hc) as [Hc1 Hc2].
      split; [discriminate|]. split; [|split].
      * constructor; [exact Ha1|]. apply Forall_app. split; [exact Hmid|].
        constructor; [exact Hc1|constructor].
      * exact Ha2.
      * change ([a] ++ mid ++ [c]) with (a :: mid ++ [c]).
        rewrite app_comm_cons, last_last. exact Hc2.
    + apply class_inv in Hr as (a & -> & Ha).
      destruct (isAlnum_hyphen a Ha) as [Ha1 Ha2].
      split; [discriminate|]. split; [repeat constructor; exact Ha1|]. split; exact Ha2.
  - intros (Hne & Hall & Hhd & Hlast).
    destruct l as [|a l]; [congruence|]. simpl in Hhd.
    inversion Hall as [|? ? Ha Hrest]; subst.
    destruct (list_eq_nil_dec l) as [->|Hl].
    + apply nameRegex_matches_one. apply alnum_of_kept; assumption.
    + destruct (exists_last Hl) as (mid & c & ->).
      rewrite app_comm_cons, last_last in Hlast.
      apply Forall_app in Hrest as [Hmid Hc]. inversion Hc; subst.
      apply nameRegex_matches_many; [apply alnum_of_kept; assumption|exact Hmid|].
      apply alnum_of_kept; assumption.
Qed.

(** X10: [ValidateName] accepts exactly the non-empty names made of ASCII
    letters, digits and hyphens that neither start nor end with a hyphen. *)
Theorem valid_name_iff (name : string) :
  ValidateName name = None <->
  name <> ""
  /\ Forall (fun c => isAlnumHyphen c = true) (list_ascii_of_string name)
  /\ hd "-"%char (list_ascii_of_string name) <> "-"%char
  /\ last (list_ascii_of_string name) "-"%char <> "-"%char.
Proof.
  assert (Hnil : list_ascii_of_string name <> [] <-> name <> "").
  { destruct name; simpl; split; congruence. }
  rewrite <- Hnil, <- nameRegex_shape, <- matchList_matches.
  unfold ValidateName, MatchString.
  destruct (String.eqb_spec name "") as [->|Hne].
  - split; [discriminate|]. simpl. discriminate.
  - destruct (matchList nameRegex (list_ascii_of_string name)); simpl;
      split; congruence.
Qed.

End names_more.

(** * More of the docker package: what the label parsers accept, what
      [BuildLabels] writes, grouping and the lookup of an environment *)

Module environments.
Import model docker validation.

(** [FilterLabels]. *)
Definition FilterLabels : gmap string string :=
  <[LabelManagedBy := ManagedByValue]> ∅.

Inductive BuildError : Type :=
| NoContainersProvided (envName : string)
| LabelsFailed (envName : string) (cause : LabelError).

Inductive FindMsg : Type :=
| ListContainersFailed
| EnvironmentNotFound (envName : string)
| MetadataFailed (envName : string) (cause : BuildError).

Section Environments.

Context {Time : Type}.
Variable parseRFC3339 : string -> option Time.

(** [os.IsNotExist] of the error of [os.Stat] on a path. *)
Variable statNotExist : string -> bool.

(** [determineStatus]. *)
Definition determineStatus (containers : list ContainerInfo) (worktreePath : string)
    : WorktreeStatus :=
  if statNotExist worktreePath then StatusOrphaned
  else if existsb (fun c => String.eqb (ci_Status c) "running") containers then
    StatusRunning
  else StatusStopped.

(** [BuildWorktreeEnv]. *)
Definition BuildWorktreeEnv (envName : string) (containers : list ContainerInfo)
    : result BuildError (WorktreeEnv Time) :=
  match containers with
  | [] => Err (NoContainersProvided envName)
  | first :: _ =>
      match ParseLabels parseRFC3339 (Labels first) with
      | Err e => Err (LabelsFailed envName e)
      | Ok env =>
          Ok {| Name := Name env;
                Branch := Branch env;
                WorktreePath := WorktreePath env;
                SourceRepoPath := SourceRepoPath env;
                Status := determineStatus containers (WorktreePath env);
                ConfigPatternOf := ConfigPatternOf env;
                Containers := containers;
                PortAllocations := PortAllocations env;
                CreatedAt := CreatedAt env |}
      end
  end.

(** [findEnvironment]; [listing] is the result of
    [docker.ListManagedContainers]. *)
Definition findEnvironment
    (listing : option (list ContainerInfo)) (envName : string)
    : result (CLIError FindMsg) (WorktreeEnv Time * list ContainerInfo) :=
  match listing with
  | None => Err (mkCLIError ExitDockerNotRunning ListContainersFailed)
  | Some allContainers =>
      let groups := GroupContainersByEnv allContainers in
      match groups !! envName with
      | None => Err (mkCLIError ExitEnvNotFound (EnvironmentNotFound envName))
      | Some containers =>
          if (length containers =? 0)%nat then
            Err (mkCLIError ExitEnvNotFound (EnvironmentNotFound envName))
          else
            match BuildWorktreeEnv envName containers with
            | Err e => Err (mkCLIError ExitGeneralError (MetadataFailed envName e))
            | Ok env => Ok (env, containers)
            end
      end
  end.

End Environments.

End environments.

Module docker_more.
Import model docker docker_examples docker_facts strconv_facts strings_facts.
Import validation environments.

(** Whether a container carries the [worktree.name] label with this value. *)
Definition inEnv (name : string) (c : ContainerInfo) : bool :=
  match Labels c !! LabelName with
  | Some envName => String.eqb envName name
  | None => false
  end.

Definition groupStep (groups : gmap string (list ContainerInfo)) (c : ContainerInfo)
    : gmap string (list ContainerInfo) :=
  match Labels c !! LabelName with
  | Some envName =>
      if String.eqb envName "" then groups
      else <[envName := default [] (groups !! envName) ++ [c]]> groups
  | None => groups
  end.

Lemma GroupContainersByEnv_fold containers :
  GroupContainersByEnv containers = foldl groupStep ∅ containers.
Proof. reflexivity. Qed.

Lemma groupStep_fold containers : forall groups name,
  foldl groupStep groups containers !! name
  = if String.eqb name "" then groups !! name
    else match List.filter (inEnv name) containers with
         | [] => groups !! name
         | l => Some (default [] (groups !! name) ++ l)
         end.
Proof.
  induction containers as [|c rest IH]; intros groups name; simpl.
  - destruct (String.eqb name ""); reflexivity.
  - rewrite IH. destruct (String.eqb_spec name "") as [->|Hname].
    + unfold groupStep. destruct (Labels c !! LabelName) as [envName|]; [|reflexivity].
      destruct (String.eqb_spec envName ""); [reflexivity|].
      rewrite lookup_insert_ne by assumption. reflexivity.
    + unfold groupStep, inEnv.
      destruct (Labels c !! LabelName) as [envName|]; [|reflexivity].
      destruct (String.eqb_spec envName name) as [->|Hne].
      * destruct (String.eqb_spec name ""); [contradiction|].
        rewrite lookup_insert_eq. simpl.
        destruct (List.filter _ rest); [reflexivity|].
        rewrite <- app_assoc. reflexivity.
      * destruct (String.eqb_spec envName ""); [reflexivity|].
        rewrite lookup_insert_ne by assumption. reflexivity.
Qed.

(** X11: [GroupContainersByEnv] maps a name to the containers that carry it
    in their [worktree.name] label, in the order of the input; the empty
    name and names that no container carries are not keys. *)
Theorem groups_are_filters (containers : list ContainerInfo) (name : string) :
  GroupContainersByEnv containers !! name
  = if String.eqb name "" then None
    else match List.filter (inEnv name) containers with
         | [] => None
         | l => Some l
         end.
Proof.
  rewrite GroupContainersByEnv_fold, groupStep_fold, lookup_empty. reflexivity.
Qed.

Lemma determineStatus_valid (statNotExist : string -> bool) containers worktreePath :
  StatusIsValid (determineStatus statNotExist containers worktreePath) = true
  /\ (determineStatus statNotExist containers worktreePath = StatusOrphaned
      <-> statNotExist worktreePath = true)
  /\ (determineStatus statNotExist containers worktreePath = StatusRunning
      <-> statNotExist worktreePath = false
          /\ exists c, In c containers /\ ci_Status c = "running").
Proof.
  unfold determineStatus.
  destruct (statNotExist worktreePath).
  { split; [reflexivity|]. split; [tauto|]. split; [discriminate|].
    intros [? _]; discriminate. }
  destruct (existsb _ containers) eqn:Hex.
  - split; [reflexivity|]. split; [split; discriminate|].
    split; [intros _|reflexivity]. split; [reflexivity|].
    apply existsb_exists in Hex as (c & Hc & Hrun). apply String.eqb_eq in Hrun. eauto.
  - split; [reflexivity|]. split; [split; discriminate|].
    split; [discriminate|]. intros (_ & c & Hc & Hrun).
    assert (existsb (fun c => (ci_Status c =? "running")%string) containers = true).
    { apply existsb_exists. exists c. split; [exact Hc|]. apply String.eqb_eq. exact Hrun. }
    congruence.
Qed.

Section Find.

Context {Time : Type}.
Variable parseRFC3339 : string -> option Time.
Variable statNotExist : string -> bool.

Lemma ParseLabels_Name labels env :
  ParseLabels parseRFC3339 labels = Ok env -> Name env = at_key labels LabelName.
Proof.
  unfold ParseLabels.
  destruct (0 <? _); [discriminate|].
  destruct (negb _); [discriminate|].
  destruct (ParseConfigPattern _); [|discriminate].
  destruct (parseRFC3339 _); [|discriminate].
  destruct (ParsePortLabels labels); [|discriminate].
  intros [= <-]. reflexivity.
Qed.

(** X12: [findEnvironment] answers "not found" (exit code 6) exactly when
    the name is empty or no listed container carries it in its
    [worktree.name] label; when it succeeds the containers returned are
    the listed containers with that name in listing order, the environment
    holds the same containers and that name, and its status is orphaned
    exactly when the worktree path does not exist, whatever the state of
    the containers. *)
Theorem find_environment_spec (allContainers : list ContainerInfo) (envName : string) :
  let found := findEnvironment parseRFC3339 statNotExist (Some allContainers) envName in
  let members := List.filter (inEnv envName) allContainers in
  (found = Err (mkCLIError ExitEnvNotFound (EnvironmentNotFound envName))
   <-> envName = "" \/ members = [])
  /\ (forall env containers, found = Ok (env, containers) ->
        containers = members /\ Containers env = members /\ Name env = envName
        /\ StatusIsValid (Status env) = true
        /\ (Status env = StatusOrphaned <-> statNotExist (WorktreePath env) = true)).
Proof.
  simpl. unfold findEnvironment.
  rewrite GroupContainersByEnv_fold, groupStep_fold, lookup_empty.
  destruct (String.eqb_spec envName "") as [->|Hname].
  { split; [tauto|discriminate]. }
  destruct (List.filter (inEnv envName) allContainers) as [|first rest] eqn:Hmem.
  { split; [tauto|discriminate]. }
  simpl.
  assert (Hfirst : inEnv envName first = true).
  { assert (Hin : In first (List.filter (inEnv envName) allContainers))
      by (rewrite Hmem; left; reflexivity).
    apply filter_In in Hin. tauto. }
  destruct (ParseLabels parseRFC3339 (Labels first)) as [env0|e] eqn:Hparse.
  - split.
    + split; [discriminate|]. intros [?|?]; [contradiction|discriminate].
    + intros env containers [= <- <-]. simpl.
      split; [reflexivity|]. split; [reflexivity|]. split.
      * rewrite (ParseLabels_Name _ _ Hparse). unfold inEnv in Hfirst. unfold at_key.
        destruct (Labels first !! LabelName) as [n|]; [|discriminate].
        apply String.eqb_eq in Hfirst. exact Hfirst.
      * destruct (determineStatus_valid statNotExist (first :: rest) (WorktreePath env0))
          as (Hv & Ho & _). split; assumption.
  - split; [|discriminate].
    split; [discriminate|]. intros [?|?]; [contradiction|discriminate].
Qed.

End Find.

Lemma parsePortEntries_Ok_wf entries : forall allocations ports,
  parsePortEntries entries allocations = Ok ports -> Forall wellFormedEntry entries.
Proof.
  induction entries as [|[key value] rest IH]; intros allocations ports; simpl.
  - constructor.
  - destruct (strings.CutPrefix key LabelOriginalPortPrefix) as [portStr|] eqn:Hcut.
    + destruct (strconv.Atoi portStr) as [containerPort|] eqn:Hc; [|discriminate].
      destruct (strconv.Atoi value) as [hostPort|] eqn:Hh; [|discriminate].
      intros H. constructor; [|exact (IH _ _ H)].
      right. unfold decodeEntry. simpl. rewrite Hcut, Hc, Hh. eauto.
    + intros H. constructor; [left; exact Hcut|]. exact (IH _ _ H).
Qed.

(** X13: [ParsePortLabels] succeeds exactly when every label whose key
    starts with [worktree.original-port.] has a number after the prefix and
    a number as value, whatever the order in which the map is visited; the
    allocations it returns are the (container port, host port) pairs of
    these labels, each with protocol tcp and without service name or
    label. *)
Theorem port_labels_parse_iff (labels : gmap string string) :
  (is_ok (ParsePortLabels labels) = true
   <-> forall key value portStr,
         labels !! key = Some value ->
         strings.CutPrefix key LabelOriginalPortPrefix = Some portStr ->
         is_Some (strconv.Atoi portStr) /\ is_Some (strconv.Atoi value))
  /\ (forall ports, ParsePortLabels labels = Ok ports ->
        Forall (fun pa => ServiceName pa = "" /\ Protocol pa = "tcp" /\ Label pa = "") ports
        /\ forall c h,
             In (c, h) (List.map portPair ports)
             <-> exists key value portStr,
                   labels !! key = Some value
                   /\ strings.CutPrefix key LabelOriginalPortPrefix = Some portStr
                   /\ strconv.Atoi portStr = Some c /\ strconv.Atoi value = Some h).
Proof.
  unfold ParsePortLabels.
  assert (Hwf : Forall wellFormedEntry (map_to_list labels)
                <-> forall key value portStr,
                      labels !! key = Some value ->
                      strings.CutPrefix key LabelOriginalPortPrefix = Some portStr ->
                      is_Some (strconv.Atoi portStr) /\ is_Some (strconv.Atoi value)).
  { rewrite Forall_forall. split.
    - intros H key value portStr Hk Hcut.
      assert (Hin : In (key, value) (map_to_list labels))
        by (apply list_elem_of_In, elem_of_map_to_list; exact Hk).
      destruct (H _ Hin) as [Hnone|Hsome]; simpl in *; [congruence|].
      unfold decodeEntry in Hsome. simpl in Hsome. rewrite Hcut in Hsome.
      destruct (strconv.Atoi portStr); [|destruct Hsome; discriminate].
      destruct (strconv.Atoi value); [|destruct Hsome; discriminate].
      split; eauto.
    - intros H [key value] Hin. apply list_elem_of_In, elem_of_map_to_list in Hin.
      unfold wellFormedEntry, decodeEntry. simpl.
      destruct (strings.CutPrefix key LabelOriginalPortPrefix) as [portStr|] eqn:Hcut;
        [|left; reflexivity].
      destruct (H key value portStr Hin Hcut) as [[c ->] [h ->]]. right. eauto. }
  split.
  - rewrite <- Hwf. split.
    + destruct (parsePortEntries (map_to_list labels) []) as [ports|e] eqn:Hp;
        [|discriminate].
      intros _. exact (parsePortEntries_Ok_wf _ _ _ Hp).
    + intros H. rewrite (parsePortEntries_wf _ [] H). reflexivity.
  - intros ports Hp. pose proof (parsePortEntries_Ok_wf _ _ _ Hp) as H.
    rewrite (parsePortEntries_wf _ [] H) in Hp. injection Hp as <-. simpl.
    split.
    + apply Forall_forall. intros pa Hpa.
      apply list_elem_of_In, list_elem_of_omap in Hpa as ([key value] & _ & Hdec).
      unfold decodeEntry in Hdec. simpl in Hdec.
      destruct (strings.CutPrefix key LabelOriginalPortPrefix); [|discriminate].
      destruct (strconv.Atoi s); [|discriminate].
      destruct (strconv.Atoi value); [|discriminate].
      injection Hdec as <-. auto.
    + intros c h. rewrite in_map_iff. split.
      * intros (pa & Hpair & Hpa).
        apply list_elem_of_In, list_elem_of_omap in Hpa as ([key value] & Hin & Hdec).
        apply elem_of_map_to_list in Hin.
        unfold decodeEntry in Hdec. simpl in Hdec.
        destruct (strings.CutPrefix key LabelOriginalPortPrefix) as [portStr|] eqn:Hcut;
          [|discriminate].
        destruct (strconv.Atoi portStr) as [c'|] eqn:Hc; [|discriminate].
        destruct (strconv.Atoi value) as [h'|] eqn:Hh; [|discriminate].
        injection Hdec as <-. unfold portPair in Hpair. simpl in Hpair.
        injection Hpair as <- <-. exists key, value, portStr. auto.
      * intros (key & value & portStr & Hk & Hcut & Hc & Hh).
        exists (mkPortAllocation "" c h "tcp" ""). split; [reflexivity|].
        apply list_elem_of_In, list_elem_of_omap. exists (key, value).
        split; [apply elem_of_map_to_list; exact Hk|].
        unfold decodeEntry. simpl. rewrite Hcut, Hc, Hh. reflexivity.
Qed.

Section Parse.

Context {Time : Type}.
Variable parseRFC3339 : string -> option Time.
Variable formatRFC3339 : Time -> string.

(** Whether a key is missing from a label map. *)
Definition absent (labels : gmap string string) (key : string) : bool :=
  match labels !! key with Some _ => false | None => true end.

Lemma present_at_key (labels : gmap string string) key :
  absent labels key = false -> labels !! key = Some (at_key labels key).
Proof.
  unfold absent, at_key. destruct (labels !! key); [reflexivity|discriminate].
Qed.

(** X14: [ParseLabels] reports missing labels before any other check, and
    the keys it reports are the required keys that the map lacks, in the
    order of [requiredKeys]; an environment it returns comes from a map
    that has all seven required labels, is marked as managed by
    worktree-container, and gives the environment its name, branch and
    paths; its pattern is one of the four valid ones, and it has no status
    and no containers yet. *)
Theorem parse_labels_requirements (labels : gmap string string) :
  (forall missing,
     ParseLabels parseRFC3339 labels = Err (MissingLabels missing)
     <-> missing <> [] /\ missing = List.filter (absent labels) requiredKeys)
  /\ (forall env, ParseLabels parseRFC3339 labels = Ok env ->
        Forall (fun key => is_Some (labels !! key)) requiredKeys
        /\ labels !! LabelManagedBy = Some ManagedByValue
        /\ labels !! LabelName = Some (Name env)
        /\ labels !! LabelBranch = Some (Branch env)
        /\ labels !! LabelWorktreePath = Some (WorktreePath env)
        /\ labels !! LabelSourceRepo = Some (SourceRepoPath env)
        /\ IsValid (ConfigPatternOf env) = true
        /\ Status env = "" /\ Containers env = []).
Proof.
  unfold ParseLabels. fold (absent labels).
  destruct (List.filter (absent labels) requiredKeys) as [|k ks] eqn:Hmissing.
  - simpl. split.
    + intros missing. split.
      * destruct (negb _); [discriminate|].
        destruct (ParseConfigPattern _); [|discriminate].
        destruct (parseRFC3339 _); [|discriminate].
        destruct (ParsePortLabels labels); discriminate.
      * intros [Hne ->]. congruence.
    + assert (Hpresent : forall key, In key requiredKeys -> absent labels key = false).
      { intros key Hin. destruct (absent labels key) eqn:Ha; [|reflexivity].
        assert (Hf : In key (List.filter (absent labels) requiredKeys))
          by (apply filter_In; auto).
        rewrite Hmissing in Hf. destruct Hf. }
      intros env.
      destruct (String.eqb_spec (at_key labels LabelManagedBy) ManagedByValue)
        as [Hmanaged|]; [|discriminate]. simpl.
      destruct (ParseConfigPattern (at_key labels LabelConfigPattern))
        as [pattern|] eqn:Hpattern; [|discriminate].
      destruct (parseRFC3339 _); [|discriminate].
      destruct (ParsePortLabels labels); [|discriminate].
      intros [= <-]. simpl.
      split.
      { apply Forall_forall. intros key Hin.
        rewrite (present_at_key _ _ (Hpresent key Hin)). eauto. }
      split.
      { rewrite <- Hmanaged. apply present_at_key, Hpresent. simpl. auto. }
      split; [apply present_at_key, Hpresent; simpl; auto|].
      split; [apply present_at_key, Hpresent; simpl; auto|].
      split; [apply present_at_key, Hpresent; simpl; auto|].
      split; [apply present_at_key, Hpresent; simpl; auto 10|].
      split; [|auto].
      unfold ParseConfigPattern in Hpattern.
      destruct (IsValid (strings.ToLower (at_key labels LabelConfigPattern))) eqn:Hv;
        [|discriminate].
      simpl in Hpattern. injection Hpattern as <-. exact Hv.
  - simpl. split.
    + intros missing. split.
      * intros [= <-]. split; [discriminate|reflexivity].
      * intros [_ ->]. reflexivity.
    + discriminate.
Qed.

(** X15: whatever the port allocations, the labels [BuildLabels] writes
    contain the selector [FilterLabels] by which managed containers are
    listed, and the six labels of the environment's own fields with their
    values: no port label overwrites them. *)
Theorem build_labels_keeps_base (env : WorktreeEnv Time) :
  FilterLabels ⊆ BuildLabels formatRFC3339 env
  /\ BuildLabels formatRFC3339 env !! LabelName = Some (Name env)
  /\ BuildLabels formatRFC3339 env !! LabelBranch = Some (Branch env)
  /\ BuildLabels formatRFC3339 env !! LabelWorktreePath = Some (WorktreePath env)
  /\ BuildLabels formatRFC3339 env !! LabelSourceRepo = Some (SourceRepoPath env)
  /\ BuildLabels formatRFC3339 env !! LabelConfigPattern = Some (ConfigPatternOf env)
  /\ BuildLabels formatRFC3339 env !! LabelCreatedAt
     = Some (formatRFC3339 (CreatedAt env)).
Proof.
  split.
  { apply map_subseteq_spec. intros key value. unfold FilterLabels.
    rewrite lookup_insert_Some, lookup_empty.
    intros [[<- <-]|[_ ?]]; [|discriminate].
    rewrite docker_claims.BuildLabels_base by reflexivity.
    unfold docker_claims.baseLabels. docker_claims.lookup_base. reflexivity. }
  repeat split;
    (rewrite docker_claims.BuildLabels_base by reflexivity;
     unfold docker_claims.baseLabels; docker_claims.lookup_base; reflexivity).
Qed.

Lemma find_snoc {A : Type} (f : A -> bool) (l : list A) (a : A) :
  List.find f (l ++ [a])
  = match List.find f l with
    | Some x => Some x
    | None => if f a then Some a else None
    end.
Proof.
  induction l as [|x l IH]; simpl; [reflexivity|].
  destruct (f x); [reflexivity|exact IH].
Qed.

Lemma putPorts_last allocs : forall (base : gmap string string) c,
  is_int c ->
  Forall (fun pa => is_int (ContainerPort pa)) allocs ->
  foldl putPort base allocs !! BuildPortLabel c
  = match List.find (fun pa => ContainerPort pa =? c) (rev allocs) with
    | Some pa => Some (strconv.Itoa (HostPort pa))
    | None => base !! BuildPortLabel c
    end.
Proof.
  induction allocs as [|a rest IH]; intros base c Hc Hall; simpl; [reflexivity|].
  inversion Hall as [|? ? Ha Hrest]; subst.
  rewrite (IH _ c Hc Hrest), find_snoc.
  destruct (List.find _ (rev rest)); [reflexivity|].
  unfold putPort. destruct (Z.eqb_spec (ContainerPort a) c) as [->|Hne].
  - rewrite lookup_insert_eq. reflexivity.
  - rewrite lookup_insert_ne; [reflexivity|].
    intros Heq. apply BuildPortLabel_inj in Heq; auto.
Qed.

(** X16: the label of a container port holds the host port of the last
    allocation of that container port in [PortAllocations]; a container
    port that no allocation has gets no label. *)
Theorem build_labels_last_writer (env : WorktreeEnv Time) (c : Z) :
  is_int c ->
  Forall (fun pa => is_int (ContainerPort pa)) (PortAllocations env) ->
  BuildLabels formatRFC3339 env !! BuildPortLabel c
  = option_map (fun pa => strconv.Itoa (HostPort pa))
      (List.find (fun pa => ContainerPort pa =? c) (rev (PortAllocations env))).
Proof.
  intros Hc Hall. rewrite docker_claims.BuildLabels_fold, (putPorts_last _ _ c Hc Hall).
  destruct (List.find _ (rev (PortAllocations env))); [reflexivity|].
  simpl. apply docker_claims.baseLabels_port_free.
Qed.

End Parse.

Lemma build_labels_last_writer_witness :
  BuildLabels unixFormat sharedContainerPort !! BuildPortLabel 3000 = Some "13001".
Proof.
  apply (build_labels_last_writer unixFormat sharedContainerPort 3000).
  - unfold is_int, int_min, int_max. lia.
  - repeat constructor; unfold is_int, int_min, int_max; simpl; lia.
Defined.

End docker_more.

(** * More of the devcontainer package: port extraction, the other keys of
      the rewrite, and the Compose side *)

Module ports_config.
Import model devcontainer.

(** [strings.Cut(s, sep)] for a one-byte separator: the text before and
    after the first [sep]. *)
Fixpoint Cut (s : string) (sep : ascii) : option (string * string) :=
  match s with
  | EmptyString => None
  | String c rest =>
      if Ascii.eqb c sep then Some (EmptyString, rest)
      else match Cut rest sep with
           | Some (before, after) => Some (String c before, after)
           | None => None
           end
  end.

(** [strings.SplitN(s, sep, 2)] for a one-byte separator. *)
Definition SplitN (s : string) (sep : ascii) : list string :=
  match Cut s sep with
  | Some (before, after) => [before; after]
  | None => [s]
  end.

Record PortAttribute : Type := mkPortAttribute {
  pa_Label : string;
  OnAutoForward : string
}.

(** The fields of [RawDevContainer] that [ExtractPorts] reads. [AppPort] is
    an [interface{}] ([None] is nil); a nil [PortsAttributes] map reads as
    the empty map. *)
Record RawPorts : Type := mkRawPorts {
  ForwardPorts : list JSON;
  AppPort : option JSON;
  PortsAttributes : gmap string PortAttribute
}.

Definition setLabel (ps : PortSpec) (label : string) : PortSpec :=
  {| ps_ServiceName := ps_ServiceName ps;
     ps_ContainerPort := ps_ContainerPort ps;
     ps_HostPort := ps_HostPort ps;
     ps_Protocol := ps_Protocol ps;
     ps_Label := label |}.

Section Extract.

(** The conversion [int(v)] of a [float64]. *)
Variable toInt : Q -> Z.

(** [parseServicePort]. *)
Definition parseServicePort (s defaultServiceName : string) : option PortSpec :=
  match SplitN s ":" with
  | [service; portStr] =>
      match strconv.Atoi portStr with
      | None => None
      | Some port => Some (mkPortSpec service port 0 "tcp" "")
      end
  | _ =>
      match strconv.Atoi s with
      | None => None
      | Some port => Some (mkPortSpec defaultServiceName port 0 "tcp" "")
      end
  end.

(** [parseAppPortString]. *)
Definition parseAppPortString (s defaultServiceName : string) : option PortSpec :=
  match SplitN s ":" with
  | [hostStr; containerStr] =>
      match strconv.Atoi hostStr with
      | None => None
      | Some hostPort =>
          match strconv.Atoi containerStr with
          | None => None
          | Some containerPort =>
              Some (mkPortSpec defaultServiceName containerPort hostPort "tcp" "")
          end
      end
  | _ =>
      match strconv.Atoi s with
      | None => None
      | Some port => Some (mkPortSpec defaultServiceName port 0 "tcp" "")
      end
  end.

(** One element of [appPort], or [appPort] itself when it is no array. *)
Definition appendAppPortItem (defaultServiceName : string)
    (ports : list PortSpec) (item : JSON) : list PortSpec :=
  match item with
  | JNumber v => ports ++ [mkPortSpec defaultServiceName (toInt v) 0 "tcp" ""]
  | JString v =>
      match parseAppPortString v defaultServiceName with
      | Some ps => ports ++ [ps]
      | None => ports
      end
  | _ => ports
  end.

(** [parseAppPort]. *)
Definition parseAppPort (appPort : option JSON) (defaultServiceName : string)
    : list PortSpec :=
  match appPort with
  | None => []
  | Some (JArray v) => foldl (appendAppPortItem defaultServiceName) [] v
  | Some v => appendAppPortItem defaultServiceName [] v
  end.

(** One element of [forwardPorts]. *)
Definition appendForwardPort (defaultServiceName : string)
    (ports : list PortSpec) (fp : JSON) : list PortSpec :=
  match fp with
  | JNumber v => ports ++ [mkPortSpec defaultServiceName (toInt v) 0 "tcp" ""]
  | JString v =>
      match parseServicePort v defaultServiceName with
      | Some ps => ports ++ [ps]
      | None => ports
      end
  | _ => ports
  end.

(** Step 3 of [ExtractPorts] on one port. *)
Definition enrich (attributes : gmap string PortAttribute) (ps : PortSpec) : PortSpec :=
  match attributes !! strconv.Itoa (ps_ContainerPort ps) with
  | Some attr => setLabel ps (pa_Label attr)
  | None => ps
  end.

(** [ExtractPorts]. *)
Definition ExtractPorts (raw : RawPorts) (defaultServiceName : string)
    : list PortSpec :=
  let ports := foldl (appendForwardPort defaultServiceName) [] (ForwardPorts raw) in
  let ports := ports ++ parseAppPort (AppPort raw) defaultServiceName in
  List.map (enrich (PortsAttributes raw)) ports.

End Extract.

End ports_config.

Module ports_config_facts.
Import model devcontainer devcontainer_examples devcontainer_facts.
Import ports_config strconv_facts docker_facts.

Definition isDigit (c : ascii) : bool := (Ascii.leb "0" c && Ascii.leb c "9")%char.

Fixpoint allChars (p : ascii -> bool) (s : string) : bool :=
  match s with
  | EmptyString => true
  | String c rest => p c && allChars p rest
  end.

Lemma string_of_uint_digits d : allChars isDigit (NilEmpty.string_of_uint d) = true.
Proof. induction d; simpl; auto. Qed.

(** [Itoa] prints digits after an optional minus sign. *)
Lemma Itoa_chars n :
  allChars (fun c => isDigit c || Ascii.eqb c "-") (strconv.Itoa n) = true.
Proof.
  assert (Hweak : forall s, allChars isDigit s = true ->
            allChars (fun c => isDigit c || Ascii.eqb c "-") s = true).
  { induction s as [|c s IH]; simpl; [reflexivity|].
    rewrite !andb_true_iff. intros [-> H]. auto. }
  unfold strconv.Itoa, NilZero.string_of_int.
  destruct (Z.to_int n) as [d|d]; unfold NilZero.string_of_uint.
  - destruct d; try (apply Hweak, string_of_uint_digits); reflexivity.
  - change (allChars (fun c => isDigit c || Ascii.eqb c "-")
              (String "-" (match d with
                           | Decimal.Nil => "0"
                           | _ => NilEmpty.string_of_uint d
                           end)) = true).
    simpl. destruct d; try (apply Hweak, string_of_uint_digits); reflexivity.
Qed.

Lemma Cut_append (before after : string) (sep : ascii) :
  allChars (fun c => negb (Ascii.eqb c sep)) before = true ->
  Cut (before +:+ String sep after) sep = Some (before, after).
Proof.
  induction before as [|c before IH]; intros H.
  - change (Cut (String sep after) sep = Some (EmptyString, after)). simpl.
    rewrite Ascii.eqb_refl. reflexivity.
  - change (Cut (String c (before +:+ String sep after)) sep
            = Some (String c before, after)).
    simpl in *. apply andb_true_iff in H as [Hc H].
    apply negb_true_iff in Hc. rewrite Hc, (IH H). reflexivity.
Qed.

Lemma Itoa_no_colon n :
  allChars (fun c => negb (Ascii.eqb c ":")) (strconv.Itoa n) = true.
Proof.
  pose proof (Itoa_chars n) as H. revert H.
  generalize (strconv.Itoa n) as s. induction s as [|c s IH]; simpl; [reflexivity|].
  rewrite !andb_true_iff. intros [Hc H]. split; [|exact (IH H)].
  destruct (Ascii.eqb_spec c ":") as [->|]; [discriminate|reflexivity].
Qed.

Section ExtractFacts.

Variable toInt : Q -> Z.

Lemma parseAppPortString_mapping pa defaultServiceName :
  intPorts pa ->
  parseAppPortString (portMappingString pa) defaultServiceName
  = Some (mkPortSpec defaultServiceName (ContainerPort pa) (HostPort pa) "tcp" "").
Proof.
  intros [Hc Hh]. unfold parseAppPortString, SplitN, portMappingString.
  change (strconv.Itoa (HostPort pa) +:+ ":" +:+ strconv.Itoa (ContainerPort pa))
    with (strconv.Itoa (HostPort pa) +:+ String ":" (strconv.Itoa (ContainerPort pa))).
  rewrite (Cut_append _ _ _ (Itoa_no_colon _)).
  rewrite !Atoi_Itoa by assumption. reflexivity.
Qed.

Lemma foldl_appPort_mappings defaultServiceName allocs : forall ports,
  Forall intPorts allocs ->
  foldl (appendAppPortItem toInt defaultServiceName) ports
        (List.map (fun pa => JString (portMappingString pa)) allocs)
  = ports ++ List.map (fun pa => mkPortSpec defaultServiceName (ContainerPort pa)
                                   (HostPort pa) "tcp" "") allocs.
Proof.
  induction allocs as [|pa rest IH]; intros ports Hall; simpl.
  - rewrite app_nil_r. reflexivity.
  - inversion Hall as [|? ? Hpa Hrest]; subst.
    rewrite (parseAppPortString_mapping _ _ Hpa), (IH _ Hrest), <- app_assoc.
    reflexivity.
Qed.

(** X17: reading [appPort] back from a rewritten configuration gives, for
    each allocation in order, a port with the allocation's container port,
    its shifted host port, protocol tcp and the default service name. *)
Theorem rewritten_app_port_reads_back
    (configMap : gmap string JSON) (envName : string) (worktreeIndex : Z)
    (portAllocations : list PortAllocation) (labels : gmap string string)
    (defaultServiceName : string) (out : gmap string JSON) :
  Forall intPorts portAllocations ->
  RewriteConfig (JObject configMap) envName worktreeIndex portAllocations labels = Ok out ->
  parseAppPort toInt (out !! "appPort") defaultServiceName
  = List.map (fun pa => mkPortSpec defaultServiceName (ContainerPort pa)
                          (HostPort pa) "tcp" "") portAllocations.
Proof.
  intros Hall [= <-].
  rewrite applyContainerEnv_other, applyPortsAttributesShift_other,
    applyAppPortShift_appPort by discriminate.
  unfold shiftedAppPort. destruct portAllocations as [|pa rest]; [reflexivity|].
  unfold parseAppPort. rewrite (foldl_appPort_mappings _ _ [] Hall). reflexivity.
Qed.

Lemma appendForwardPort_tcp defaultServiceName fps : forall ports,
  Forall (fun ps => ps_Protocol ps = "tcp") ports ->
  Forall (fun ps => ps_Protocol ps = "tcp")
         (foldl (appendForwardPort toInt defaultServiceName) ports fps).
Proof.
  induction fps as [|fp rest IH]; intros ports Hports; simpl; [exact Hports|].
  apply IH. unfold appendForwardPort, parseServicePort.
  destruct fp as [| |v|v| |]; try exact Hports.
  - apply Forall_app. split; [exact Hports|]. repeat constructor.
  - destruct (SplitN v ":") as [|a [|b [|c l]]];
      repeat match goal with
             | |- context [strconv.Atoi ?x] => destruct (strconv.Atoi x)
             end;
      try exact Hports; apply Forall_app; (split; [exact Hports|]);
      repeat constructor.
Qed.

Lemma appendAppPortItem_tcp defaultServiceName ports item :
  Forall (fun ps => ps_Protocol ps = "tcp") ports ->
  Forall (fun ps => ps_Protocol ps = "tcp")
         (appendAppPortItem toInt defaultServiceName ports item).
Proof.
  intros Hports. unfold appendAppPortItem, parseAppPortString.
  destruct item as [| |v|v| |]; try exact Hports.
  - apply Forall_app. split; [exact Hports|]. repeat constructor.
  - destruct (SplitN v ":") as [|a [|b [|c l]]];
      repeat match goal with
             | |- context [strconv.Atoi ?x] => destruct (strconv.Atoi x)
             end;
      try exact Hports; apply Forall_app; (split; [exact Hports|]);
      repeat constructor.
Qed.

Lemma parseAppPort_tcp appPort defaultServiceName :
  Forall (fun ps => ps_Protocol ps = "tcp")
         (parseAppPort toInt appPort defaultServiceName).
Proof.
  unfold parseAppPort. destruct appPort as [v|]; [|constructor].
  assert (Hone : forall item,
            Forall (fun ps => ps_Protocol ps = "tcp")
                   (appendAppPortItem toInt defaultServiceName [] item)).
  { intros item. apply appendAppPortItem_tcp. constructor. }
  destruct v as [| | | |items|]; try apply Hone.
  assert (Hfold : forall ports,
            Forall (fun ps => ps_Protocol ps = "tcp") ports ->
            Forall (fun ps => ps_Protocol ps = "tcp")
                   (foldl (appendAppPortItem toInt defaultServiceName) ports items)).
  { induction items as [|item rest IH]; intros ports Hports; simpl; [exact Hports|].
    apply IH, appendAppPortItem_tcp, Hports. }
  apply Hfold. constructor.
Qed.

(** X18: every port that [ExtractPorts] returns has protocol tcp, whatever
    the configuration says: no entry of forwardPorts or appPort makes a udp
    port; and its label is the label that portsAttributes has under its
    container port, when there is one. *)
Theorem extracted_ports_are_tcp (raw : RawPorts) (defaultServiceName : string) :
  Forall (fun ps =>
            ps_Protocol ps = "tcp"
            /\ forall attr,
                 PortsAttributes raw !! strconv.Itoa (ps_ContainerPort ps) = Some attr ->
                 ps_Label ps = pa_Label attr)
         (ExtractPorts toInt raw defaultServiceName).
Proof.
  unfold ExtractPorts. apply Forall_forall. intros ps Hps.
  apply in_map_iff in Hps as (ps0 & <- & Hin).
  assert (Htcp : ps_Protocol ps0 = "tcp").
  { revert ps0 Hin. apply Forall_forall. apply Forall_app. split.
    - apply appendForwardPort_tcp. constructor.
    - apply parseAppPort_tcp. }
  unfold enrich.
  destruct (PortsAttributes raw !! strconv.Itoa (ps_ContainerPort ps0)) as [attr|] eqn:Hattr.
  - simpl. split; [exact Htcp|]. rewrite Hattr. intros ? [= <-]. reflexivity.
  - split; [exact Htcp|]. rewrite Hattr. discriminate.
Qed.

End ExtractFacts.

Lemma rewritten_app_port_reads_back_witness :
  exists out,
    RewriteConfig (JObject nodeConfig) "feature-auth" 1 nodeAllocations ∅ = Ok out
    /\ parseAppPort (fun _ => 0) (out !! "appPort") "app"
       = [mkPortSpec "app" 3000 13000 "tcp" ""; mkPortSpec "app" 8080 18080 "tcp" ""].
Proof.
  eexists. split; [reflexivity|].
  apply (rewritten_app_port_reads_back (fun _ => 0) nodeConfig "feature-auth" 1
           nodeAllocations ∅ "app").
  - repeat constructor; unfold is_int, int_min, int_max; simpl; lia.
  - reflexivity.
Defined.

End ports_config_facts.

Module rewrite_more.
Import model devcontainer devcontainer_examples devcontainer_facts.
Import strconv_facts docker_facts.

(** A map filled by assignments [m[rk(key)] = value] in list order holds,
    under each key, the value of the last entry assigned to it. *)
Lemma foldl_insert_lookup {V : Type} (rk : string -> string) (l : list (string * V)) :
  forall (acc : gmap string V) (k : string),
  foldl (fun (m : gmap string V) (kv : string * V) => <[rk kv.1 := kv.2]> m) acc l !! k
  = match List.find (fun kv => String.eqb (rk kv.1) k) (rev l) with
    | Some kv => Some kv.2
    | None => acc !! k
    end.
Proof.
  induction l as [|[key v] rest IH]; intros acc k; simpl; [reflexivity|].
  rewrite IH, docker_more.find_snoc.
  destruct (List.find _ (rev rest)); [reflexivity|]. simpl.
  destruct (String.eqb_spec (rk key) k) as [->|Hne].
  - rewrite lookup_insert_eq. reflexivity.
  - rewrite lookup_insert_ne by exact Hne. reflexivity.
Qed.

Lemma sortStrings_Permutation l : sortStrings l ≡ₚ l.
Proof. apply merge_sort_Permutation. Qed.

Lemma sortStrings_Sorted l :
  Sorted (fun a b => Is_true (String.leb a b)) (sortStrings l).
Proof.
  apply Sorted_merge_sort. intros a b.
  destruct (String.leb_total a b) as [H|H]; rewrite H; simpl; auto.
Qed.

(** The flags that one label contributes to [runArgs]. *)
Definition labelFlag (labels : gmap string string) (key : string) : list JSON :=
  [JString "--label"; JString (key +:+ "=" +:+ default "" (labels !! key))].

Lemma foldl_labelFlags labels keys : forall (acc : option (list JSON)),
  foldl (fun (acc : option (list JSON)) key =>
           Some (default [] acc
                   ++ [JString "--label";
                       JString (key +:+ "=" +:+ default "" (labels !! key))]))
        acc keys
  = match acc, keys with
    | None, [] => None
    | _, _ => Some (default [] acc ++ flat_map (labelFlag labels) keys)
    end.
Proof.
  induction keys as [|key rest IH]; intros acc; simpl.
  - destruct acc; [rewrite app_nil_r|]; reflexivity.
  - rewrite IH. simpl. rewrite <- app_assoc. destruct acc; reflexivity.
Qed.

(** The slice that [applyRunArgsLabels] starts from: the array under
    [runArgs], or the nil slice ([None]) when there is no array. *)
Definition existingRunArgs (configMap : gmap string JSON) : option (list JSON) :=
  match configMap !! "runArgs" with
  | Some (JArray arr) => Some arr
  | _ => None
  end.

(** X19: the rewrite always succeeds on an object and makes the
    environment's identity part of the configuration: [name] is the
    environment name; [runArgs] keeps the arguments it had (none when it
    was no array) and gains one [--label key=value] pair per label, each
    label once, in increasing key order, and is written as null when it
    had no array and there is no label; [containerEnv] holds
    [WORKTREE_NAME] and [WORKTREE_INDEX] and keeps every other variable it
    had. *)
Theorem rewrite_sets_identity
    (configMap : gmap string JSON) (envName : string) (worktreeIndex : Z)
    (portAllocations : list PortAllocation) (labels : gmap string string) :
  exists out keys envMap,
    RewriteConfig (JObject configMap) envName worktreeIndex portAllocations labels
      = Ok out
    /\ out !! "name" = Some (JString envName)
    /\ keys ≡ₚ List.map fst (map_to_list labels)
    /\ Sorted (fun a b => Is_true (String.leb a b)) keys
    /\ out !! "runArgs"
       = Some (match existingRunArgs configMap, keys with
               | None, [] => JNull
               | existing, _ =>
                   JArray (default [] existing ++ flat_map (labelFlag labels) keys)
               end)
    /\ out !! "containerEnv" = Some (JObject envMap)
    /\ envMap !! "WORKTREE_NAME" = Some (JString envName)
    /\ envMap !! "WORKTREE_INDEX" = Some (JString (strconv.Itoa worktreeIndex))
    /\ (forall key, key <> "WORKTREE_NAME" -> key <> "WORKTREE_INDEX" ->
          envMap !! key = match configMap !! "containerEnv" with
                          | Some (JObject m) => m !! key
                          | _ => None
                          end).
Proof.
  set (existingEnv := match configMap !! "containerEnv" with
                      | Some (JObject m) => m
                      | _ => ∅
                      end).
  exists (applyContainerEnv
            (applyPortsAttributesShift
               (applyAppPortShift
                  (applyRunArgsLabels (<["name" := JString envName]> configMap) labels)
                  portAllocations)
               portAllocations)
            envName worktreeIndex),
         (sortStrings (List.map fst (map_to_list labels))),
         (<["WORKTREE_INDEX" := JString (strconv.Itoa worktreeIndex)]>
            (<["WORKTREE_NAME" := JString envName]> existingEnv)).
  split; [reflexivity|]. split.
  { rewrite applyContainerEnv_other, applyPortsAttributesShift_other,
      applyAppPortShift_other, applyRunArgsLabels_other by discriminate.
    apply lookup_insert_eq. }
  split; [apply sortStrings_Permutation|]. split; [apply sortStrings_Sorted|]. split.
  { rewrite applyContainerEnv_other, applyPortsAttributesShift_other,
      applyAppPortShift_other by discriminate.
    unfold applyRunArgsLabels. rewrite lookup_insert_eq, foldl_labelFlags.
    rewrite lookup_insert_ne by discriminate. fold (existingRunArgs configMap).
    f_equal. destruct (existingRunArgs configMap) as [arr|];
      destruct (sortStrings (List.map fst (map_to_list labels))); reflexivity. }
  split.
  { unfold applyContainerEnv. rewrite lookup_insert_eq.
    rewrite applyPortsAttributesShift_other, applyAppPortShift_other,
      applyRunArgsLabels_other by discriminate.
    rewrite lookup_insert_ne by discriminate. reflexivity. }
  split.
  { rewrite lookup_insert_ne by discriminate. apply lookup_insert_eq. }
  split; [apply lookup_insert_eq|].
  intros key Hname Hindex. rewrite !lookup_insert_ne by congruence.
  unfold existingEnv. destruct (configMap !! "containerEnv") as [[| | | | |m]|];
    try apply lookup_empty. reflexivity.
Qed.

(** The host port that [portMapping] holds for a key of portsAttributes:
    that of the last allocation whose container port prints as the key. *)
Definition mappedHostPort (portAllocations : list PortAllocation) (portKey : string)
    : option Z :=
  option_map HostPort
    (List.find (fun pa => String.eqb (strconv.Itoa (ContainerPort pa)) portKey)
               (rev portAllocations)).

(** The key under which an attribute is stored again. *)
Definition rekey (portAllocations : list PortAllocation) (portKey : string) : string :=
  match mappedHostPort portAllocations portKey with
  | Some hostPort => strconv.Itoa hostPort
  | None => portKey
  end.

Lemma portMapping_lookup allocs : forall (acc : gmap string Z) k,
  foldl (fun (m : gmap string Z) pa =>
           <[strconv.Itoa (ContainerPort pa) := HostPort pa]> m) acc allocs !! k
  = match mappedHostPort allocs k with
    | Some h => Some h
    | None => acc !! k
    end.
Proof.
  unfold mappedHostPort.
  induction allocs as [|pa rest IH]; intros acc k; simpl; [reflexivity|].
  rewrite IH, docker_more.find_snoc.
  destruct (List.find _ (rev rest)); [reflexivity|]. simpl.
  destruct (String.eqb_spec (strconv.Itoa (ContainerPort pa)) k) as [->|Hne].
  - rewrite lookup_insert_eq. reflexivity.
  - rewrite lookup_insert_ne by exact Hne. reflexivity.
Qed.

(** X20: [applyPortsAttributesShift] stores every attribute again under
    the host port of its container port, or under its old key when no
    allocation has that container port: each new entry is an old entry
    under its new key, and an old entry whose new key no other old entry
    shares is there under that key. *)
Theorem ports_attributes_rekeyed
    (configMap : gmap string JSON) (portAllocations : list PortAllocation)
    (oldAttrs : gmap string JSON) :
  configMap !! "portsAttributes" = Some (JObject oldAttrs) ->
  exists newAttrs,
    applyPortsAttributesShift configMap portAllocations !! "portsAttributes"
      = Some (JObject newAttrs)
    /\ (forall newKey value, newAttrs !! newKey = Some value ->
          exists portKey, oldAttrs !! portKey = Some value
                          /\ newKey = rekey portAllocations portKey)
    /\ (forall portKey value, oldAttrs !! portKey = Some value ->
          (forall other, is_Some (oldAttrs !! other) ->
             rekey portAllocations other = rekey portAllocations portKey ->
             other = portKey) ->
          newAttrs !! rekey portAllocations portKey = Some value).
Proof.
  intros Hold. unfold applyPortsAttributesShift. rewrite Hold.
  set (portMapping := foldl _ ∅ portAllocations).
  assert (Hstep : forall (m : gmap string JSON) (kv : string * JSON),
            match portMapping !! kv.1 with
            | Some hostPort => <[strconv.Itoa hostPort := kv.2]> m
            | None => <[kv.1 := kv.2]> m
            end = <[rekey portAllocations kv.1 := kv.2]> m).
  { intros m kv. unfold portMapping, rekey. rewrite portMapping_lookup, lookup_empty.
    destruct (mappedHostPort portAllocations kv.1); reflexivity. }
  eexists. split; [apply lookup_insert_eq|].
  assert (Hnew : forall k,
            foldl (fun (m : gmap string JSON) (kv : string * JSON) =>
                     match portMapping !! kv.1 with
                     | Some hostPort => <[strconv.Itoa hostPort := kv.2]> m
                     | None => <[kv.1 := kv.2]> m
                     end) ∅ (map_to_list oldAttrs) !! k
            = match List.find (fun kv => String.eqb (rekey portAllocations kv.1) k)
                              (rev (map_to_list oldAttrs)) with
              | Some kv => Some kv.2
              | None => None
              end).
  { intros k.
    assert (Hsame : forall l (acc : gmap string JSON),
              foldl (fun (m : gmap string JSON) (kv : string * JSON) =>
                       match portMapping !! kv.1 with
                       | Some hostPort => <[strconv.Itoa hostPort := kv.2]> m
                       | None => <[kv.1 := kv.2]> m
                       end) acc l
              = foldl (fun (m : gmap string JSON) (kv : string * JSON) =>
                         <[rekey portAllocations kv.1 := kv.2]> m) acc l).
    { induction l as [|kv rest IH]; intros acc; simpl; [reflexivity|].
      rewrite Hstep. apply IH. }
    rewrite Hsame, foldl_insert_lookup, lookup_empty. reflexivity. }
  split.
  - intros newKey value. rewrite Hnew.
    destruct (List.find _ (rev (map_to_list oldAttrs))) as [[key v]|] eqn:Hfind;
      [|discriminate].
    intros [= <-]. apply find_some in Hfind as [Hin Hkey]. simpl in Hkey.
    apply String.eqb_eq in Hkey. apply in_rev in Hin.
    apply list_elem_of_In, elem_of_map_to_list in Hin. eauto.
  - intros portKey value Hlookup Hinj. rewrite Hnew.
    destruct (List.find _ (rev (map_to_list oldAttrs))) as [[key v]|] eqn:Hfind.
    + apply find_some in Hfind as [Hin Hkey]. simpl in Hkey.
      apply String.eqb_eq in Hkey. apply in_rev in Hin.
      apply list_elem_of_In, elem_of_map_to_list in Hin.
      assert (key = portKey) by (apply Hinj; [rewrite Hin; eauto|exact Hkey]).
      subst key. simpl. congruence.
    + exfalso.
      assert (Hin : In (portKey, value) (rev (map_to_list oldAttrs))).
      { apply in_rev. rewrite rev_involutive.
        apply list_elem_of_In, elem_of_map_to_list. exact Hlookup. }
      pose proof (find_none _ _ Hfind _ Hin) as Hno. simpl in Hno.
      rewrite String.eqb_refl in Hno. discriminate.
Qed.

Definition labelledConfig : gmap string JSON :=
  <["portsAttributes" :=
      JObject (<["3000" := JObject (<["label" := JString "Application"]> ∅)]> ∅)]>
    nodeConfig.

Lemma ports_attributes_rekeyed_witness :
  exists newAttrs,
    applyPortsAttributesShift labelledConfig nodeAllocations !! "portsAttributes"
      = Some (JObject newAttrs)
    /\ newAttrs !! "13000" = Some (JObject (<["label" := JString "Application"]> ∅)).
Proof.
  destruct (ports_attributes_rekeyed labelledConfig nodeAllocations
              (<["3000" := JObject (<["label" := JString "Application"]> ∅)]> ∅))
    as (newAttrs & Hout & _ & Hkept).
  - reflexivity.
  - exists newAttrs. split; [exact Hout|].
    apply (Hkept "3000"); [reflexivity|].
    intros other [v Hother] _.
    apply lookup_insert_Some in Hother as [[<- _]|[_ Hempty]]; [reflexivity|].
    rewrite lookup_empty in Hempty. discriminate.
Defined.

End rewrite_more.

Module compose.
Import model devcontainer.

Record composeServiceOverride : Type := mkServiceOverride {
  Ports : list string;
  svc_Labels : gmap string string
}.

Record composeOverride : Type := mkOverride {
  co_Name : string;
  Services : gmap string composeServiceOverride
}.

(** [GenerateComposeOverride] up to the value handed to [yaml.Marshal]. *)
Definition GenerateComposeOverride
    (envName : string) (services : list string)
    (portAllocations : list PortAllocation) (labels : gmap string string)
    : composeOverride :=
  let servicePorts : gmap string (list PortAllocation) :=
    foldl (fun (m : gmap string (list PortAllocation)) pa =>
             <[ServiceName pa := default [] (m !! ServiceName pa) ++ [pa]]> m)
          ∅ portAllocations in
  let sortedServices := sortStrings services in
  let overrides : gmap string composeServiceOverride :=
    foldl (fun (m : gmap string composeServiceOverride) svc =>
             let svcLabels : gmap string string :=
               foldl (fun (l : gmap string string) (kv : string * string) =>
                        <[kv.1 := kv.2]> l)
                     ∅ (map_to_list labels) in
             let ports :=
               match servicePorts !! svc with
               | Some ports =>
                   foldl (fun acc pa => acc ++ [portMappingString pa]) [] ports
               | None => []
               end in
             <[svc := mkServiceOverride ports svcLabels]> m)
          ∅ sortedServices in
  mkOverride envName overrides.

(** [appendComposeFile]; [existing] is [configMap["dockerComposeFile"]],
    [None] for the nil interface. *)
Definition appendComposeFile (existing : option JSON) (overridePath : string)
    : list JSON :=
  let files :=
    match existing with
    | Some (JString v) => [JString v]
    | Some (JArray v) => v
    | _ => []
    end in
  if existsb (fun f => match f with
                       | JString s => String.eqb s overridePath
                       | _ => false
                       end) files
  then files
  else files ++ [JString overridePath].

(** [RewriteComposeConfig], from the decoded document to the map that is
    serialized. *)
Definition RewriteComposeConfig
    (document : JSON) (envName overrideYAMLPath : string)
    : result RewriteError (gmap string JSON) :=
  match document with
  | JObject configMap =>
      let configMap := <["name" := JString envName]> configMap in
      let configMap :=
        <["dockerComposeFile" :=
            JArray (appendComposeFile (configMap !! "dockerComposeFile")
                      overrideYAMLPath)]> configMap in
      Ok configMap
  | JNull => Err NilMapAssignment
  | _ => Err ParseFailed
  end.

(** What a [map[string]interface{}] holds after [SanitizeForDevPod]: values
    decoded from JSON, or the [[]string] that the function itself stores. *)
Inductive GoValue : Type :=
| Decoded (v : JSON)
| StringSlice (l : list string).

(** [SanitizeForDevPod]: the map after the call and the result. *)
Definition SanitizeForDevPod (configMap : gmap string GoValue)
    : gmap string GoValue * bool :=
  let '(configMap, changed) :=
    match configMap !! "workspaceFolder" with
    | None => (<["workspaceFolder" := Decoded (JString "/workspace")]> configMap, true)
    | Some _ => (configMap, false)
    end in
  let '(configMap, changed) :=
    match configMap !! "dockerComposeFile" with
    | Some (Decoded (JString s)) =>
        (<["dockerComposeFile" := StringSlice [s]]> configMap, true)
    | _ => (configMap, changed)
    end in
  match configMap !! "dockerComposeFile" with
  | Some _ =>
      match configMap !! "shutdownAction" with
      | None => (<["shutdownAction" := Decoded (JString "stopCompose")]> configMap, true)
      | Some _ => (configMap, changed)
      end
  | None => (configMap, changed)
  end.

End compose.

Module compose_facts.
Import model devcontainer devcontainer_examples devcontainer_facts compose.
Import rewrite_more.

Lemma servicePorts_lookup allocs : forall (acc : gmap string (list PortAllocation)) svc,
  foldl (fun (m : gmap string (list PortAllocation)) pa =>
           <[ServiceName pa := default [] (m !! ServiceName pa) ++ [pa]]> m)
        acc allocs !! svc
  = match List.filter (fun pa => String.eqb (ServiceName pa) svc) allocs with
    | [] => acc !! svc
    | l => Some (default [] (acc !! svc) ++ l)
    end.
Proof.
  induction allocs as [|pa rest IH]; intros acc svc; simpl; [reflexivity|].
  rewrite IH. destruct (String.eqb_spec (ServiceName pa) svc) as [->|Hne].
  - rewrite lookup_insert_eq. simpl.
    destruct (List.filter _ rest); [reflexivity|]. rewrite <- app_assoc. reflexivity.
  - rewrite lookup_insert_ne by exact Hne. reflexivity.
Qed.

Lemma copy_labels (labels : gmap string string) :
  foldl (fun (l : gmap string string) (kv : string * string) => <[kv.1 := kv.2]> l)
        ∅ (map_to_list labels)
  = labels.
Proof.
  apply map_eq. intros k.
  rewrite (foldl_insert_lookup (fun key => key) (map_to_list labels) ∅ k), lookup_empty.
  destruct (List.find _ (rev (map_to_list labels))) as [[key v]|] eqn:Hfind.
  - apply find_some in Hfind as [Hin Hkey]. simpl in Hkey.
    apply String.eqb_eq in Hkey. subst key. apply in_rev in Hin.
    apply list_elem_of_In, elem_of_map_to_list in Hin. simpl. congruence.
  - destruct (labels !! k) as [v|] eqn:Hk; [|reflexivity]. exfalso.
    assert (Hin : In (k, v) (rev (map_to_list labels))).
    { apply in_rev. rewrite rev_involutive.
      apply list_elem_of_In, elem_of_map_to_list. exact Hk. }
    pose proof (find_none _ _ Hfind _ Hin) as Hno. simpl in Hno.
    rewrite String.eqb_refl in Hno. discriminate.
Qed.

Lemma foldl_insert_each {V : Type} (f : string -> V) (l : list string) :
  forall (acc : gmap string V) k,
  foldl (fun (m : gmap string V) key => <[key := f key]> m) acc l !! k
  = if existsb (String.eqb k) l then Some (f k) else acc !! k.
Proof.
  induction l as [|key rest IH]; intros acc k; simpl; [reflexivity|].
  rewrite IH. destruct (existsb (String.eqb k) rest); [rewrite orb_true_r; reflexivity|].
  rewrite orb_false_r. destruct (String.eqb_spec k key) as [->|Hne].
  - rewrite lookup_insert_eq. reflexivity.
  - rewrite lookup_insert_ne by congruence. reflexivity.
Qed.

Lemma existsb_Permutation {A : Type} (p : A -> bool) (l1 l2 : list A) :
  l1 ≡ₚ l2 -> existsb p l1 = existsb p l2.
Proof.
  induction 1; simpl; try congruence.
  destruct (p x), (p y); reflexivity.
Qed.

(** X21: the Compose override has one entry per listed service and no
    other: a listed service gets all the labels and the
    ["<hostPort>:<containerPort>"] mappings of its own allocations in
    allocation order; the allocations of a service that is not listed
    appear nowhere in the override. *)
Theorem compose_override_services
    (envName : string) (services : list string)
    (portAllocations : list PortAllocation) (labels : gmap string string)
    (svc : string) :
  co_Name (GenerateComposeOverride envName services portAllocations labels) = envName
  /\ Services (GenerateComposeOverride envName services portAllocations labels) !! svc
     = if existsb (String.eqb svc) services then
         Some (mkServiceOverride
                 (List.map portMappingString
                    (List.filter (fun pa => String.eqb (ServiceName pa) svc)
                                 portAllocations))
                 labels)
       else None.
Proof.
  split; [reflexivity|]. unfold GenerateComposeOverride. simpl.
  rewrite (foldl_insert_each
             (fun svc =>
                mkServiceOverride
                  match foldl (fun (m : gmap string (list PortAllocation)) pa =>
                                 <[ServiceName pa := default [] (m !! ServiceName pa) ++ [pa]]> m)
                              ∅ portAllocations !! svc with
                  | Some ports => foldl (fun acc pa => acc ++ [portMappingString pa]) [] ports
                  | None => []
                  end
                  (foldl (fun (l : gmap string string) (kv : string * string) =>
                            <[kv.1 := kv.2]> l) ∅ (map_to_list labels)))).
  rewrite (existsb_Permutation _ _ _ (sortStrings_Permutation services)), lookup_empty.
  destruct (existsb (String.eqb svc) services); [|reflexivity].
  rewrite copy_labels, servicePorts_lookup, lookup_empty. simpl.
  destruct (List.filter _ portAllocations) as [|pa l]; [reflexivity|].
  rewrite foldl_snoc_map. reflexivity.
Qed.

(** Whether a list of Compose files names this path. *)
Definition hasFile (path : string) (files : list JSON) : bool :=
  existsb (fun f => match f with
                    | JString s => String.eqb s path
                    | _ => false
                    end) files.

Lemma hasFile_In path files : hasFile path files = true <-> In (JString path) files.
Proof.
  unfold hasFile. rewrite existsb_exists. split.
  - intros (f & Hin & Hf). destruct f; try discriminate.
    apply String.eqb_eq in Hf. subst. exact Hin.
  - intros Hin. exists (JString path). split; [exact Hin|]. apply String.eqb_refl.
Qed.

(** The Compose files that a [dockerComposeFile] value lists. *)
Definition existingFiles (existing : option JSON) : list JSON :=
  match existing with
  | Some (JString v) => [JString v]
  | Some (JArray v) => v
  | _ => []
  end.

Lemma appendComposeFile_spec existing overridePath :
  appendComposeFile existing overridePath
  = if hasFile overridePath (existingFiles existing) then existingFiles existing
    else existingFiles existing ++ [JString overridePath].
Proof. reflexivity. Qed.

Lemma appendComposeFile_has existing overridePath :
  hasFile overridePath (appendComposeFile existing overridePath) = true.
Proof.
  rewrite appendComposeFile_spec.
  destruct (hasFile overridePath (existingFiles existing)) eqn:Hex; [exact Hex|].
  unfold hasFile in *. rewrite existsb_app, Hex. simpl.
  rewrite String.eqb_refl. reflexivity.
Qed.

(** X22: [RewriteComposeConfig] succeeds on an object; it sets [name],
    turns [dockerComposeFile] into an array that keeps the files it had,
    in order, and contains the override path, added at the end only when
    it was not there; every other key keeps its value; and rewriting the
    result again changes nothing. *)
Theorem rewrite_compose_config
    (configMap : gmap string JSON) (envName overrideYAMLPath : string) :
  exists out files,
    RewriteComposeConfig (JObject configMap) envName overrideYAMLPath = Ok out
    /\ out !! "name" = Some (JString envName)
    /\ out !! "dockerComposeFile" = Some (JArray files)
    /\ In (JString overrideYAMLPath) files
    /\ files = (if hasFile overrideYAMLPath
                     (existingFiles (configMap !! "dockerComposeFile"))
                then existingFiles (configMap !! "dockerComposeFile")
                else existingFiles (configMap !! "dockerComposeFile")
                       ++ [JString overrideYAMLPath])
    /\ (forall key, key <> "name" -> key <> "dockerComposeFile" ->
          out !! key = configMap !! key)
    /\ RewriteComposeConfig (JObject out) envName overrideYAMLPath = Ok out.
Proof.
  set (files := appendComposeFile (configMap !! "dockerComposeFile") overrideYAMLPath).
  exists (<["dockerComposeFile" := JArray files]> (<["name" := JString envName]> configMap)),
         files.
  split.
  { unfold RewriteComposeConfig. rewrite lookup_insert_ne by discriminate. reflexivity. }
  split; [rewrite lookup_insert_ne by discriminate; apply lookup_insert_eq|].
  split; [apply lookup_insert_eq|].
  split; [apply hasFile_In, appendComposeFile_has|].
  split; [apply appendComposeFile_spec|].
  split.
  { intros key Hname Hfile. rewrite !lookup_insert_ne by congruence. reflexivity. }
  unfold RewriteComposeConfig. f_equal.
  rewrite lookup_insert_ne by discriminate. rewrite lookup_insert_eq.
  assert (Hagain : appendComposeFile (Some (JArray files)) overrideYAMLPath = files).
  { rewrite appendComposeFile_spec. simpl.
    unfold files at 1. rewrite appendComposeFile_has. reflexivity. }
  rewrite Hagain. apply map_eq. intros key.
  destruct (String.eqb_spec key "dockerComposeFile") as [->|Hfile].
  { rewrite !lookup_insert_eq. reflexivity. }
  rewrite (lookup_insert_ne _ "dockerComposeFile") by congruence.
  destruct (String.eqb_spec key "name") as [->|Hname].
  { rewrite lookup_insert_eq, lookup_insert_ne by discriminate.
    rewrite lookup_insert_eq. reflexivity. }
  rewrite !lookup_insert_ne by congruence. reflexivity.
Qed.

Ltac sanitize_lookups Hw Hc Hs :=
  repeat first [ rewrite lookup_insert_eq
               | rewrite lookup_insert_ne by discriminate
               | rewrite Hw | rewrite Hc | rewrite Hs ].

Ltac differs_at key Heq Hw Hc Hs :=
  let H := fresh "Hdiff" in
  pose proof (f_equal (fun m : gmap string GoValue => m !! key) Heq) as H;
  cbv beta in H;
  repeat first [ rewrite lookup_insert_eq in H
               | rewrite lookup_insert_ne in H by discriminate
               | rewrite Hw in H | rewrite Hc in H | rewrite Hs in H ];
  discriminate H.

(** X23: [SanitizeForDevPod] reports a change exactly when it changed the
    map; afterwards the map has a [workspaceFolder], and when it has a
    [dockerComposeFile] that is no longer a plain string and there is a
    [shutdownAction]; keys other than these three keep their values; a
    second call changes nothing and reports no change. *)
Theorem sanitize_for_devpod (configMap : gmap string GoValue) :
  let out := fst (SanitizeForDevPod configMap) in
  let changed := snd (SanitizeForDevPod configMap) in
  (changed = false <-> out = configMap)
  /\ is_Some (out !! "workspaceFolder")
  /\ (forall s, out !! "dockerComposeFile" <> Some (Decoded (JString s)))
  /\ (is_Some (out !! "dockerComposeFile") -> is_Some (out !! "shutdownAction"))
  /\ (forall key, key <> "workspaceFolder" -> key <> "dockerComposeFile" ->
        key <> "shutdownAction" -> out !! key = configMap !! key)
  /\ SanitizeForDevPod out = (out, false).
Proof.
  unfold SanitizeForDevPod.
  destruct (configMap !! "workspaceFolder") as [w|] eqn:Hw;
    destruct (configMap !! "dockerComposeFile") as [[[| | |s| |]|l]|] eqn:Hc;
    destruct (configMap !! "shutdownAction") as [a|] eqn:Hs;
    cbv beta iota zeta; sanitize_lookups Hw Hc Hs;
    cbv beta iota zeta; sanitize_lookups Hw Hc Hs;
    cbv beta iota zeta; sanitize_lookups Hw Hc Hs;
    cbn [fst snd].
  all: split; [first [ split; reflexivity
                     | split; [discriminate|]; intros Heq; exfalso;
                       first [ differs_at "workspaceFolder" Heq Hw Hc Hs
                             | differs_at "dockerComposeFile" Heq Hw Hc Hs
                             | differs_at "shutdownAction" Heq Hw Hc Hs ] ]|].
  all: split; [sanitize_lookups Hw Hc Hs; eauto|].
  all: split; [intros s'; sanitize_lookups Hw Hc Hs; congruence|].
  all: split; [sanitize_lookups Hw Hc Hs; intros; eauto;
               match goal with H : is_Some None |- _ => destruct H; discriminate end|].
  all: split; [intros key Hk1 Hk2 Hk3; rewrite ?lookup_insert_ne by congruence;
               reflexivity|].
  all: cbv beta iota zeta; sanitize_lookups Hw Hc Hs;
    cbv beta iota zeta; sanitize_lookups Hw Hc Hs;
    cbv beta iota zeta; sanitize_lookups Hw Hc Hs; reflexivity.
Qed.

End compose_facts.

(** * More of the cli package: stop, remove, list and the allocations that
      create loads and makes *)

Module lifecycle.
Import model docker validation environments.

(** What stop and remove do to the outside, in the order performed. *)
Inductive Effect : Type :=
| EffComposeStop (projectDir : string)
| EffStopContainer (containerID : string)
| EffComposeDown (projectDir : string) (removeVolumes : bool)
| EffRemoveContainer (containerID : string) (force : bool)
| EffRemoveWorktree (repoPath worktreePath : string) (force : bool).

(** The answers of the Docker daemon, of git and of the file system:
    whether [docker.ComposeStop], [docker.StopContainer],
    [docker.ComposeDown], [docker.RemoveContainer] and [Manager.Remove]
    succeed, and whether [os.Stat] of a path succeeds after a failed
    removal. *)
Record World : Type := mkWorld {
  composeStopOk : string -> bool;
  stopContainerOk : string -> bool;
  composeDownOk : string -> bool;
  removeContainerOk : string -> bool;
  worktreeRemoveOk : string -> string -> bool;
  statOk : string -> bool
}.

(** How a command ends: nil, an error, or a run-time panic. *)
Inductive Outcome (Msg : Type) : Type :=
| Done
| Failed (err : CLIError Msg)
| Panicked.
Arguments Done {Msg}.
Arguments Failed {Msg}.
Arguments Panicked {Msg}.

Inductive StopMsg : Type :=
| StopLookupFailed (cause : FindMsg)
| StopEnvironmentFailed (envName : string)
| StopContainerFailed (containerName : string).

Inductive RemoveMsg : Type :=
| RemoveLookupFailed (cause : FindMsg)
| ReadInputFailed
| CancelledByUser
| RemoveEnvironmentFailed (envName : string)
| RemoveContainerFailed (containerName : string)
| RemoveWorktreeFailed (worktreePath : string).

Section Lifecycle.

Context {Time : Type}.
Variable world : World.

(** [filepath.Join] of the Go library. *)
Variable filepathJoin : string -> string -> string.

(** The loop of [runStop] for patterns A and B. The log call slices
    [c.ContainerID[:12]] before anything else, which panics on an
    identifier of fewer than 12 bytes. *)
Fixpoint stopEach (containers : list ContainerInfo)
    : list Effect * Outcome StopMsg :=
  match containers with
  | [] => ([], Done)
  | c :: rest =>
      if (String.length (ContainerID c) <? 12)%nat then ([], Panicked)
      else if stopContainerOk world (ContainerID c) then
        let '(effects, outcome) := stopEach rest in
        (EffStopContainer (ContainerID c) :: effects, outcome)
      else
        ([EffStopContainer (ContainerID c)],
         Failed (mkCLIError ExitGeneralError (StopContainerFailed (ContainerName c))))
  end.

(** [runStop] after the Docker client is connected; [found] is the result
    of [findEnvironment]. *)
Definition runStop
    (found : result (CLIError FindMsg) (WorktreeEnv Time * list ContainerInfo))
    (envName : string)
    : list Effect * Outcome StopMsg :=
  match found with
  | Err e => ([], Failed (mkCLIError (Code e) (StopLookupFailed (Message e))))
  | Ok (env, containers) =>
      if IsCompose (ConfigPatternOf env) then
        let devcontainerDir := filepathJoin (WorktreePath env) ".devcontainer" in
        if composeStopOk world devcontainerDir then
          ([EffComposeStop devcontainerDir], Done)
        else
          ([EffComposeStop devcontainerDir],
           Failed (mkCLIError ExitGeneralError (StopEnvironmentFailed envName)))
      else stopEach containers
  end.

(** The loop of [runRemove] for patterns A and B. *)
Fixpoint removeEach (containers : list ContainerInfo)
    : list Effect * Outcome RemoveMsg :=
  match containers with
  | [] => ([], Done)
  | c :: rest =>
      if (String.length (ContainerID c) <? 12)%nat then ([], Panicked)
      else if removeContainerOk world (ContainerID c) then
        let '(effects, outcome) := removeEach rest in
        (EffRemoveContainer (ContainerID c) true :: effects, outcome)
      else
        ([EffRemoveContainer (ContainerID c) true],
         Failed (mkCLIError ExitGeneralError (RemoveContainerFailed (ContainerName c))))
  end.

(** [runRemove] after the Docker client is connected. [prompt] is what
    [promptConfirmation] returns when it is called: the answer, or [None]
    for a read error. *)
Definition runRemove
    (found : result (CLIError FindMsg) (WorktreeEnv Time * list ContainerInfo))
    (envName : string) (force keepWorktree : bool) (prompt : option bool)
    : list Effect * Outcome RemoveMsg :=
  match found with
  | Err e => ([], Failed (mkCLIError (Code e) (RemoveLookupFailed (Message e))))
  | Ok (env, containers) =>
      let refusal : option (CLIError RemoveMsg) :=
        if negb force then
          match prompt with
          | None => Some (mkCLIError ExitGeneralError ReadInputFailed)
          | Some confirmed =>
              if negb confirmed then Some (mkCLIError ExitUserCancelled CancelledByUser)
              else None
          end
        else None in
      match refusal with
      | Some err => ([], Failed err)
      | None =>
          let '(effects, outcome) :=
            if IsCompose (ConfigPatternOf env) then
              let devcontainerDir := filepathJoin (WorktreePath env) ".devcontainer" in
              if composeDownOk world devcontainerDir then
                ([EffComposeDown devcontainerDir true], Done)
              else
                ([EffComposeDown devcontainerDir true],
                 Failed (mkCLIError ExitGeneralError (RemoveEnvironmentFailed envName)))
            else removeEach containers in
          match outcome with
          | Done =>
              if negb keepWorktree then
                let effects :=
                  effects ++ [EffRemoveWorktree (SourceRepoPath env) (WorktreePath env) true] in
                if worktreeRemoveOk world (SourceRepoPath env) (WorktreePath env) then
                  (effects, Done)
                else if statOk world (WorktreePath env) then
                  (effects,
                   Failed (mkCLIError ExitGitError (RemoveWorktreeFailed (WorktreePath env))))
                else (effects, Done)
              else (effects, Done)
          | _ => (effects, outcome)
          end
      end
  end.

End Lifecycle.

End lifecycle.

Module lifecycle_facts.
Import model docker validation environments lifecycle.

Section LifecycleFacts.

Context {Time : Type}.
Variable world : World.
Variable filepathJoin : string -> string -> string.

(** Identifiers long enough for the log call. *)
Definition longIDs (containers : list ContainerInfo) : Prop :=
  Forall (fun c => (12 <= String.length (ContainerID c))%nat) containers.

Lemma stopEach_spec containers :
  longIDs containers ->
  match List.find (fun c => negb (stopContainerOk world (ContainerID c))) containers with
  | None =>
      stopEach world containers
      = (List.map (fun c => EffStopContainer (ContainerID c)) containers, Done)
  | Some failing =>
      exists before after,
        containers = before ++ failing :: after
        /\ Forall (fun c => stopContainerOk world (ContainerID c) = true) before
        /\ stopEach world containers
           = (List.map (fun c => EffStopContainer (ContainerID c)) (before ++ [failing]),
              Failed (mkCLIError ExitGeneralError
                        (StopContainerFailed (ContainerName failing))))
  end.
Proof.
  induction containers as [|c rest IH]; intros Hlong; simpl; [reflexivity|].
  inversion Hlong as [|? ? Hc Hrest]; subst.
  destruct (Nat.ltb_spec (String.length (ContainerID c)) 12); [lia|].
  destruct (stopContainerOk world (ContainerID c)) eqn:Hok; simpl.
  - specialize (IH Hrest).
    destruct (List.find _ rest) as [failing|].
    + destruct IH as (before & after & -> & Hbefore & ->).
      exists (c :: before), after. split; [reflexivity|]. split; [|reflexivity].
      constructor; assumption.
    + rewrite IH. reflexivity.
  - exists [], rest. split; [reflexivity|]. split; [constructor|reflexivity].
Qed.

(** X24: for an environment that is not a Compose one, [runStop] stops the
    containers in order until one fails: when none fails all of them are
    stopped and the command succeeds; otherwise it exits with the general
    error naming the first container that failed, the containers before it
    are stopped and those after it are left untouched. *)
Theorem stop_until_first_failure
    (env : WorktreeEnv Time) (containers : list ContainerInfo) (envName : string) :
  IsCompose (ConfigPatternOf env) = false ->
  longIDs containers ->
  match List.find (fun c => negb (stopContainerOk world (ContainerID c))) containers with
  | None =>
      runStop world filepathJoin (Ok (env, containers)) envName
      = (List.map (fun c => EffStopContainer (ContainerID c)) containers, Done)
  | Some failing =>
      exists before after,
        containers = before ++ failing :: after
        /\ Forall (fun c => stopContainerOk world (ContainerID c) = true) before
        /\ runStop world filepathJoin (Ok (env, containers)) envName
           = (List.map (fun c => EffStopContainer (ContainerID c)) (before ++ [failing]),
              Failed (mkCLIError ExitGeneralError
                        (StopContainerFailed (ContainerName failing))))
  end.
Proof.
  intros Hpattern Hlong. unfold runStop. rewrite Hpattern.
  exact (stopEach_spec containers Hlong).
Qed.

(** X25: without [--force], [runRemove] does nothing unless the prompt was
    answered with yes: a refusal exits with code 7 and a read error with
    code 1, and in both cases no container and no worktree is touched. *)
Theorem remove_needs_confirmation
    (env : WorktreeEnv Time) (containers : list ContainerInfo) (envName : string)
    (keepWorktree : bool) (prompt : option bool) :
  prompt <> Some true ->
  exists code msg,
    runRemove world filepathJoin (Ok (env, containers)) envName false keepWorktree prompt
    = ([], Failed (mkCLIError code msg))
    /\ (prompt = Some false -> code = ExitUserCancelled)
    /\ (prompt = None -> code = ExitGeneralError).
Proof.
  intros Hprompt. unfold runRemove. simpl.
  destruct prompt as [[|]|]; [congruence| |].
  - exists ExitUserCancelled, CancelledByUser. simpl. repeat split; congruence.
  - exists ExitGeneralError, ReadInputFailed. simpl. repeat split; congruence.
Qed.

Definition isWorktreeRemoval (e : Effect) : bool :=
  match e with EffRemoveWorktree _ _ _ => true | _ => false end.

Lemma removeEach_spec containers effects outcome :
  removeEach world containers = (effects, outcome) ->
  forallb (fun e => negb (isWorktreeRemoval e)) effects = true
  /\ (outcome = Done ->
      effects = List.map (fun c => EffRemoveContainer (ContainerID c) true) containers
      /\ Forall (fun c => removeContainerOk world (ContainerID c) = true) containers).
Proof.
  revert effects outcome.
  induction containers as [|c rest IH]; intros effects outcome; simpl.
  - intros [= <- <-]. split; [reflexivity|]. intros _. split; [reflexivity|constructor].
  - destruct (String.length (ContainerID c) <? 12)%nat.
    { intros [= <- <-]. split; [reflexivity|discriminate]. }
    destruct (removeContainerOk world (ContainerID c)) eqn:Hok.
    + destruct (removeEach world rest) as [effects' outcome'].
      intros [= <- <-]. destruct (IH _ _ eq_refl) as [Hno Hdone].
      split; [exact Hno|]. intros Hd. destruct (Hdone Hd) as [-> Hall].
      split; [reflexivity|]. constructor; assumption.
    + intros [= <- <-]. split; [reflexivity|discriminate].
Qed.

(** X26: [runRemove] removes the Git worktree only as its last step, only
    without [--keep-worktree], and only after the Docker side succeeded
    (every container removed, or compose down done); when the removal of
    the worktree fails the command still succeeds if the path is gone, and
    exits with the git error code if it is still there. *)
Theorem remove_worktree_last
    (env : WorktreeEnv Time) (containers : list ContainerInfo) (envName : string)
    (force keepWorktree : bool) (prompt : option bool)
    (effects : list Effect) (outcome : Outcome RemoveMsg) :
  runRemove world filepathJoin (Ok (env, containers)) envName force keepWorktree prompt
    = (effects, outcome) ->
  existsb isWorktreeRemoval effects = true ->
  keepWorktree = false
  /\ (force = true \/ prompt = Some true)
  /\ exists dockerSide,
       effects = dockerSide
                 ++ [EffRemoveWorktree (SourceRepoPath env) (WorktreePath env) true]
       /\ forallb (fun e => negb (isWorktreeRemoval e)) dockerSide = true
       /\ (if IsCompose (ConfigPatternOf env) then
             dockerSide
             = [EffComposeDown (filepathJoin (WorktreePath env) ".devcontainer") true]
             /\ composeDownOk world (filepathJoin (WorktreePath env) ".devcontainer") = true
           else
             dockerSide
             = List.map (fun c => EffRemoveContainer (ContainerID c) true) containers
             /\ Forall (fun c => removeContainerOk world (ContainerID c) = true) containers)
       /\ outcome
          = (if worktreeRemoveOk world (SourceRepoPath env) (WorktreePath env) then Done
             else if statOk world (WorktreePath env) then
               Failed (mkCLIError ExitGitError (RemoveWorktreeFailed (WorktreePath env)))
             else Done).
Proof.
  unfold runRemove.
  assert (Hconfirmed :
    (if negb force then
       match prompt with
       | None => Some (mkCLIError ExitGeneralError ReadInputFailed)
       | Some confirmed =>
           if negb confirmed then Some (mkCLIError ExitUserCancelled CancelledByUser)
           else None
       end
     else None) = None -> force = true \/ prompt = Some true).
  { destruct force; [auto|]. destruct prompt as [[|]|]; simpl; auto; discriminate. }
  destruct (if negb force then _ else None) as [err|].
  { intros [= <- <-]. discriminate. }
  specialize (Hconfirmed eq_refl).
  assert (Hdocker : forall dockerSide dockerOutcome,
    (if IsCompose (ConfigPatternOf env) then
       if composeDownOk world (filepathJoin (WorktreePath env) ".devcontainer") then
         ([EffComposeDown (filepathJoin (WorktreePath env) ".devcontainer") true], Done)
       else
         ([EffComposeDown (filepathJoin (WorktreePath env) ".devcontainer") true],
          Failed (mkCLIError ExitGeneralError (RemoveEnvironmentFailed envName)))
     else removeEach world containers) = (dockerSide, dockerOutcome) ->
    forallb (fun e => negb (isWorktreeRemoval e)) dockerSide = true
    /\ (dockerOutcome = Done ->
        if IsCompose (ConfigPatternOf env) then
          dockerSide
          = [EffComposeDown (filepathJoin (WorktreePath env) ".devcontainer") true]
          /\ composeDownOk world (filepathJoin (WorktreePath env) ".devcontainer") = true
        else
          dockerSide
          = List.map (fun c => EffRemoveContainer (ContainerID c) true) containers
          /\ Forall (fun c => removeContainerOk world (ContainerID c) = true) containers)).
  { intros dockerSide dockerOutcome.
    destruct (IsCompose (ConfigPatternOf env)).
    - destruct (composeDownOk world _) eqn:Hdown; intros [= <- <-];
        (split; [reflexivity|]); first [discriminate|auto].
    - apply removeEach_spec. }
  destruct (if IsCompose (ConfigPatternOf env) then _ else removeEach world containers)
    as [dockerSide dockerOutcome].
  destruct (Hdocker _ _ eq_refl) as [Hno Hdone]. clear Hdocker.
  assert (Hnone : existsb isWorktreeRemoval dockerSide = false).
  { clear -Hno. induction dockerSide as [|e l IH]; simpl in *; [reflexivity|].
    apply andb_true_iff in Hno as [He Hl]. apply negb_true_iff in He.
    rewrite He, (IH Hl). reflexivity. }
  destruct dockerOutcome.
  - destruct keepWorktree; simpl.
    + intros [= <- <-] Hex. congruence.
    + intros Hrun _. split; [reflexivity|]. split; [exact Hconfirmed|].
      exists dockerSide. specialize (Hdone eq_refl).
      destruct (worktreeRemoveOk world (SourceRepoPath env) (WorktreePath env));
        [|destruct (statOk world (WorktreePath env))];
        injection Hrun as <- <-; auto.
  - intros [= <- <-] Hex. congruence.
  - intros [= <- <-] Hex. congruence.
Qed.

End LifecycleFacts.

Definition devContainer : ContainerInfo :=
  mkContainerInfo "0123456789abcdef" "feature-auth-dev" "" "running" ∅.

Definition imageEnv : WorktreeEnv Z :=
  mkWorktreeEnv "feature-auth" "feature/auth" "/src/app-feature-auth" "/src/app"
    "running" PatternImage [devContainer] [] 1772272800.

(** A world in which everything succeeds. *)
Definition calmWorld : World :=
  mkWorld (fun _ => true) (fun _ => true) (fun _ => true) (fun _ => true)
          (fun _ _ => true) (fun _ => false).

Definition joinPath (dir name : string) : string := dir +:+ "/" +:+ name.

Lemma stop_until_first_failure_witness :
  runStop calmWorld joinPath (Ok (imageEnv, [devContainer])) "feature-auth"
  = ([EffStopContainer "0123456789abcdef"], Done).
Proof.
  apply (stop_until_first_failure calmWorld joinPath imageEnv [devContainer] "feature-auth").
  - reflexivity.
  - constructor; [simpl; lia|constructor].
Defined.

Lemma remove_needs_confirmation_witness :
  exists code msg,
    runRemove calmWorld joinPath (Ok (imageEnv, [devContainer])) "feature-auth"
      false false (Some false)
    = ([], Failed (mkCLIError code msg))
    /\ (Some false = Some false -> code = ExitUserCancelled)
    /\ (Some false = None -> code = ExitGeneralError).
Proof.
  apply (remove_needs_confirmation calmWorld joinPath imageEnv [devContainer]
           "feature-auth" false (Some false)).
  discriminate.
Defined.

Lemma remove_worktree_last_witness :
  runRemove calmWorld joinPath (Ok (imageEnv, [devContainer])) "feature-auth"
    true false None
  = ([EffRemoveContainer "0123456789abcdef" true;
      EffRemoveWorktree "/src/app" "/src/app-feature-auth" true], Done)
  /\ exists dockerSide,
       [EffRemoveContainer "0123456789abcdef" true;
        EffRemoveWorktree "/src/app" "/src/app-feature-auth" true]
       = dockerSide ++ [EffRemoveWorktree "/src/app" "/src/app-feature-auth" true].
Proof.
  split; [reflexivity|].
  destruct (remove_worktree_last calmWorld joinPath imageEnv [devContainer]
              "feature-auth" true false None
              [EffRemoveContainer "0123456789abcdef" true;
               EffRemoveWorktree "/src/app" "/src/app-feature-auth" true] Done
              eq_refl eq_refl)
    as (_ & _ & dockerSide & Heffects & _).
  exists dockerSide. exact Heffects.
Defined.

End lifecycle_facts.

Module listing.
Import model docker validation environments.

(** [sort.Ints]. *)
Definition sortInts (l : list Z) : list Z := merge_sort Z.le l.

(** [strings.Join]. *)
Fixpoint Join (elems : list string) (sep : string) : string :=
  match elems with
  | [] => ""
  | [a] => a
  | a :: rest => a +:+ sep +:+ Join rest sep
  end.

(** [FormatPortsList]. *)
Definition FormatPortsList (allocations : list PortAllocation) : string :=
  if (length allocations =? 0)%nat then "-"
  else
    let portNums := List.map HostPort allocations in
    let portNums := sortInts portNums in
    let ports := List.map strconv.Itoa portNums in
    Join ports ",".

Inductive ListMsg : Type :=
| InvalidStatusFilter (statusFilter : string)
| ListingFailed.

Section List.

Context {Time : Type}.
Variable parseRFC3339 : string -> option Time.
Variable statNotExist : string -> bool.

(** [strings.ToLower] of the Go library, on any text. *)
Variable ToLower : string -> string.

(** [ParseWorktreeStatus]. *)
Definition ParseWorktreeStatus (s : string) : option WorktreeStatus :=
  let status := ToLower s in
  if negb (StatusIsValid status) then None else Some status.

(** The loop of [runList] over the groups, in the order the map is
    visited: environments whose labels do not parse are skipped. *)
Definition buildEach (groups : list (string * list ContainerInfo))
    : list (WorktreeEnv Time) :=
  foldl (fun envs (group : string * list ContainerInfo) =>
           match BuildWorktreeEnv parseRFC3339 statNotExist group.1 group.2 with
           | Err _ => envs
           | Ok env => envs ++ [env]
           end)
        [] groups.

(** [sort.Slice] by [Name]. The names are pairwise distinct (each is the
    key of its group), so every sorting algorithm gives the same list. *)
Definition sortByName (envs : list (WorktreeEnv Time)) : list (WorktreeEnv Time) :=
  merge_sort (fun a b => Is_true (String.leb (Name a) (Name b))) envs.

(** [runList] up to the list that is printed; [listing] is the result of
    connecting to Docker and listing the managed containers. *)
Definition runList (listing : option (list ContainerInfo)) (statusFilter : string)
    : result (CLIError ListMsg) (list (WorktreeEnv Time)) :=
  if negb (String.eqb statusFilter "all")
     && match ParseWorktreeStatus statusFilter with None => true | Some _ => false end
  then Err (mkCLIError ExitGeneralError (InvalidStatusFilter statusFilter))
  else
    match listing with
    | None => Err (mkCLIError ExitDockerNotRunning ListingFailed)
    | Some containers =>
        let groups := GroupContainersByEnv containers in
        let envs := buildEach (map_to_list groups) in
        let envs := sortByName envs in
        let envs :=
          if negb (String.eqb statusFilter "all") then
            List.filter (fun env => String.eqb (Status env) statusFilter) envs
          else envs in
        Ok envs
    end.

End List.

End listing.

Module listing_facts.
Import model docker validation environments listing.

Lemma ascii_compare_N (a b : ascii) :
  Ascii.compare a b = N.compare (N_of_ascii a) (N_of_ascii b).
Proof. reflexivity. Qed.

(** The order of [sort.Strings] and of [<] on Go strings is transitive. *)
Lemma String_leb_trans (a : string) : forall b c,
  String.leb a b = true -> String.leb b c = true -> String.leb a c = true.
Proof.
  unfold String.leb.
  induction a as [|x a IH]; intros [|y b] [|z c]; simpl; try congruence.
  rewrite !ascii_compare_N.
  destruct (N.compare_spec (N_of_ascii x) (N_of_ascii y)) as [Hxy|Hxy|Hxy];
    destruct (N.compare_spec (N_of_ascii y) (N_of_ascii z)) as [Hyz|Hyz|Hyz];
    destruct (N.compare_spec (N_of_ascii x) (N_of_ascii z)) as [Hxz|Hxz|Hxz];
    try congruence; try lia.
  apply IH.
Qed.

Section ListFacts.

Context {Time : Type}.
Variable parseRFC3339 : string -> option Time.
Variable statNotExist : string -> bool.
Variable ToLower : string -> string.

Definition byName (a b : WorktreeEnv Time) : Prop :=
  Is_true (String.leb (Name a) (Name b)).

Lemma byName_trans : Transitive byName.
Proof.
  intros a b c. unfold byName. rewrite !Is_true_true. apply String_leb_trans.
Qed.

Lemma byName_total : Total byName.
Proof.
  intros a b. unfold byName. rewrite !Is_true_true. apply String.leb_total.
Qed.

Lemma filter_StronglySorted {A : Type} (R : A -> A -> Prop) (p : A -> bool) l :
  StronglySorted R l -> StronglySorted R (List.filter p l).
Proof.
  induction 1 as [|x l Hs IH Hall]; simpl; [constructor|].
  destruct (p x); [|exact IH]. constructor; [exact IH|].
  apply Forall_forall. intros y Hy. apply filter_In in Hy as [Hy _].
  rewrite Forall_forall in Hall. apply Hall. exact Hy.
Qed.

Lemma buildEach_status groups : forall acc,
  Forall (fun env => StatusIsValid (Status env) = true) acc ->
  Forall (fun env => StatusIsValid (Status env) = true)
         (foldl (fun envs (group : string * list ContainerInfo) =>
                   match BuildWorktreeEnv parseRFC3339 statNotExist group.1 group.2 with
                   | Err _ => envs
                   | Ok env => envs ++ [env]
                   end) acc groups).
Proof.
  induction groups as [|[name containers] rest IH]; intros acc Hacc; simpl; [exact Hacc|].
  apply IH. unfold BuildWorktreeEnv.
  destruct containers as [|first others]; [exact Hacc|].
  destruct (ParseLabels parseRFC3339 (Labels first)) as [env|]; [|exact Hacc].
  apply Forall_app. split; [exact Hacc|]. constructor; [|constructor]. simpl.
  apply (docker_more.determineStatus_valid statNotExist).
Qed.

Lemma valid_status_cases (s : string) :
  StatusIsValid s = true ->
  s = StatusRunning \/ s = StatusStopped \/ s = StatusOrphaned.
Proof.
  unfold StatusIsValid. rewrite !orb_true_iff, !String.eqb_eq. tauto.
Qed.

(** X27: the environments that [runList] shows are ordered by name and
    have a valid status, and with a filter other than all each of them has
    exactly the filter as status; so anything is listed only for the
    filters all, running, stopped and orphaned as written: a filter that
    passes validation in another spelling is accepted and lists nothing. *)
Theorem list_filter_is_exact
    (listing : option (list ContainerInfo)) (statusFilter : string) :
  (forall envs,
     runList parseRFC3339 statNotExist ToLower listing statusFilter = Ok envs ->
     StronglySorted byName envs
     /\ Forall (fun env =>
                  StatusIsValid (Status env) = true
                  /\ (statusFilter = "all" \/ Status env = statusFilter)) envs
     /\ (envs <> [] -> In statusFilter ["all"; "running"; "stopped"; "orphaned"]))
  /\ (forall containers,
        listing = Some containers ->
        ~ In statusFilter ["all"; "running"; "stopped"; "orphaned"] ->
        StatusIsValid (ToLower statusFilter) = true ->
        runList parseRFC3339 statNotExist ToLower listing statusFilter = Ok []).
Proof.
  assert (Hshown : forall envs,
     runList parseRFC3339 statNotExist ToLower listing statusFilter = Ok envs ->
     StronglySorted byName envs
     /\ Forall (fun env =>
                  StatusIsValid (Status env) = true
                  /\ (statusFilter = "all" \/ Status env = statusFilter)) envs).
  { intros envs. unfold runList.
    destruct (negb (statusFilter =? "all")%string && _); [discriminate|].
    destruct listing as [containers|]; [|discriminate].
    set (built := buildEach parseRFC3339 statNotExist
                    (map_to_list (GroupContainersByEnv containers))).
    assert (Hsorted : StronglySorted byName (sortByName built)).
    { apply StronglySorted_merge_sort; [apply byName_trans|apply byName_total]. }
    assert (Hvalid : Forall (fun env => StatusIsValid (Status env) = true)
                            (sortByName built)).
    { apply Forall_forall. intros env Henv.
      assert (Hin : In env built).
      { apply list_elem_of_In. apply list_elem_of_In in Henv.
        unfold sortByName in Henv. rewrite merge_sort_Permutation in Henv. exact Henv. }
      clear Henv. revert env Hin. apply Forall_forall. apply buildEach_status.
      constructor. }
    destruct (String.eqb_spec statusFilter "all") as [->|Hall]; simpl; intros [= <-].
    - split; [exact Hsorted|]. apply Forall_forall. intros env Henv.
      rewrite Forall_forall in Hvalid. auto.
    - split; [apply filter_StronglySorted; exact Hsorted|].
      apply Forall_forall. intros env Henv. apply filter_In in Henv as [Henv Hstatus].
      rewrite Forall_forall in Hvalid. apply String.eqb_eq in Hstatus. auto. }
  split.
  - intros envs Hrun. destruct (Hshown envs Hrun) as [Hsorted Hall].
    split; [exact Hsorted|]. split; [exact Hall|].
    intros Hne. destruct envs as [|env rest]; [congruence|].
    inversion Hall as [|? ? [Hvalid Hfilter] _]; subst.
    destruct Hfilter as [->|<-]; [simpl; auto|].
    destruct (valid_status_cases _ Hvalid) as [-> | [-> | ->]]; simpl; auto.
  - intros containers -> Hother Hlower.
    destruct (runList parseRFC3339 statNotExist ToLower (Some containers) statusFilter)
      as [envs|err] eqn:Hrun.
    + destruct envs as [|env rest]; [reflexivity|]. exfalso.
      destruct (Hshown _ eq_refl) as [_ Hall].
      inversion Hall as [|? ? [Hvalid Hfilter] _]; subst.
      apply Hother. destruct Hfilter as [->|<-]; [simpl; auto|].
      destruct (valid_status_cases _ Hvalid) as [-> | [-> | ->]]; simpl; auto.
    + exfalso. unfold runList, ParseWorktreeStatus in Hrun. rewrite Hlower in Hrun.
      simpl in Hrun. rewrite andb_false_r in Hrun. discriminate.
Qed.

End ListFacts.

Lemma sortInts_Permutation l1 l2 : l1 ≡ₚ l2 -> sortInts l1 = sortInts l2.
Proof.
  intros Hperm. unfold sortInts.
  apply (Sorted_unique Z.le).
  - apply Sorted_merge_sort. intros a b. lia.
  - apply Sorted_merge_sort. intros a b. lia.
  - rewrite !merge_sort_Permutation. exact Hperm.
Qed.

(** X28: [FormatPortsList] prints the host ports in increasing numeric
    order, separated by commas, whatever the order of the allocations: two
    lists with the same allocations in another order give the same text;
    the empty list gives a dash. *)
Theorem format_ports_list_sorted (allocations : list PortAllocation) :
  (allocations = [] -> FormatPortsList allocations = "-")
  /\ (allocations <> [] ->
      exists portNums,
        FormatPortsList allocations = Join (List.map strconv.Itoa portNums) ","
        /\ portNums ≡ₚ List.map HostPort allocations
        /\ StronglySorted Z.le portNums)
  /\ (forall other, allocations ≡ₚ other ->
        FormatPortsList allocations = FormatPortsList other).
Proof.
  split; [intros ->; reflexivity|]. split.
  - intros Hne. exists (sortInts (List.map HostPort allocations)).
    split; [destruct allocations; [congruence|reflexivity]|].
    split; [apply merge_sort_Permutation|].
    apply StronglySorted_merge_sort; intros a b; lia.
  - intros other Hperm. unfold FormatPortsList.
    rewrite (Permutation_length Hperm).
    rewrite (sortInts_Permutation (List.map HostPort allocations)
               (List.map HostPort other)); [reflexivity|].
    apply Permutation_map. exact Hperm.
Qed.

End listing_facts.

Module create_more.
Import model port port_facts port_examples port_proofs docker docker_facts cli cli_examples.

Local Arguments seqZ : simpl never.
Local Arguments firstAvailable : simpl never.

Lemma parsePortEntries_tcp entries : forall allocations ports,
  Forall (fun pa => Protocol pa = "tcp") allocations ->
  parsePortEntries entries allocations = Ok ports ->
  Forall (fun pa => Protocol pa = "tcp") ports.
Proof.
  induction entries as [|[key value] rest IH]; intros allocations ports Hall; simpl.
  - intros [= <-]. exact Hall.
  - destruct (strings.CutPrefix key LabelOriginalPortPrefix) as [portStr|];
      [|apply IH; exact Hall].
    destruct (strconv.Atoi portStr) as [containerPort|]; [|discriminate].
    destruct (strconv.Atoi value) as [hostPort|]; [|discriminate].
    apply IH. apply Forall_app. split; [exact Hall|]. repeat constructor.
Qed.

Lemma loaded_tcp containers : forall allocs,
  Forall (fun pa => Protocol pa = "tcp") allocs ->
  Forall (fun pa => Protocol pa = "tcp")
         (foldl (fun allocs c =>
                   match ParsePortLabels (Labels c) with
                   | Err _ => allocs
                   | Ok portAllocs => allocs ++ portAllocs
                   end) allocs containers).
Proof.
  induction containers as [|c rest IH]; intros allocs Hall; simpl; [exact Hall|].
  apply IH. destruct (ParsePortLabels (Labels c)) as [portAllocs|] eqn:Hparse;
    [|exact Hall].
  apply Forall_app. split; [exact Hall|].
  apply (parsePortEntries_tcp _ [] _ (Forall_nil _) Hparse).
Qed.

(** X29: the allocations that create loads from the labels of the other
    environments all have protocol tcp, whatever protocol they were made
    for; so for a udp port the allocator's check against known allocations
    never fires and only the bind test of the operating system decides. *)
Theorem loaded_allocations_are_tcp
    (os : Host) (listing : result DockerError (list ContainerInfo))
    (existing : list PortAllocation) :
  loadExistingAllocations listing = Ok existing ->
  Forall (fun pa => Protocol pa = "tcp") existing
  /\ forall p, isPortAvailableForAllocation os existing p "udp"
               = IsPortAvailable os p "udp".
Proof.
  unfold loadExistingAllocations. destruct listing as [containers|]; [|discriminate].
  intros [= <-].
  assert (Htcp := loaded_tcp containers [] (Forall_nil _)).
  split; [exact Htcp|]. intros p. unfold isPortAvailableForAllocation.
  replace (existsb (samePort p "udp") _) with false; [reflexivity|].
  symmetry. apply not_true_is_false. intros Hex.
  apply existsb_exists in Hex as (pa & Hin & Hsame).
  rewrite Forall_forall in Htcp. specialize (Htcp pa Hin).
  unfold samePort in Hsame. rewrite Htcp in Hsame.
  apply andb_true_iff in Hsame as [_ Hproto]. discriminate.
Qed.

(** X30: when create allocates, the worktree index it used is in 1..9,
    also when the index could not be determined or the limit was reached;
    each allocation keeps the service name and container port of its
    spec, its host port is at most 65535, and for a container port in
    1..65535 it is at least 10001: create never hands out the original
    port unshifted below that. *)
Theorem create_allocates_shifted
    (os : Host) (listing : result DockerError (list ContainerInfo))
    (originalPorts : list PortSpec) (worktreeIndex : Z)
    (portAllocations : list PortAllocation) :
  createAllocate os listing originalPorts = Ok (worktreeIndex, portAllocations) ->
  1 <= worktreeIndex <= 9
  /\ Forall2 (fun s a =>
                ServiceName a = ps_ServiceName s
                /\ ContainerPort a = ps_ContainerPort s
                /\ HostPort a <= 65535
                /\ (1 <= ps_ContainerPort s <= 65535 -> 10001 <= HostPort a))
             originalPorts portAllocations.
Proof.
  unfold createAllocate.
  destruct (determineWorktreeIndex listing) as [index err] eqn:Hindex.
  set (idx := match err with Some _ => 1 | None => index end).
  assert (Hidx : 1 <= idx <= 9).
  { unfold idx, determineWorktreeIndex in *. destruct listing as [containers|e].
    - destruct (Z.gtb_spec (Z.of_nat (size (GroupContainersByEnv containers)) + 1) 9);
        injection Hindex as <- <-; lia.
    - injection Hindex as <- <-. lia. }
  clearbody idx.
  destruct (AllocatePorts os _ originalPorts idx) as [allocs|e] eqn:Halloc; [|discriminate].
  intros [= <- <-]. split; [exact Hidx|].
  unfold AllocatePorts in Halloc.
  destruct (allocateLoop os _ [] originalPorts idx) as [r ex'] eqn:Hloop.
  simpl in Halloc. subst r.
  apply allocateLoop_Ok in Hloop as (new & -> & _ & _ & _ & Hall & _). simpl.
  induction Hall as [|s a ports new Hsa Hall IH]; constructor; [|exact IH].
  destruct Hsa as (Hs & Hc & _ & _ & _ & Hmax & Hmin).
  split; [exact Hs|]. split; [exact Hc|]. split; [exact Hmax|].
  intros Hport. unfold shiftCandidate in Hmin.
  destruct (Z.eqb_spec idx 0); [lia|].
  rewrite int_wrap_id in Hmin;
    unfold is_int, int_min, int_max, portShiftMultiplier, dynamicRangeStart in *; lia.
Qed.

(** A container of another environment whose labels record the host port
    15353. *)
Definition dnsContainer : ContainerInfo :=
  mkContainerInfo "0123456789abcdef" "dns-1" "dns" "running"
    (<[BuildPortLabel 5353 := "15353"]> (<[LabelName := "dns"]> ∅)).

Lemma loaded_allocations_are_tcp_witness :
  loadExistingAllocations (Ok [dnsContainer])
    = Ok [mkPortAllocation "" 5353 15353 "tcp" ""]
  /\ Forall (fun pa => Protocol pa = "tcp") [mkPortAllocation "" 5353 15353 "tcp" ""]
  /\ forall p,
       isPortAvailableForAllocation idleHost [mkPortAllocation "" 5353 15353 "tcp" ""]
         p "udp"
       = IsPortAvailable idleHost p "udp".
Proof.
  assert (Hload : loadExistingAllocations (Ok [dnsContainer])
                  = Ok [mkPortAllocation "" 5353 15353 "tcp" ""])
    by (vm_compute; reflexivity).
  split; [exact Hload|].
  exact (loaded_allocations_are_tcp idleHost _ _ Hload).
Defined.

Lemma create_allocates_shifted_witness :
  createAllocate idleHost (Ok nineEnvironments) twoServices
    = Ok (1, [mkPortAllocation "web" 3000 13000 "tcp" "Application";
              mkPortAllocation "api" 3000 13001 "tcp" "API"])
  /\ 1 <= 1 <= 9.
Proof.
  assert (Hrun : createAllocate idleHost (Ok nineEnvironments) twoServices
                 = Ok (1, [mkPortAllocation "web" 3000 13000 "tcp" "Application";
                           mkPortAllocation "api" 3000 13001 "tcp" "API"]))
    by (vm_compute; reflexivity).
  split; [exact Hrun|].
  exact (proj1 (create_allocates_shifted idleHost _ _ _ _ Hrun)).
Defined.

End create_more.
